(** * The VibeTide level codec

    A shallow embedding of the level codec of [vibe_tide_mcp_app]:
    [runLengthEncode], [runLengthDecode], [base64urlEncode],
    [base64urlDecode], [encodeLevel] and [decodeLevel] of [server.ts], and
    the methods of the class [LevelEncoder] of [src/mcp-app.ts].

    Conventions of the embedding.
    - A JavaScript string is the list of its UTF-16 code units ([jsstring]).
    - A JavaScript number is [NaN], an infinity or a finite rational; the two
      zeros are identified (the codec never observes the sign of zero).
    - A call returns or throws ([outcome]). The [while] loop of
      [runLengthDecode] is given as many turns as its input has characters;
      [Diverges] stands for a loop that has used up its turns, and
      [decodeLevel_total] shows that no call of the decoder ends so.
    - An array holds at most 2^32 - 1 elements, as the language says; the
      memory of the machine and the longest string of an engine are not
      modelled. A theorem that says that a decoder returns on a token says
      so for grids and tile data of modest size ([MODEST]), which every
      engine holds.
    - What the codec takes from the runtime and is not a plain function of
      strings and integers (the conversion between numbers and text,
      [JSON.parse], the decoders of [Buffer] and [atob]) is a field of the
      record [Platform]; the facts about them the proofs rely on are the
      fields of [PlatformLaws], and [Reference.platform] is a runtime that
      meets them. *)

From Stdlib Require Import ZArith NArith QArith Qround Ascii String Bool Lia Arith PeanoNat List.
Import ListNotations.
Close Scope Q_scope.

Set Implicit Arguments.
#[local] Set Warnings "-register-all".

(* ------------------------------------------------------------------ *)
(** ** Strings, numbers and results *)

Definition char : Type := N.
Definition jsstring : Type := list char.
Definition byte : Type := N.

Definition ch (a : ascii) : char := N_of_ascii a.
Definition str (s : string) : jsstring := map ch (list_ascii_of_string s).

Definition DOT : char := Eval cbv in ch ".".
Definition COLON : char := Eval cbv in ch ":".
Definition BAR : char := Eval cbv in ch "|".
Definition LOWER_X : char := Eval cbv in ch "x".
Definition EQUALS : char := Eval cbv in ch "=".
Definition PLUS : char := Eval cbv in ch "+".
Definition SLASH : char := Eval cbv in ch "/".
Definition MINUS : char := Eval cbv in ch "-".
Definition UNDERSCORE : char := Eval cbv in ch "_".
Definition QUOTE : char := 34%N.

Inductive number : Type :=
| NaN
| PosInf
| NegInf
| Finite (q : Q).

Definition int (z : Z) : number := Finite (inject_Z z).
Definition num_of_nat (n : nat) : number := int (Z.of_nat n).

Inductive jsvalue : Type :=
| JNull
| JBool (b : bool)
| JNumber (n : number)
| JString (s : jsstring)
| JArray (items : list jsvalue)
| JObject (props : list (jsstring * jsvalue)).

Inductive exn : Type :=
| TypeError
| RangeError
| SyntaxError
| InvalidCharacterError
| Error (message : string).

Inductive outcome (A : Type) : Type :=
| Returns (a : A)
| Throws (e : exn)
| Diverges.

Arguments Throws {A} e.
Arguments Diverges {A}.

Definition bind {A B : Type} (o : outcome A) (k : A -> outcome B) : outcome B :=
  match o with
  | Returns a => k a
  | Throws e => Throws e
  | Diverges => Diverges
  end.

Notation "x <- o ;; k" := (bind o (fun x => k))
  (at level 61, o at next level, right associativity).

(* ------------------------------------------------------------------ *)
(** ** The runtime *)

Record Platform : Type := {
  (** [Number(s)] on a string. *)
  StringToNumber : jsstring -> number;
  (** The text [JSON.stringify] writes for a number. *)
  Number_toString : number -> jsstring;
  (** [JSON.parse(s)]; a [SyntaxError] is [Throws]. *)
  JSON_parse : jsstring -> outcome jsvalue;
  (** [Buffer.from(s, "base64")]: never throws. *)
  Buffer_from_base64 : jsstring -> list byte;
  (** [buffer.toString("utf-8")]. *)
  Buffer_toString_utf8 : list byte -> jsstring;
  (** [atob(s)]: throws on what is not base64. *)
  atob : jsstring -> outcome jsstring;
}.

(* ------------------------------------------------------------------ *)
(** ** Decimal text of array and string lengths *)

Definition is_digit (c : char) : bool := ((48 <=? c) && (c <=? 57))%N.

Definition digit_char (d : nat) : char := (48 + N.of_nat d)%N.

Fixpoint digits_of (fuel n : nat) : list nat :=
  match fuel with
  | 0 => []
  | S fuel' => if n <? 10 then [n] else digits_of fuel' (n / 10) ++ [n mod 10]
  end.

(** [`${n}`] for a length [n]. *)
Definition decimal (n : nat) : jsstring := map digit_char (digits_of (S n) n).

(** The mathematical value of a string of decimal digits. *)
Definition decimal_value (s : jsstring) : N :=
  fold_left (fun acc c => (10 * acc + (c - 48))%N) s 0%N.

(* ------------------------------------------------------------------ *)
(** ** String primitives *)

(** [s.includes(c)] for a one-character [c]. *)
Definition includes (c : char) (s : jsstring) : bool := existsb (N.eqb c) s.

(** [s.split(sep)] for a one-character separator. *)
Fixpoint split (sep : char) (s : jsstring) : list jsstring :=
  match s with
  | [] => [[]]
  | c :: s' =>
      if (c =? sep)%N then [] :: split sep s'
      else match split sep s' with
           | first :: others => (c :: first) :: others
           | [] => [[c]]
           end
  end.

(** Rounding towards zero, as [ToIntegerOrInfinity] does. *)
Definition Qtruncate (q : Q) : Z := Z.quot (Qnum q) (Z.pos (Qden q)).

(** [ToIntegerOrInfinity] then the range check of [String.prototype.repeat],
    as the language has it: any finite count is repeated. An engine throws a
    [RangeError] where the result would be longer than its longest string. *)
Definition String_repeat (s : jsstring) (count : number) : outcome jsstring :=
  match count with
  | NaN => Returns []
  | PosInf | NegInf => Throws RangeError
  | Finite q =>
      let n := Qtruncate q in
      if (n <? 0)%Z then Throws RangeError
      else Returns (concat (repeat s (Z.to_nat n)))
  end.

(* ------------------------------------------------------------------ *)
(** ** Run-length coding of the empty tile ([server.ts] 123-169) *)

(** The two branches that append to [result]. *)
Definition rle_flush (current : char) (count : nat) : jsstring :=
  if (current =? DOT)%N && (2 <? count)
  then DOT :: decimal count
  else repeat current count.

(** One turn of the [for] loop on the state [(result, count, current)]. *)
Definition rle_step (st : jsstring * nat * char) (c : char) : jsstring * nat * char :=
  let '(result, count, current) := st in
  if (c =? current)%N && (current =? DOT)%N
  then (result, S count, current)
  else (result ++ rle_flush current count, 1, c).

Definition runLengthEncode (input : jsstring) : jsstring :=
  match input with
  | [] => input
  | first :: rest =>
      let '(result, count, current) := fold_left rle_step rest ([], 1, first) in
      result ++ rle_flush current count
  end.

(** The inner [while]: the digits from [j] on, and what follows them. *)
Fixpoint take_digits (s : jsstring) : jsstring * jsstring :=
  match s with
  | c :: s' =>
      if is_digit c
      then let (numStr, rest) := take_digits s' in (c :: numStr, rest)
      else ([], s)
  | [] => ([], [])
  end.

Definition starts_with_digit (s : jsstring) : bool :=
  match s with
  | d :: _ => is_digit d
  | [] => false
  end.

Section RunLengthDecode.
Variable rt : Platform.

(** The outer [while] on the suffix [input[i..]] and [result]; every turn
    consumes a character, so [length input] turns are enough. *)
Fixpoint rld_loop (fuel : nat) (input result : jsstring) : outcome jsstring :=
  match input with
  | [] => Returns result
  | c :: rest =>
      match fuel with
      | 0 => Diverges
      | S fuel' =>
          if (c =? DOT)%N && starts_with_digit rest
          then
            let (numStr, rest') := take_digits rest in
            dots <- String_repeat [DOT] (StringToNumber rt numStr) ;;
            rld_loop fuel' rest' (result ++ dots)
          else rld_loop fuel' rest (result ++ [c])
      end
  end.

(** The loop from any state, with the turns its input allows. *)
Definition rld (input result : jsstring) : outcome jsstring :=
  rld_loop (length input) input result.

Definition runLengthDecode (input : option jsstring) : outcome jsstring :=
  match input with
  | None => Throws TypeError   (* [input.length] of [undefined] *)
  | Some s => rld_loop (length s) s []
  end.
End RunLengthDecode.

(* ------------------------------------------------------------------ *)
(** ** Bytes and base64 *)

Definition is_high_surrogate (c : char) : bool := ((0xD800 <=? c) && (c <=? 0xDBFF))%N.
Definition is_low_surrogate (c : char) : bool := ((0xDC00 <=? c) && (c <=? 0xDFFF))%N.

Definition utf8_of_code_point (cp : N) : list byte :=
  (if cp <? 0x80 then [cp]
   else if cp <? 0x800 then [0xC0 + cp / 64; 0x80 + cp mod 64]
   else if cp <? 0x10000 then
     [0xE0 + cp / 4096; 0x80 + (cp / 64) mod 64; 0x80 + cp mod 64]
   else
     [0xF0 + cp / 262144; 0x80 + (cp / 4096) mod 64;
      0x80 + (cp / 64) mod 64; 0x80 + cp mod 64])%N.

(** [Buffer.from(s, "utf-8")]: a surrogate pair is one code point, a lone
    surrogate is written as U+FFFD. *)
Fixpoint utf8_encode (s : jsstring) : list byte :=
  match s with
  | [] => []
  | c :: rest =>
      if is_high_surrogate c then
        match rest with
        | d :: rest' =>
            if is_low_surrogate d
            then utf8_of_code_point (0x10000 + (c - 0xD800) * 1024 + (d - 0xDC00))%N
                   ++ utf8_encode rest'
            else utf8_of_code_point 0xFFFD%N ++ utf8_encode rest
        | [] => utf8_of_code_point 0xFFFD%N
        end
      else if is_low_surrogate c then utf8_of_code_point 0xFFFD%N ++ utf8_encode rest
      else utf8_of_code_point c ++ utf8_encode rest
  end.

Definition base64_alphabet : jsstring :=
  Eval cbv in str "ABCDEFGHIJKLMNOPQRSTUVWXYZabcdefghijklmnopqrstuvwxyz0123456789+/".

Definition base64_char (sextet : N) : char :=
  nth (N.to_nat sextet) base64_alphabet EQUALS.

(** [buffer.toString("base64")] and the encoder inside [btoa] (RFC 4648,
    with padding). *)
Fixpoint base64_encode (bs : list byte) : jsstring :=
  match bs with
  | [] => []
  | [b1] =>
      [base64_char (b1 / 4); base64_char ((b1 mod 4) * 16); EQUALS; EQUALS]%N
  | [b1; b2] =>
      [base64_char (b1 / 4); base64_char ((b1 mod 4) * 16 + b2 / 16);
       base64_char ((b2 mod 16) * 4); EQUALS]%N
  | b1 :: b2 :: b3 :: rest =>
      [base64_char (b1 / 4); base64_char ((b1 mod 4) * 16 + b2 / 16);
       base64_char ((b2 mod 16) * 4 + b3 / 64); base64_char (b3 mod 64)]%N
        ++ base64_encode rest
  end.

(** [btoa(s)]: the code units are the bytes; one above 255 is refused. *)
Definition btoa (s : jsstring) : outcome jsstring :=
  if forallb (fun c => c <? 256)%N s
  then Returns (base64_encode s)
  else Throws InvalidCharacterError.

(** [s.replace(/a/g, b)] for one-character [a] and [b]. *)
Definition replace_all (a b : char) (s : jsstring) : jsstring :=
  map (fun c => if (c =? a)%N then b else c) s.

Fixpoint drop_while (p : char -> bool) (s : jsstring) : jsstring :=
  match s with
  | c :: s' => if p c then drop_while p s' else s
  | [] => []
  end.

(** [s.replace(/=+$/, "")]. *)
Definition strip_padding (s : jsstring) : jsstring :=
  rev (drop_while (N.eqb EQUALS) (rev s)).

(** The first three replacements of [base64urlEncode], on the base64 text. *)
Definition to_urlsafe (encoded : jsstring) : jsstring :=
  strip_padding (replace_all SLASH UNDERSCORE (replace_all PLUS MINUS encoded)).

(** [input + "=".repeat((4 - (input.length % 4)) % 4)], then the two
    replacements of [base64urlDecode]. *)
Definition from_urlsafe (input : jsstring) : jsstring :=
  let padded := input ++ repeat EQUALS ((4 - length input mod 4) mod 4) in
  replace_all UNDERSCORE SLASH (replace_all MINUS PLUS padded).

(* ------------------------------------------------------------------ *)
(** ** Levels *)

(** [LevelPayload] of [server.ts] and [LevelData] of [mcp-app.ts]; [None] is
    [undefined]. The fields [name] and [description] play no part in the
    codec and are left out. The parameters are stored as they come out of
    [JSON.parse], whatever their type. *)
Record LevelPayload : Type := mkLevel {
  tiles : option (list (list number));
  width : option number;
  height : option number;
  maxEnemies : option jsvalue;
  enemySpawnChance : option jsvalue;
  coinSpawnChance : option jsvalue;
  encodedLevel : option jsstring;
}.

(** A property key is the text of the number: the entry is found when the
    number equals the key. *)
Definition number_is (n : number) (key : Z) : bool :=
  match n with
  | Finite q => Qeq_bool q (inject_Z key)
  | _ => false
  end.

Definition tileChars (tile : number) : option char :=
  if number_is tile 0 then Some (ch ".")
  else if number_is tile 1 then Some (ch "G")
  else if number_is tile 2 then Some (ch "R")
  else if number_is tile 3 then Some (ch "Y")
  else if number_is tile 4 then Some (ch "I")
  else if number_is tile 5 then Some (ch "F")
  else if number_is tile 6 then Some (ch "S")
  else if number_is tile 7 then Some (ch "W")
  else None.

Definition charTiles (c : char) : option number :=
  if (c =? ch ".")%N then Some (int 0)
  else if (c =? ch "G")%N then Some (int 1)
  else if (c =? ch "R")%N then Some (int 2)
  else if (c =? ch "Y")%N then Some (int 3)
  else if (c =? ch "I")%N then Some (int 4)
  else if (c =? ch "F")%N then Some (int 5)
  else if (c =? ch "S")%N then Some (int 6)
  else if (c =? ch "W")%N then Some (int 7)
  else None.

(** [a ?? b]. *)
Definition nullish {A : Type} (a : option A) (b : A) : A :=
  match a with
  | Some x => x
  | None => b
  end.

Infix "??" := nullish (at level 45, left associativity).

(** [Number.isFinite(v)]: a finite number, and nothing else. *)
Definition Number_isFinite (v : option jsvalue) : option number :=
  match v with
  | Some (JNumber (Finite q)) => Some (Finite q)
  | _ => None
  end.

Definition jsstring_eqb (a b : jsstring) : bool :=
  if list_eq_dec N.eq_dec a b then true else false.

Fixpoint lookup (key : jsstring) (props : list (jsstring * jsvalue)) : option jsvalue :=
  match props with
  | [] => None
  | (k, v) :: props' => if jsstring_eqb key k then Some v else lookup key props'
  end.

(** [v.key] for a key that no prototype defines: [null] has no properties,
    an object has its own, every other value has none by that name. *)
Definition get_prop (v : jsvalue) (key : jsstring) : outcome (option jsvalue) :=
  match v with
  | JNull => Throws TypeError
  | JObject props => Returns (lookup key props)
  | _ => Returns None
  end.

(** The longest array of the language: [push] on an array of 2^32 - 1
    elements throws a [RangeError]. An engine throws that error, or runs out
    of memory, on shorter arrays: see [MODEST] for the sizes on which a
    return is asserted. *)
Definition MAX_ARRAY_LENGTH : Z := 4294967295.

(** The number of turns [for (let y = 0; y < bound; y += 1)] takes, when an
    array can take one [push] per turn; [None] when the loop asks for more
    turns than that. *)
Definition loop_count (bound : number) : option nat :=
  match bound with
  | NaN | NegInf => Some 0
  | PosInf => None
  | Finite q =>
      if Qle_bool q 0 then Some 0
      else if Qle_bool q (inject_Z MAX_ARRAY_LENGTH) then Some (Z.to_nat (Qceiling q))
      else None
  end.

(** The inner [for] of [decodeLevel], on [(row, index)]. *)
Fixpoint row_loop (turns : nat) (tileString : jsstring) (index : nat)
    (row : list number) : list number * nat :=
  match turns with
  | 0 => (row, index)
  | S turns' =>
      let char := nth_error tileString index ?? DOT in
      row_loop turns' tileString (S index) (row ++ [charTiles char ?? int 0])
  end.

(** The outer [for], on [(tiles, index)]. *)
Fixpoint rows_loop (turns width : nat) (tileString : jsstring) (index : nat)
    (tiles : list (list number)) : list (list number) :=
  match turns with
  | 0 => tiles
  | S turns' =>
      let (row, index') := row_loop width tileString index [] in
      rows_loop turns' width tileString index' (tiles ++ [row])
  end.

(** The two loops together. Every turn pushes one element: a row that
    asks for too many turns throws in its last [push], and so does the
    array of rows. *)
Definition decode_tiles (width height : number) (tileString : jsstring)
  : outcome (list (list number)) :=
  match loop_count height, loop_count width with
  | Some 0, _ => Returns []
  | _, None => Throws RangeError
  | None, Some _ => Throws RangeError
  | Some turns, Some w => Returns (rows_loop turns w tileString 0 [])
  end.

(** [JSON.stringify] of an object whose values are finite numbers: the
    members ["key":number] between braces, separated by commas. *)
Fixpoint join_comma (members : list jsstring) : jsstring :=
  match members with
  | [] => []
  | [m] => m
  | m :: others => m ++ str "," ++ join_comma others
  end.

Definition JSON_member (rt : Platform) (kv : jsstring * number) : jsstring :=
  [QUOTE] ++ fst kv ++ [QUOTE; COLON] ++ Number_toString rt (snd kv).

Definition JSON_stringify (rt : Platform) (params : list (jsstring * number)) : jsstring :=
  str "{" ++ join_comma (map (JSON_member rt) params) ++ str "}".

Definition KEY_maxEnemies : jsstring := Eval cbv in str "maxEnemies".
Definition KEY_enemySpawnChance : jsstring := Eval cbv in str "enemySpawnChance".
Definition KEY_coinSpawnChance : jsstring := Eval cbv in str "coinSpawnChance".

(** The object [params] of [encodeLevel]: the finite parameters, in the
    order of the three assignments. *)
Definition finite_params (payload : LevelPayload) : list (jsstring * number) :=
  let entry (key : jsstring) (v : option jsvalue) :=
    match Number_isFinite v with
    | Some n => [(key, n)]
    | None => []
    end in
  entry KEY_maxEnemies (maxEnemies payload)
    ++ entry KEY_enemySpawnChance (enemySpawnChance payload)
    ++ entry KEY_coinSpawnChance (coinSpawnChance payload).

(** The two nested [for ... of] loops of [encodeLevel]. *)
Definition tile_string (grid : list (list number)) : jsstring :=
  flat_map (fun row => map (fun tile => tileChars tile ?? ch ".") row) grid.

(** [`${width}x${height}:${tileString}`]. *)
Definition core_payload (grid : list (list number)) : jsstring :=
  let height := length grid in
  let width := option_map (@length number) (nth_error grid 0) ?? 0 in
  decimal width ++ [LOWER_X] ++ decimal height ++ [COLON]
    ++ runLengthEncode (tile_string grid).

(* ------------------------------------------------------------------ *)
(** ** The codec of [server.ts] (171-241) *)

Section Server.
Variable rt : Platform.

Definition base64urlEncode (input : jsstring) : jsstring :=
  to_urlsafe (base64_encode (utf8_encode input)).

Definition base64urlDecode (input : jsstring) : jsstring :=
  Buffer_toString_utf8 rt (Buffer_from_base64 rt (from_urlsafe input)).

(** The string [encoded] at the end of [encodeLevel], before the last
    [base64urlEncode]. *)
Definition encodePayload (payload : LevelPayload) : jsstring :=
  let grid := tiles payload ?? [] in
  let encoded := core_payload grid in
  let params := finite_params payload in
  if 0 <? length params
  then encoded ++ [BAR] ++ base64urlEncode (JSON_stringify rt params)
  else encoded.

Definition encodeLevel (payload : LevelPayload) : jsstring :=
  base64urlEncode (encodePayload payload).

(** The [if (decoded.includes("|"))] block: [mainData] and [params]. A
    failure inside [try] leaves [params = {}]. *)
Definition split_params (decoded : jsstring) : jsstring * jsvalue :=
  if includes BAR decoded then
    let parts := split BAR decoded in
    let levelData := hd [] parts in
    let params :=
      match nth_error parts 1 with
      | Some paramsData =>
          match JSON_parse rt (base64urlDecode paramsData) with
          | Returns v => v
          | _ => JObject []
          end
      | None => JObject []
      end in
    (levelData, params)
  else (decoded, JObject []).

(** [Number(s)] for a destructured element, [undefined] when the array
    is too short. *)
Definition Number_of (s : option jsstring) : number :=
  match s with
  | Some text => StringToNumber rt text
  | None => NaN
  end.

Definition decodeLevel (encodedLevel : jsstring) : outcome LevelPayload :=
  let decoded := base64urlDecode encodedLevel in
  let (mainData, params) := split_params decoded in
  let dimensions := hd [] (split COLON mainData) in
  let tileData := nth_error (split COLON mainData) 1 in
  let widthStr := nth_error (split LOWER_X dimensions) 0 in
  let heightStr := nth_error (split LOWER_X dimensions) 1 in
  let width := Number_of widthStr in
  let height := Number_of heightStr in
  tileString <- runLengthDecode rt tileData ;;
  tiles <- decode_tiles width height tileString ;;
  maxEnemies <- get_prop params KEY_maxEnemies ;;
  enemySpawnChance <- get_prop params KEY_enemySpawnChance ;;
  coinSpawnChance <- get_prop params KEY_coinSpawnChance ;;
  Returns (mkLevel (Some tiles) (Some width) (Some height)
             maxEnemies enemySpawnChance coinSpawnChance None).
End Server.

(* ------------------------------------------------------------------ *)
(** ** The class [LevelEncoder] of [src/mcp-app.ts] (157-303) *)

Module LevelEncoder.
Section Methods.
Variable rt : Platform.

Definition tileChars := tileChars.
Definition charTiles := charTiles.

Definition runLengthEncode (input : jsstring) : jsstring :=
  match input with
  | [] => input
  | first :: rest =>
      let '(result, count, current) := fold_left rle_step rest ([], 1, first) in
      result ++ rle_flush current count
  end.

Definition runLengthDecode (input : option jsstring) : outcome jsstring :=
  match input with
  | None => Throws TypeError
  | Some s => rld_loop rt (length s) s []
  end.

Definition base64urlEncode (input : jsstring) : outcome jsstring :=
  encoded <- btoa input ;;
  Returns (to_urlsafe encoded).

Definition base64urlDecode (input : jsstring) : outcome jsstring :=
  atob rt (from_urlsafe input).

Definition encode (level : LevelPayload) : outcome jsstring :=
  match tiles level with
  | None => Throws TypeError   (* [tiles.length] of [undefined] *)
  | Some grid =>
      let height := length grid in
      let width := option_map (@length number) (nth_error grid 0) ?? 0 in
      let tileString :=
        flat_map (fun row => map (fun tile => tileChars tile ?? ch ".") row) grid in
      let tileString := runLengthEncode tileString in
      let encoded :=
        decimal width ++ [LOWER_X] ++ decimal height ++ [COLON] ++ tileString in
      let params := finite_params level in
      encoded <-
        (if 0 <? length params
         then block <- base64urlEncode (JSON_stringify rt params) ;;
              Returns (encoded ++ [BAR] ++ block)
         else Returns encoded) ;;
      base64urlEncode encoded
  end.

Definition split_params (decoded : jsstring) : jsstring * jsvalue :=
  if includes BAR decoded then
    let parts := split BAR decoded in
    let levelData := hd [] parts in
    let params :=
      match nth_error parts 1 with
      | Some paramsData =>
          match (text <- base64urlDecode paramsData ;; JSON_parse rt text) with
          | Returns v => v
          | _ => JObject []
          end
      | None => JObject []
      end in
    (levelData, params)
  else (decoded, JObject []).

(** [!s] for a string that may be [undefined]. *)
Definition falsy (s : option jsstring) : bool :=
  match s with
  | None | Some [] => true
  | Some _ => false
  end.

Definition decode (encodedLevel : jsstring) : outcome LevelPayload :=
  decoded <- base64urlDecode encodedLevel ;;
  let (mainData, params) := split_params decoded in
  let dimensions := nth_error (split COLON mainData) 0 in
  let tileData := nth_error (split COLON mainData) 1 in
  if falsy dimensions || falsy tileData
  then Throws (Error "Invalid encoded level")
  else
    let widthStr := nth_error (split LOWER_X (dimensions ?? [])) 0 in
    let heightStr := nth_error (split LOWER_X (dimensions ?? [])) 1 in
    let width := Number_of rt widthStr in
    let height := Number_of rt heightStr in
    tileString <- runLengthDecode tileData ;;
    tiles <- decode_tiles width height tileString ;;
    maxEnemies <- get_prop params KEY_maxEnemies ;;
    enemySpawnChance <- get_prop params KEY_enemySpawnChance ;;
    coinSpawnChance <- get_prop params KEY_coinSpawnChance ;;
    Returns (mkLevel (Some tiles) (Some width) (Some height)
               maxEnemies enemySpawnChance coinSpawnChance (Some encodedLevel)).
End Methods.
End LevelEncoder.

(* ------------------------------------------------------------------ *)
(** ** A reference runtime

    An implementation of [Platform] that is exact on the fragment of the
    language the codec's own tokens live in: unsigned integers written in
    decimal, ASCII text, standard base64, and JSON made of objects, arrays,
    integers, strings without escapes, [true], [false] and [null]. It shows
    that [PlatformLaws] can be met, and it runs the codec on concrete
    tokens of that fragment. Outside the fragment it gives the answer for
    text that is not of the expected kind ([NaN], a [SyntaxError], U+FFFD),
    also where ECMAScript reads more (signed, fractional or hexadecimal
    literals, escapes, multi-byte UTF-8). *)

Module Reference.

(** [Number(s)]: the empty string is 0, an unsigned decimal literal is its
    value (exactly so below 2^53), any other text is read as not a number. *)
Definition StringToNumber (s : jsstring) : number :=
  match s with
  | [] => int 0
  | _ => if forallb is_digit s then int (Z.of_N (decimal_value s)) else NaN
  end.

(** The text of a number: exact for the integers below 10^21. *)
Definition Number_toString (n : number) : jsstring :=
  match n with
  | NaN => str "NaN"
  | PosInf => str "Infinity"
  | NegInf => str "-Infinity"
  | Finite q =>
      let z := Qfloor q in
      if (z <? 0)%Z then MINUS :: decimal (Z.to_nat (- z)) else decimal (Z.to_nat z)
  end.

Definition is_space (c : char) : bool :=
  ((c =? 32) || (c =? 9) || (c =? 10) || (c =? 13))%N.

Fixpoint skip_spaces (s : jsstring) : jsstring :=
  match s with
  | c :: s' => if is_space c then skip_spaces s' else s
  | [] => []
  end.

(** The characters of a string literal up to the closing quote; a
    backslash or a control character ends the fragment. *)
Fixpoint string_body (s : jsstring) : option (jsstring * jsstring) :=
  match s with
  | [] => None
  | c :: s' =>
      if (c =? QUOTE)%N then Some ([], s')
      else if ((c =? 92) || (c <? 32))%N then None
      else match string_body s' with
           | Some (body, rest) => Some (c :: body, rest)
           | None => None
           end
  end.

(** An integer literal: an optional sign, then 0 or digits that do not
    start with 0; nothing of a fraction or an exponent after it. *)
Definition integer_literal (s : jsstring) : option (number * jsstring) :=
  let (negative, s1) :=
    match s with
    | c :: s' => if (c =? MINUS)%N then (true, s') else (false, s)
    | [] => (false, s)
    end in
  let (digits, rest) := take_digits s1 in
  let well_formed :=
    match digits with
    | [] => false
    | [_] => true
    | d :: _ => negb (d =? 48)%N
    end in
  let followed :=
    match rest with
    | c :: _ => ((c =? 46) || (c =? 101) || (c =? 69))%N
    | [] => false
    end in
  if well_formed && negb followed
  then
    let value := Z.of_N (decimal_value digits) in
    Some (int (if negative then (- value)%Z else value), rest)
  else None.

Fixpoint value (fuel : nat) (s : jsstring) : option (jsvalue * jsstring) :=
  match fuel with
  | 0 => None
  | S fuel' =>
      match skip_spaces s with
      | 110 :: 117 :: 108 :: 108 :: rest => Some (JNull, rest)
      | 116 :: 114 :: 117 :: 101 :: rest => Some (JBool true, rest)
      | 102 :: 97 :: 108 :: 115 :: 101 :: rest => Some (JBool false, rest)
      | 34 :: rest =>
          match string_body rest with
          | Some (body, rest') => Some (JString body, rest')
          | None => None
          end
      | 91 :: rest =>
          match skip_spaces rest with
          | 93 :: rest' => Some (JArray [], rest')
          | _ =>
              match elements fuel' rest with
              | Some (items, rest') => Some (JArray items, rest')
              | None => None
              end
          end
      | 123 :: rest =>
          match skip_spaces rest with
          | 125 :: rest' => Some (JObject [], rest')
          | _ =>
              match members fuel' rest with
              | Some (props, rest') => Some (JObject props, rest')
              | None => None
              end
          end
      | other =>
          match integer_literal other with
          | Some (n, rest) => Some (JNumber n, rest)
          | None => None
          end
      end%N
  end
with elements (fuel : nat) (s : jsstring) : option (list jsvalue * jsstring) :=
  match fuel with
  | 0 => None
  | S fuel' =>
      match value fuel' s with
      | Some (v, rest) =>
          match skip_spaces rest with
          | 93 :: rest' => Some ([v], rest')
          | 44 :: rest' =>
              match elements fuel' rest' with
              | Some (vs, rest'') => Some (v :: vs, rest'')
              | None => None
              end
          | _ => None
          end%N
      | None => None
      end
  end
with members (fuel : nat) (s : jsstring)
  : option (list (jsstring * jsvalue) * jsstring) :=
  match fuel with
  | 0 => None
  | S fuel' =>
      match skip_spaces s with
      | 34 :: rest =>
          match string_body rest with
          | Some (key, rest1) =>
              match skip_spaces rest1 with
              | 58 :: rest2 =>
                  match value fuel' rest2 with
                  | Some (v, rest3) =>
                      match skip_spaces rest3 with
                      | 125 :: rest4 => Some ([(key, v)], rest4)
                      | 44 :: rest4 =>
                          match members fuel' rest4 with
                          | Some (props, rest5) =>
                              (* a later member with the same key gives the value *)
                              Some ((key, lookup key props ?? v) ::
                                      filter (fun kv => negb (jsstring_eqb (fst kv) key)) props
                                    , rest5)
                          | None => None
                          end
                      | _ => None
                      end
                  | None => None
                  end
              | _ => None
              end
          | None => None
          end
      | _ => None
      end%N
  end.

Definition JSON_parse (s : jsstring) : outcome jsvalue :=
  match value (S (length s)) s with
  | Some (v, rest) =>
      match skip_spaces rest with
      | [] => Returns v
      | _ => Throws SyntaxError
      end
  | None => Throws SyntaxError
  end.

(** The value of a base64 character; [Buffer] reads both alphabets. *)
Definition base64_value (urlsafe : bool) (c : char) : option N :=
  (if (65 <=? c) && (c <=? 90) then Some (c - 65)
   else if (97 <=? c) && (c <=? 122) then Some (c - 71)
   else if (48 <=? c) && (c <=? 57) then Some (c + 4)
   else if c =? PLUS then Some 62
   else if c =? SLASH then Some 63
   else if urlsafe && (c =? MINUS) then Some 62
   else if urlsafe && (c =? UNDERSCORE) then Some 63
   else None)%N.

(** Whole groups of four sextets give three bytes; a last group of three
    or two gives two bytes or one. *)
Fixpoint bytes_of_sextets (l : list N) : list byte :=
  match l with
  | a :: b :: c :: d :: rest =>
      [a * 4 + b / 16; (b mod 16) * 16 + c / 4; (c mod 4) * 64 + d]%N
        ++ bytes_of_sextets rest
  | [a; b; c] => [a * 4 + b / 16; (b mod 16) * 16 + c / 4]%N
  | [a; b] => [a * 4 + b / 16]%N
  | _ => []
  end.

(** The lenient reader of [Buffer]: it stops at the padding and skips
    what is not a base64 character. *)
Fixpoint lenient_sextets (s : jsstring) : list N :=
  match s with
  | [] => []
  | c :: s' =>
      if (c =? EQUALS)%N then []
      else match base64_value true c with
           | Some v => v :: lenient_sextets s'
           | None => lenient_sextets s'
           end
  end.

Definition Buffer_from_base64 (s : jsstring) : list byte :=
  bytes_of_sextets (lenient_sextets s).

(** ASCII bytes are their characters; a byte outside ASCII is read as
    U+FFFD (multi-byte sequences are outside the fragment). *)
Definition Buffer_toString_utf8 (bs : list byte) : jsstring :=
  map (fun b => if (b <? 128)%N then b else 0xFFFD%N) bs.

Definition is_ascii_whitespace (c : char) : bool :=
  ((c =? 9) || (c =? 10) || (c =? 12) || (c =? 13) || (c =? 32))%N.

Fixpoint strict_sextets (s : jsstring) : option (list N) :=
  match s with
  | [] => Some []
  | c :: s' =>
      match base64_value false c, strict_sextets s' with
      | Some v, Some vs => Some (v :: vs)
      | _, _ => None
      end
  end.

(** [s] without its last character when that is [=]. *)
Definition drop_last_equals (s : jsstring) : jsstring :=
  match rev s with
  | c :: r => if (c =? EQUALS)%N then rev r else s
  | [] => s
  end.

(** The forgiving-base64 decoding of [atob]: white space is removed, one
    or two padding characters are dropped from a text whose length is a
    multiple of 4, and then a length of 1 modulo 4 or a character outside
    the alphabet is an error. *)
Definition atob (s : jsstring) : outcome jsstring :=
  let data := filter (fun c => negb (is_ascii_whitespace c)) s in
  let data :=
    if length data mod 4 =? 0
    then drop_last_equals (drop_last_equals data)
    else data in
  if length data mod 4 =? 1 then Throws InvalidCharacterError
  else match strict_sextets data with
       | Some sextets => Returns (bytes_of_sextets sextets)
       | None => Throws InvalidCharacterError
       end.

Definition platform : Platform :=
  Build_Platform StringToNumber Number_toString JSON_parse
    Buffer_from_base64 Buffer_toString_utf8 atob.
End Reference.

(* ------------------------------------------------------------------ *)
(** ** What the proofs take from the runtime *)

Definition is_ascii (s : list N) : Prop := Forall (fun c => (c < 128)%N) s.
Definition is_bytes (s : list N) : Prop := Forall (fun c => (c < 256)%N) s.

Record PlatformLaws (rt : Platform) : Prop := {
  (** [Number] reads a decimal literal below 2^53 exactly. *)
  Number_of_decimal :
    forall ds, ds <> [] -> forallb is_digit ds = true ->
      (decimal_value ds < 9007199254740992)%N ->
      StringToNumber rt ds = int (Z.of_N (decimal_value ds));
  (** The text of a number is ASCII. *)
  Number_toString_ascii : forall n, is_ascii (Number_toString rt n);
  (** [Buffer] and [atob] invert the base64 encoder. *)
  Buffer_from_base64_encode :
    forall bs, is_bytes bs -> Buffer_from_base64 rt (base64_encode bs) = bs;
  atob_encode :
    forall bs, is_bytes bs -> atob rt (base64_encode bs) = Returns bs;
  (** ASCII bytes are decoded to themselves. *)
  Buffer_toString_ascii :
    forall bs, is_ascii bs -> Buffer_toString_utf8 rt bs = bs;
}.

(* ------------------------------------------------------------------ *)
(** ** The run-length format in the words of the specification *)

(** A text cut into maximal runs of the empty character and single
    characters of any other kind. *)
Inductive block : Type :=
| Dots (n : nat)
| Lit (c : char).

Definition expand (b : block) : jsstring :=
  match b with
  | Dots n => repeat DOT n
  | Lit c => [c]
  end.

(** A run longer than 2 becomes [.] and its length; a shorter run and any
    other character stay as they are. *)
Definition image (b : block) : jsstring :=
  match b with
  | Dots n => if 2 <? n then DOT :: decimal n else repeat DOT n
  | Lit c => [c]
  end.

(** Runs are not empty, are runs of [.] only, and are maximal: no two runs
    are neighbours. *)
Fixpoint maximal_runs (bs : list block) : Prop :=
  match bs with
  | [] => True
  | Lit c :: bs' => c <> DOT /\ maximal_runs bs'
  | Dots n :: bs' =>
      0 < n /\ match bs' with Dots _ :: _ => False | _ => True end /\ maximal_runs bs'
  end.

(** The cut of a text, with [pending] counting the run being read. *)
Fixpoint blocks_from (pending : nat) (s : jsstring) : list block :=
  let run := match pending with 0 => [] | _ => [Dots pending] end in
  match s with
  | [] => run
  | c :: s' =>
      if (c =? DOT)%N then blocks_from (S pending) s'
      else run ++ Lit c :: blocks_from 0 s'
  end.

Definition blocks_of (s : jsstring) : list block := blocks_from 0 s.

(** What a block must satisfy to be read back: a single character is
    neither [.] nor a digit, a run is shorter than 2^53. *)
Definition readable (b : block) : Prop :=
  match b with
  | Lit c => c <> DOT /\ is_digit c = false
  | Dots n => (N.of_nat n < 9007199254740992)%N
  end.

(** The characters the base64 encoder writes before the padding. *)
Definition is_base64_char (c : char) : bool :=
  (((65 <=? c) && (c <=? 90)) || ((97 <=? c) && (c <=? 122))
   || ((48 <=? c) && (c <=? 57)) || (c =? 43) || (c =? 47))%N.

(** The characters of a token: the URL-safe alphabet. *)
Definition is_token_char (c : char) : bool :=
  (((65 <=? c) && (c <=? 90)) || ((97 <=? c) && (c <=? 122))
   || ((48 <=? c) && (c <=? 57)) || (c =? 45) || (c =? 95))%N.

(** The two replacements of [base64urlEncode] on one character, and the
    two of [base64urlDecode]. *)
Definition url_char (c : char) : char :=
  let c1 := if (c =? PLUS)%N then MINUS else c in
  if (c1 =? SLASH)%N then UNDERSCORE else c1.

Definition unurl_char (c : char) : char :=
  let c1 := if (c =? MINUS)%N then PLUS else c in
  if (c1 =? UNDERSCORE)%N then SLASH else c1.

(** The characters of a flattened grid. *)
Definition is_tile_char (c : char) : bool :=
  match charTiles c with
  | Some _ => true
  | None => false
  end.

(** The characters of the core payload after the dimensions. *)
Definition is_body_char (c : char) : bool := is_digit c || is_tile_char c.

(** What a tile identifier becomes when it is written and read back. *)
Definition normalise (tile : number) : number :=
  charTiles (tileChars tile ?? ch ".") ?? int 0.

(** The tile the decoder reads at position [i] of the expanded text. *)
Definition cell (tileString : jsstring) (i : nat) : number :=
  charTiles (nth_error tileString i ?? DOT) ?? int 0.

(** [tiles[0]?.length ?? 0]. *)
Definition first_width (grid : list (list number)) : nat :=
  option_map (@length number) (nth_error grid 0) ?? 0.

(** A length that a number holds exactly: below 2^53. *)
Definition fits (n : nat) : Prop := (N.of_nat n < 9007199254740992)%N.

(** A length that an array can have: at most 2^32 - 1. *)
Definition array_fits (n : nat) : Prop := (N.of_nat n <= 4294967295)%N.

(** Sizes that every engine holds. The loops of the decoders are bounded by
    the numbers written in the token and by nothing else, and an engine
    gives up before the limits of the language are reached: it refuses to
    grow an array or a string well below 2^32 - 1 elements, or it runs out
    of memory. Where a theorem says that a decoder returns, it says so for
    at most a million rows, a million cells and a million characters of
    expanded tile data. *)
Definition MODEST : nat := 1000 * 1000.

Definition modest_grid (w h : nat) : Prop := h <= MODEST /\ w * h <= MODEST.

(** [`${width}x${height}`]. *)
Definition dimensions_text (grid : list (list number)) : jsstring :=
  decimal (first_width grid) ++ [LOWER_X] ++ decimal (length grid).

(** What [JSON.parse] makes of the parameter block that [encodeLevel] wrote
    for a level; [{}] when there is no block or it is refused. *)
Definition parsed_params (rt : Platform) (level : LevelPayload) : jsvalue :=
  let params := finite_params level in
  if 0 <? length params then
    match JSON_parse rt (JSON_stringify rt params) with
    | Returns v => v
    | _ => JObject []
    end
  else JObject [].

(** The rows the decoder cuts out of the flattened grid it is given. *)
Definition reread (grid : list (list number)) : list (list number) :=
  rows_loop (length grid) (first_width grid) (tile_string grid) 0 [].

(** The result of decoding the token of a level with grid [grid]: the
    rows, the dimensions, and the three properties of the parsed parameter
    block. *)
Definition read_back (rt : Platform) (level : LevelPayload)
    (grid : list (list number)) (token : option jsstring) : outcome LevelPayload :=
  let params := parsed_params rt level in
  maxEnemies <- get_prop params KEY_maxEnemies ;;
  enemySpawnChance <- get_prop params KEY_enemySpawnChance ;;
  coinSpawnChance <- get_prop params KEY_coinSpawnChance ;;
  Returns (mkLevel (Some (reread grid))
             (Some (num_of_nat (first_width grid)))
             (Some (num_of_nat (length grid)))
             maxEnemies enemySpawnChance coinSpawnChance token).

(** What the editor adds to a decoded level: the token itself. *)
Definition with_token (token : jsstring) (o : outcome LevelPayload) : outcome LevelPayload :=
  match o with
  | Returns p =>
      Returns (mkLevel (tiles p) (width p) (height p) (maxEnemies p)
                 (enemySpawnChance p) (coinSpawnChance p) (Some token))
  | other => other
  end.

(** A tile identifier of the alphabet: an integer from 0 to 7. *)
Definition is_tile_id (tile : number) : Prop :=
  exists k, (0 <= k <= 7)%Z /\ tile = int k.

(** A gameplay parameter of a level: absent, or a finite number. *)
Definition finite_or_absent (v : option jsvalue) : Prop :=
  v = None \/ exists q, v = Some (JNumber (Finite q)).

(** The parameter that survives encoding: a finite number and nothing else. *)
Definition kept (v : option jsvalue) : option jsvalue :=
  option_map JNumber (Number_isFinite v).

(** The object [params] of [encodeLevel] as a value. *)
Definition params_object (params : list (jsstring * number)) : jsvalue :=
  JObject (map (fun kv => (fst kv, JNumber (snd kv))) params).

(** [JSON.parse] reads back the parameter object that [JSON.stringify]
    wrote (nothing is asked when there is no parameter: no block is
    written). *)
Definition json_round_trip (rt : Platform) (params : list (jsstring * number)) : Prop :=
  params = [] \/
  JSON_parse rt (JSON_stringify rt params) = Returns (params_object params).

(** The grid of the end-to-end example: Grass, Empty, Empty over Empty,
    Empty, Rock. *)
Definition example_grid : list (list number) :=
  [[int 1; int 0; int 0]; [int 0; int 0; int 2]].

Definition example_level : LevelPayload :=
  mkLevel (Some example_grid) None None None None None None.

(** The same grid with two of the three parameters. *)
Definition example_level_with_params : LevelPayload :=
  mkLevel (Some example_grid) None None
    (Some (JNumber (int 5))) None (Some (JNumber (int 12))) None.

(** One of the three parameters of a level is a finite number. *)
Definition has_finite_param (level : LevelPayload) : Prop :=
  (exists q, maxEnemies level = Some (JNumber (Finite q)))
  \/ (exists q, enemySpawnChance level = Some (JNumber (Finite q)))
  \/ (exists q, coinSpawnChance level = Some (JNumber (Finite q))).

(** The views of a decoded payload that [decodeLevel] computes on its way:
    the text before the first [|], the two parts around the first [:], and
    the two numbers around the first [x]. *)
Definition main_data (decoded : jsstring) : jsstring :=
  if includes BAR decoded then hd [] (split BAR decoded) else decoded.

Definition dimensions_of (mainData : jsstring) : jsstring :=
  hd [] (split COLON mainData).

Definition tile_data_of (mainData : jsstring) : option jsstring :=
  nth_error (split COLON mainData) 1.

Definition width_of (rt : Platform) (mainData : jsstring) : number :=
  Number_of rt (nth_error (split LOWER_X (dimensions_of mainData)) 0).

Definition height_of (rt : Platform) (mainData : jsstring) : number :=
  Number_of rt (nth_error (split LOWER_X (dimensions_of mainData)) 1).

(** A number that is the nonnegative integer [k]. *)
Definition is_nat_number (n : number) (k : nat) : Prop :=
  exists q, n = Finite q /\ Qeq q (inject_Z (Z.of_nat k)).


(** The sextets the base64 encoder writes for a list of bytes. *)
Fixpoint sextets_of (bs : list byte) : list N :=
  match bs with
  | [] => []
  | [b1] => [b1 / 4; (b1 mod 4) * 16]%N
  | [b1; b2] => [b1 / 4; (b1 mod 4) * 16 + b2 / 16; (b2 mod 16) * 4]%N
  | b1 :: b2 :: b3 :: rest =>
      [b1 / 4; (b1 mod 4) * 16 + b2 / 16; (b2 mod 16) * 4 + b3 / 64; b3 mod 64]%N
        ++ sextets_of rest
  end.

(* ------------------------------------------------------------------ *)
(** ** Numbers as the tool handlers use them *)

(** [a < b]: false when one of the two is NaN. *)
Definition number_ltb (a b : number) : bool :=
  match a, b with
  | NaN, _ | _, NaN => false
  | PosInf, _ => false
  | _, NegInf => false
  | NegInf, _ => true
  | _, PosInf => true
  | Finite p, Finite q => negb (Qle_bool q p)
  end.

(** [a <= b], which is also [b >= a]: false when one of the two is NaN. *)
Definition number_leb (a b : number) : bool :=
  match a, b with
  | NaN, _ | _, NaN => false
  | NegInf, _ => true
  | _, PosInf => true
  | PosInf, _ => false
  | _, NegInf => false
  | Finite p, Finite q => Qle_bool p q
  end.

(** [a === b] on numbers. *)
Definition number_eqb (a b : number) : bool :=
  match a, b with
  | Finite p, Finite q => Qeq_bool p q
  | PosInf, PosInf => true
  | NegInf, NegInf => true
  | _, _ => false
  end.

(** The integer that a number is, when it is one. *)
Definition integer_value (n : number) : option Z :=
  match n with
  | Finite q => if Qeq_bool q (inject_Z (Qfloor q)) then Some (Qfloor q) else None
  | _ => None
  end.

(** The element that [a[n]] names: a number is the index of an element
    when it is an integer from 0 to the length less one; the key of any
    other number is a property that an array of numbers or of rows does not
    have. *)
Definition element_index {A : Type} (a : list A) (n : number) : option nat :=
  match integer_value n with
  | Some z =>
      if ((0 <=? z) && (z <? Z.of_nat (length a)))%Z then Some (Z.to_nat z) else None
  | None => None
  end.

Fixpoint replace_at {A : Type} (i : nat) (a : list A) (v : A) : list A :=
  match a, i with
  | [], _ => []
  | _ :: a', 0 => v :: a'
  | x :: a', S i' => x :: replace_at i' a' v
  end.

(** [a[n] = v] on the elements of [a]. An index inside the array replaces
    an element and the index [a.length] appends one. A later index below
    2^32 - 1 would leave holes in the array, which the lists of this
    development do not have: the answer is [None] there. Any other number
    names a property that is not an element, and the elements stay. *)
Definition array_set {A : Type} (a : list A) (n : number) (v : A) : option (list A) :=
  match integer_value n with
  | Some z =>
      if (z <? 0)%Z then Some a
      else if (z <? Z.of_nat (length a))%Z then Some (replace_at (Z.to_nat z) a v)
      else if (z =? Z.of_nat (length a))%Z then Some (a ++ [v])
      else if (z <? MAX_ARRAY_LENGTH)%Z then None
      else Some a
  | None => Some a
  end.

(** [`${n}`] for an integer [n]. *)
Definition decimal_Z (z : Z) : jsstring :=
  if (z <? 0)%Z then MINUS :: decimal (Z.to_nat (- z)) else decimal (Z.to_nat z).

Definition NEWLINE : char := 10%N.

(* ------------------------------------------------------------------ *)
(** ** The tool handlers of [server.ts] (243-255, 289-513) *)

(** [LevelPayload] with the three fields that the codec leaves aside. *)
Record ToolPayload : Type := mkPayload {
  codec : LevelPayload;
  name : option jsstring;
  description : option jsstring;
  encoded_level : option jsstring;
}.

(** The result of a tool: one text, and the structured content when there
    is one. [Caught prefix e] is the result that a [catch] block builds: its
    text is [prefix] followed by the message of the error [e], in the words
    of the engine, and it has no structured content. *)
Inductive CallToolResult : Type :=
| Content (text : jsstring) (structuredContent : option ToolPayload)
| Caught (prefix : jsstring) (e : exn).

(** [!s] for a string that may be [undefined]. *)
Definition falsy_string (s : option jsstring) : bool :=
  match s with
  | None | Some [] => true
  | Some _ => false
  end.

Definition set_encodedLevel (token : option jsstring) (p : LevelPayload) : LevelPayload :=
  mkLevel (tiles p) (width p) (height p)
    (maxEnemies p) (enemySpawnChance p) (coinSpawnChance p) token.

Definition set_tiles (grid : list (list number)) (p : LevelPayload) : LevelPayload :=
  mkLevel (Some grid) (width p) (height p)
    (maxEnemies p) (enemySpawnChance p) (coinSpawnChance p) (encodedLevel p).

(** [{ ...payload, ...decoded }] for a result of [decodeLevel], which has
    the six properties of the grid and the parameters, and no other. *)
Definition spread_decoded (payload : ToolPayload) (decoded : LevelPayload) : ToolPayload :=
  mkPayload
    (mkLevel (tiles decoded) (width decoded) (height decoded)
       (maxEnemies decoded) (enemySpawnChance decoded) (coinSpawnChance decoded)
       (encodedLevel (codec payload)))
    (name payload) (description payload) (encoded_level payload).

(** [{ ...payload, encoded_level: payload.encodedLevel }]. *)
Definition structured (payload : ToolPayload) : ToolPayload :=
  mkPayload (codec payload) (name payload) (description payload)
    (encodedLevel (codec payload)).

(** [{ encodedLevel: encoded }]. *)
Definition token_payload (encoded : jsstring) : ToolPayload :=
  mkPayload (mkLevel None None None None None None (Some encoded)) None None None.

(** [try { body } catch (error) { return ... }]. *)
Definition try_catch {A : Type} (handler : exn -> A) (body : outcome A) : outcome A :=
  match body with
  | Throws e => Returns (handler e)
  | other => other
  end.

(** [tiles.map((r, idx) => (idx === row ? [...newRow] : [...r]))]. *)
Definition replace_row (grid : list (list number)) (row : number)
    (newRow : list number) : list (list number) :=
  map (fun ir => if number_eqb (num_of_nat (fst ir)) row then newRow else snd ir)
    (combine (seq 0 (length grid)) grid).

Section Tools.
Variable rt : Platform.

(** [`${n}`] for a number. *)
Definition String_of_number (n : number) : jsstring :=
  match n with
  | NaN => str "NaN"
  | PosInf => str "Infinity"
  | NegInf => str "-Infinity"
  | Finite _ => Number_toString rt n
  end.

(** [`${v}`] for a number or a string that may be [undefined]. *)
Definition template_number (v : option number) : jsstring :=
  match v with
  | Some n => String_of_number n
  | None => str "undefined"
  end.

Definition template_string (v : option jsstring) : jsstring := v ?? str "undefined".

Definition normalizePayload (payload : ToolPayload) : outcome ToolPayload :=
  let normalized := payload in
  let normalized :=
    if falsy_string (encodedLevel (codec normalized))
       && negb (falsy_string (encoded_level normalized))
    then mkPayload (set_encodedLevel (encoded_level normalized) (codec normalized))
           (name normalized) (description normalized) (encoded_level normalized)
    else normalized in
  normalized <-
    match tiles (codec normalized), encodedLevel (codec normalized) with
    | None, Some token =>
        decoded <- decodeLevel rt token ;;
        Returns (spread_decoded normalized decoded)
    | _, _ => Returns normalized
    end ;;
  match tiles (codec normalized) with
  | Some _ =>
      if falsy_string (encodedLevel (codec normalized))
      then Returns
             (mkPayload
                (set_encodedLevel (Some (encodeLevel rt (codec normalized)))
                   (codec normalized))
                (name normalized) (description normalized) (encoded_level normalized))
      else Returns normalized
  | None => Returns normalized
  end.

(** The tool [decode_level_from_url]. *)
Definition decode_level_from_url (encoded : jsstring) : outcome CallToolResult :=
  if falsy_string (Some encoded)
  then Returns (Content (str "Error: encoded_level is required.") None)
  else
    try_catch (Caught (str "Error decoding level: "))
      (levelData <- normalizePayload (token_payload encoded) ;;
       Returns
         (Content
            (str "Decoded level: " ++ template_number (width (codec levelData))
               ++ str "x" ++ template_number (height (codec levelData))
               ++ [NEWLINE] ++ str "Encoded: "
               ++ template_string (encodedLevel (codec levelData)))
            (Some (structured levelData)))).

(** [tiles[row][col] = newTile]: a [TypeError] when [tiles[row]] is
    [undefined]; [None] when the row would get holes. *)
Definition assign_tile (grid : list (list number)) (row col newTile : number)
  : outcome (option (list (list number))) :=
  match element_index grid row with
  | None => Throws TypeError
  | Some r =>
      match array_set (nth r grid []) col newTile with
      | Some cells => Returns (Some (replace_at r grid cells))
      | None => Returns None
      end
  end.

(** [`Error: Invalid row ${row}. Level has ${n} rows (0-${n - 1}).`] and
    the same for a column. *)
Definition out_of_range (what : string) (plural : string) (value : number) (n : nat)
  : jsstring :=
  str "Error: Invalid " ++ str what ++ str " " ++ String_of_number value
    ++ str ". Level has " ++ decimal n ++ str " " ++ str plural ++ str " (0-"
    ++ decimal_Z (Z.of_nat n - 1) ++ str ").".

(** [tiles[0].length], past the check that [tiles] is not empty. *)
Definition first_row_length (grid : list (list number)) : outcome nat :=
  match nth_error grid 0 with
  | Some cells => Returns (length cells)
  | None => Throws TypeError
  end.

(** The tool [edit_level_tile]. The answer is [None] where the assignment
    would leave holes in a row. *)
Definition edit_level_tile (encoded : jsstring) (row col newTile : number)
  : outcome (option CallToolResult) :=
  if falsy_string (Some encoded)
  then Returns (Some (Content (str "Error: encoded_level is required.") None))
  else
    try_catch (fun e => Some (Caught (str "Error processing level: ") e))
      (levelData <- normalizePayload (token_payload encoded) ;;
       let grid := tiles (codec levelData) ?? [] in
       if length grid =? 0
       then Returns (Some (Content (str "Error: Invalid tiles array after decoding.") None))
       else if number_ltb row (int 0) || number_leb (num_of_nat (length grid)) row
       then Returns (Some (Content (out_of_range "row" "rows" row (length grid)) None))
       else
         columns <- first_row_length grid ;;
         if number_ltb col (int 0) || number_leb (num_of_nat columns) col
         then Returns (Some (Content (out_of_range "column" "columns" col columns) None))
         else if number_ltb newTile (int 0) || number_ltb (int 7) newTile
         then Returns
                (Some (Content
                         (str "Error: Invalid tile type " ++ String_of_number newTile
                            ++ str ". Valid types are 0-7.") None))
         else
           assigned <- assign_tile grid row col newTile ;;
           match assigned with
           | None => Returns None
           | Some grid' =>
               updated <-
                 normalizePayload
                   (mkPayload (set_tiles grid' (codec levelData)) (name levelData)
                      (description levelData) (encoded_level levelData)) ;;
               Returns
                 (Some (Content
                          (str "Tile updated at row " ++ String_of_number row
                             ++ str ", col " ++ String_of_number col
                             ++ str " to type " ++ String_of_number newTile
                             ++ str "." ++ [NEWLINE] ++ str "Encoded: "
                             ++ template_string (encodedLevel (codec updated)))
                          (Some (structured updated))))
           end).

(** The tool [edit_level_row]; [new_row_tiles] is an array of numbers. *)
Definition edit_level_row (encoded : jsstring) (row : number)
    (new_row_tiles : list number) : outcome CallToolResult :=
  if falsy_string (Some encoded)
  then Returns (Content (str "Error: encoded_level is required.") None)
  else
    try_catch (Caught (str "Error processing level: "))
      (levelData <- normalizePayload (token_payload encoded) ;;
       let grid := tiles (codec levelData) ?? [] in
       if length grid =? 0
       then Returns (Content (str "Error: Invalid tiles array after decoding.") None)
       else if number_ltb row (int 0) || number_leb (num_of_nat (length grid)) row
       then Returns (Content (out_of_range "row" "rows" row (length grid)) None)
       else
         columns <- first_row_length grid ;;
         if negb (length new_row_tiles =? columns)
         then Returns
                (Content
                   (str "Error: Row length mismatch. Expected " ++ decimal columns
                      ++ str " tiles, got " ++ decimal (length new_row_tiles)
                      ++ str ".") None)
         else
           let updatedTiles := replace_row grid row new_row_tiles in
           updated <-
             normalizePayload
               (mkPayload (set_tiles updatedTiles (codec levelData)) (name levelData)
                  (description levelData) (encoded_level levelData)) ;;
           Returns
             (Content
                (str "Row " ++ String_of_number row ++ str " updated." ++ [NEWLINE]
                   ++ str "Encoded: " ++ template_string (encodedLevel (codec updated)))
                (Some (structured updated)))).

(** The tool [edit_entire_level]. *)
Definition edit_entire_level (new_tiles : list (list number))
    (new_name new_description : option jsstring)
    (max_enemies enemy_spawn_chance coin_spawn_chance : option number)
  : outcome CallToolResult :=
  let updated :=
    mkPayload
      (mkLevel (Some new_tiles)
         (Some (num_of_nat (option_map (@length number) (nth_error new_tiles 0) ?? 0)))
         (Some (num_of_nat (length new_tiles)))
         (option_map JNumber max_enemies) (option_map JNumber enemy_spawn_chance)
         (option_map JNumber coin_spawn_chance) None)
      new_name new_description None in
  normalized <- normalizePayload updated ;;
  Returns
    (Content
       (str "Level updated (" ++ template_number (width (codec normalized))
          ++ str "x" ++ template_number (height (codec normalized)) ++ str ")."
          ++ [NEWLINE] ++ str "Encoded: "
          ++ template_string (encodedLevel (codec normalized)))
       (Some (structured normalized))).

(** [a ?? b] for an argument that is a number and a property that came out
    of [JSON.parse]. *)
Definition number_or (a : option number) (b : option jsvalue) : option jsvalue :=
  match a with
  | Some n => Some (JNumber n)
  | None => b
  end.

Definition string_or (a b : option jsstring) : option jsstring :=
  match a with
  | Some s => Some s
  | None => b
  end.

(** The tool [edit_level_metadata]. *)
Definition edit_level_metadata (encoded : jsstring)
    (new_name new_description : option jsstring)
    (max_enemies enemy_spawn_chance coin_spawn_chance : option number)
  : outcome CallToolResult :=
  if falsy_string (Some encoded)
  then Returns (Content (str "Error: encoded_level is required.") None)
  else
    try_catch (Caught (str "Error processing level: "))
      (levelData <- normalizePayload (token_payload encoded) ;;
       let updated :=
         mkPayload
           (mkLevel (tiles (codec levelData)) (width (codec levelData))
              (height (codec levelData))
              (number_or max_enemies (maxEnemies (codec levelData)))
              (number_or enemy_spawn_chance (enemySpawnChance (codec levelData)))
              (number_or coin_spawn_chance (coinSpawnChance (codec levelData)))
              (encodedLevel (codec levelData)))
           (string_or new_name (name levelData))
           (string_or new_description (description levelData))
           (encoded_level levelData) in
       normalized <- normalizePayload updated ;;
       Returns
         (Content
            (str "Metadata updated." ++ [NEWLINE] ++ str "Encoded: "
               ++ template_string (encodedLevel (codec normalized)))
            (Some (structured normalized)))).

(** The tool [create_level]; [args_tiles] is [args.tiles], and so on. *)
Definition create_level (args_level_name args_description : jsstring)
    (args_tiles : list (list number)) (args_width args_height : option number)
    (args_maxEnemies args_enemySpawnChance args_coinSpawnChance : option number)
  : outcome CallToolResult :=
  let levelData :=
    mkPayload
      (mkLevel (Some args_tiles) args_width args_height
         (option_map JNumber args_maxEnemies)
         (option_map JNumber args_enemySpawnChance)
         (option_map JNumber args_coinSpawnChance) None)
      (Some args_level_name) (Some args_description) None in
  normalized <- normalizePayload levelData ;;
  Returns
    (Content
       (str "Created level '" ++ (name normalized ?? str "Untitled") ++ str "' ("
          ++ template_number (width (codec normalized)) ++ str "x"
          ++ template_number (height (codec normalized)) ++ str ")."
          ++ [NEWLINE] ++ str "Encoded: "
          ++ template_string (encodedLevel (codec normalized)))
       (Some (structured normalized))).
End Tools.

(* ------------------------------------------------------------------ *)
(** ** The editor of [src/mcp-app.ts] (307-310, 398-462, 1278-1314)

    [LevelData] has the fields of [ToolPayload] except [encoded_level],
    which stays [None] here. *)

(** What the functions of the editor read and write: the variable
    [currentLevel] and the text of the status line. The rest of the page
    (the grid of tiles, the inputs, the preview of the token) is written by
    these functions and never read by them; it is left out. *)
Record Editor : Type := mkEditor {
  currentLevel : ToolPayload;
  statusText : jsstring;
}.

(** A function of the editor: the state it leaves, and how it ended. *)
Definition step : Type := Editor -> Editor * outcome unit.

Definition and_then (first second : step) : step :=
  fun st =>
    match first st with
    | (st', Returns _) => second st'
    | ended => ended
    end.

Infix ">>" := and_then (at level 62, left associativity).



(** The number of elements of [Array.from({ length: n }, f)]: none for NaN
    and for a number below 1, the integer part of [n] otherwise; a length
    above 2^32 - 1 is a [RangeError]. *)
Definition array_like_length (n : number) : outcome nat :=
  match n with
  | NaN | NegInf => Returns 0
  | PosInf => Throws RangeError
  | Finite q =>
      let z := Qtruncate q in
      if (z <=? 0)%Z then Returns 0
      else if (z <=? MAX_ARRAY_LENGTH)%Z then Returns (Z.to_nat z)
      else Throws RangeError
  end.


(** [currentLevel.tiles[y]?.[x] ?? 0]. *)
Definition kept_tile (grid : list (list number)) (y x : nat) : number :=
  match nth_error grid y with
  | Some cells => nth_error cells x ?? int 0
  | None => int 0
  end.

(** The array [newTiles] of [resizeLevel]. The callback of a row runs when
    there is a row, and the callback of a cell, which reads
    [currentLevel.tiles], when there is a cell. *)
Definition resized_tiles (level : ToolPayload) (width height : number)
  : outcome (list (list number)) :=
  rows <- array_like_length height ;;
  match rows with
  | 0 => Returns []
  | S _ =>
      cells <- array_like_length width ;;
      match cells, tiles (codec level) with
      | 0, _ => Returns (repeat [] rows)
      | S _, None => Throws TypeError
      | S _, Some grid =>
          Returns (map (fun y => map (kept_tile grid y) (seq 0 cells)) (seq 0 rows))
      end
  end.



Section EditorFunctions.
Variable rt : Platform.

Definition refreshEncoded : step :=
  fun st =>
    match LevelEncoder.encode rt (codec (currentLevel st)) with
    | Returns encoded =>
        (mkEditor
           (mkPayload (set_encodedLevel (Some encoded) (codec (currentLevel st)))
              (name (currentLevel st)) (description (currentLevel st))
              (encoded_level (currentLevel st)))
           (statusText st),
         Returns tt)
    | Throws e => (st, Throws e)
    | Diverges => (st, Diverges)
    end.

(** [renderGrid] writes the page; it reads [currentLevel.tiles.forEach]. *)
Definition renderGrid : step :=
  fun st =>
    match tiles (codec (currentLevel st)) with
    | Some _ => (st, Returns tt)
    | None => (st, Throws TypeError)
    end.

(** [syncInputsFromLevel] writes the inputs; it reads
    [currentLevel.width.toString()] and [currentLevel.height.toString()],
    and ends with [refreshEncoded]. *)
Definition syncInputsFromLevel : step :=
  (fun st =>
     match width (codec (currentLevel st)), height (codec (currentLevel st)) with
     | Some _, Some _ => (st, Returns tt)
     | _, _ => (st, Throws TypeError)
     end)
  >> refreshEncoded.


Definition resizeLevel (width height : number) : step :=
  fun st =>
    match resized_tiles (currentLevel st) width height with
    | Returns newTiles =>
        let level := currentLevel st in
        (renderGrid >> syncInputsFromLevel)
          (mkEditor
             (mkPayload
                (mkLevel (Some newTiles) (Some width) (Some height)
                   (maxEnemies (codec level)) (enemySpawnChance (codec level))
                   (coinSpawnChance (codec level)) (encodedLevel (codec level)))
                (name level) (description level) (encoded_level level))
             (statusText st))
    | Throws e => (st, Throws e)
    | Diverges => (st, Diverges)
    end.

(** The listener of the resize button, on the texts of the two inputs. *)
Definition resize_click (widthText heightText : jsstring) : step :=
  fun st =>
    let width := StringToNumber rt widthText in
    let height := StringToNumber rt heightText in
    if number_leb (int 10) width && number_leb (int 10) height
    then resizeLevel width height st
    else (st, Returns tt).







End EditorFunctions.

(** The grid that [resizeLevel] builds from [grid] for [w] columns and [h]
    rows. *)
Definition resized (grid : list (list number)) (w h : nat) : list (list number) :=
  map (fun y => map (kept_tile grid y) (seq 0 w)) (seq 0 h).


(* ------------------------------------------------------------------ *)
(** ** The decoders of the two players ([src/mcp-app.ts] 632-645, 866-965)

    The editor hands the level to the game in two ways. In the page itself
    [decodeLevelForUnity] calls [LevelEncoder.decode]. In the frame, the
    script that [updatePlayerFrame] injects has a decoder of its own,
    [decodeFullLevel]. *)

(** The object [result] of both: [tiles] is [null] or a grid. *)
Record UnityLevel : Type := mkUnity {
  unity_tiles : option (list (list number));
  unity_maxEnemies : jsvalue;
  unity_enemySpawnChance : jsvalue;
  unity_coinSpawnChance : jsvalue;
}.

Definition unity_defaults : UnityLevel :=
  mkUnity None (JNumber (int 5)) (JNumber (int 10)) (JNumber (int 15)).

(** [v ?? d] for a property of a decoded level and a default number. *)
Definition value_or_default (v : option jsvalue) (d : Z) : jsvalue :=
  match v with
  | None | Some JNull => JNumber (int d)
  | Some x => x
  end.

(** [if (v !== undefined) result.key = v]. *)
Definition defined_or (v : option jsvalue) (current : jsvalue) : jsvalue :=
  match v with
  | Some x => x
  | None => current
  end.

(** The [switch] of [charToTile]. *)
Definition charToTile (c : char) : number :=
  if (c =? ch ".")%N then int 0
  else if (c =? ch "G")%N then int 1
  else if (c =? ch "R")%N then int 2
  else if (c =? ch "Y")%N then int 3
  else if (c =? ch "I")%N then int 4
  else if (c =? ch "F")%N then int 5
  else if (c =? ch "S")%N then int 6
  else if (c =? ch "W")%N then int 7
  else int 0.

(** What [.] does not match in a regular expression without flags. *)
Definition is_line_terminator (c : char) : bool :=
  ((c =? 10) || (c =? 13) || (c =? 0x2028) || (c =? 0x2029))%N.

(** [mainData.match] on the pattern of [decodeFullLevel]: digits, [x],
    digits, a colon, and any characters that [.] matches up to the end of
    the text; the answer is the three groups. A run of digits is followed
    by a character that is not a digit, so the first two groups are the
    longest runs. *)
Definition match_level (mainData : jsstring) : option (jsstring * jsstring * jsstring) :=
  let (w, rest1) := take_digits mainData in
  match w, rest1 with
  | _ :: _, x :: rest2 =>
      if (x =? LOWER_X)%N then
        let (h, rest3) := take_digits rest2 in
        match h, rest3 with
        | _ :: _, c :: tileData =>
            if (c =? COLON)%N && forallb (fun d => negb (is_line_terminator d)) tileData
            then Some (w, h, tileData)
            else None
        | _, _ => None
        end
      else None
  | _, _ => None
  end.

(** [for (var k = 0; k < count; k++) result += '.']: nothing for NaN and
    for a count that is not positive; a loop that its condition never ends
    for an infinite count. *)
Definition dots_for (count : number) : outcome jsstring :=
  match count with
  | NaN | NegInf => Returns []
  | PosInf => Diverges
  | Finite q =>
      if Qle_bool q 0 then Returns []
      else Returns (repeat DOT (Z.to_nat (Qceiling q)))
  end.

(** [n || 0] on a number. *)
Definition or_zero (n : number) : number :=
  match n with
  | NaN => int 0
  | other => other
  end.

Section Players.
Variable rt : Platform.
(** [parseInt(s)]. *)
Variable parseInt : jsstring -> number.

Definition decodeLevelForUnity (encodedLevel : jsstring) : outcome UnityLevel :=
  match LevelEncoder.decode rt encodedLevel with
  | Returns decoded =>
      Returns (mkUnity (tiles decoded)
                 (value_or_default (maxEnemies decoded) 5)
                 (value_or_default (enemySpawnChance decoded) 10)
                 (value_or_default (coinSpawnChance decoded) 15))
  | Throws _ => Returns unity_defaults
  | Diverges => Diverges
  end.

(** [base64urlDecode] of the frame: the replacements come first, and a
    [while] loop pads the text. *)
Definition frame_base64urlDecode (text : jsstring) : outcome jsstring :=
  let base64 := replace_all UNDERSCORE SLASH (replace_all MINUS PLUS text) in
  atob rt (base64 ++ repeat EQUALS ((4 - length base64 mod 4) mod 4)).

(** [runLengthDecode] of the frame, on the suffix of the input and
    [result], with as many turns as the input has characters. *)
Fixpoint frame_rld_loop (fuel : nat) (input result : jsstring) : outcome jsstring :=
  match input with
  | [] => Returns result
  | c :: rest =>
      match fuel with
      | 0 => Diverges
      | S fuel' =>
          if (c =? DOT)%N && starts_with_digit rest
          then
            let (numStr, rest') := take_digits rest in
            dots <- dots_for (or_zero (parseInt numStr)) ;;
            frame_rld_loop fuel' rest' (result ++ dots)
          else frame_rld_loop fuel' rest (result ++ [c])
      end
  end.

Definition frame_runLengthDecode (input : jsstring) : outcome jsstring :=
  frame_rld_loop (length input) input [].

(** The inner [try] of [decodeFullLevel]: the parameters that the block
    after [|] defines replace the defaults. *)
Definition frame_params (paramsData : option jsstring) : UnityLevel :=
  match paramsData with
  | None => unity_defaults   (* [atob] of [undefined] throws *)
  | Some block =>
      match (paramsJson <- frame_base64urlDecode block ;;
             params <- JSON_parse rt paramsJson ;;
             maxEnemies <- get_prop params KEY_maxEnemies ;;
             enemySpawnChance <- get_prop params KEY_enemySpawnChance ;;
             coinSpawnChance <- get_prop params KEY_coinSpawnChance ;;
             Returns (maxEnemies, enemySpawnChance, coinSpawnChance)) with
      | Returns (maxEnemies, enemySpawnChance, coinSpawnChance) =>
          mkUnity None
            (defined_or maxEnemies (JNumber (int 5)))
            (defined_or enemySpawnChance (JNumber (int 10)))
            (defined_or coinSpawnChance (JNumber (int 15)))
      | _ => unity_defaults
      end
  end.

(** The two [for] loops of [decodeFullLevel] push one tile per turn, as
    those of [decodeLevel] do, through [charToTile]. *)
Fixpoint frame_row_loop (turns : nat) (tileString : jsstring) (idx : nat)
    (row : list number) : list number * nat :=
  match turns with
  | 0 => (row, idx)
  | S turns' =>
      let c := if idx <? length tileString then nth idx tileString DOT else DOT in
      frame_row_loop turns' tileString (S idx) (row ++ [charToTile c])
  end.

Fixpoint frame_rows_loop (turns width : nat) (tileString : jsstring) (idx : nat)
    (tiles : list (list number)) : list (list number) :=
  match turns with
  | 0 => tiles
  | S turns' =>
      let (row, idx') := frame_row_loop width tileString idx [] in
      frame_rows_loop turns' width tileString idx' (tiles ++ [row])
  end.

Definition frame_tiles (width height : number) (tileString : jsstring)
  : outcome (list (list number)) :=
  match loop_count height, loop_count width with
  | Some 0, _ => Returns []
  | _, None => Throws RangeError
  | None, Some _ => Throws RangeError
  | Some turns, Some w => Returns (frame_rows_loop turns w tileString 0 [])
  end.

Definition decodeFullLevel (encodedLevel : jsstring) : outcome UnityLevel :=
  match frame_base64urlDecode encodedLevel with
  | Throws _ => Returns unity_defaults
  | Diverges => Diverges
  | Returns decoded =>
      let mainData :=
        if includes BAR decoded then hd [] (split BAR decoded) else decoded in
      let result :=
        if includes BAR decoded
        then frame_params (nth_error (split BAR decoded) 1)
        else unity_defaults in
      match match_level mainData with
      | None => Returns result
      | Some (widthText, heightText, tileData) =>
          match (tileString <- frame_runLengthDecode tileData ;;
                 frame_tiles (parseInt widthText) (parseInt heightText) tileString) with
          | Returns grid =>
              Returns (mkUnity (Some grid) (unity_maxEnemies result)
                         (unity_enemySpawnChance result)
                         (unity_coinSpawnChance result))
          | Throws _ => Returns result
          | Diverges => Diverges
          end
      end
  end.
End Players.

(* ------------------------------------------------------------------ *)
(** ** Looking for a port ([main.ts] 11-25, [src/mcp-app.ts] 47-62) *)

(** [a + b] on numbers. *)
Definition number_add (a b : number) : number :=
  match a, b with
  | NaN, _ | _, NaN => NaN
  | PosInf, NegInf | NegInf, PosInf => NaN
  | PosInf, _ | _, PosInf => PosInf
  | NegInf, _ | _, NegInf => NegInf
  | Finite p, Finite q => Finite (p + q)
  end.

(** How [findAvailablePort] ends when no probe throws: with a port, or
    with the [Error] of its last line, which carries a message. *)
Inductive PortSearch : Type :=
| PortFound (port : number)
| NoPort (message : jsstring).

Section FindAvailablePort.
Variable rt : Platform.
(** The probe of a port: the promise resolves with [true] on the event
    [listening] and with [false] on the event [error]; [server.listen] may
    throw, and the promise may stay pending ([Diverges]). A call probes a
    port once. *)
Variable probe : number -> outcome bool.

(** The [for] loop from [port] on; it takes at most [maxAttempts] turns. *)
Fixpoint probe_from (fuel : nat) (port bound : number) : outcome (option number) :=
  if number_ltb port bound then
    match fuel with
    | 0 => Diverges
    | S fuel' =>
        available <- probe port ;;
        if available then Returns (Some port)
        else probe_from fuel' (number_add port (int 1)) bound
    end
  else Returns None.

(** [maxAttempts] is a count of attempts; the one call leaves it at 10. *)
Definition findAvailablePort (startPort : number) (maxAttempts : nat)
  : outcome PortSearch :=
  found <- probe_from maxAttempts startPort
             (number_add startPort (num_of_nat maxAttempts)) ;;
  match found with
  | Some port => Returns (PortFound port)
  | None =>
      Returns
        (NoPort
           (str "No available port found between " ++ String_of_number rt startPort
              ++ str " and "
              ++ String_of_number rt
                   (number_add (number_add startPort (num_of_nat maxAttempts))
                      (int (-1)))))
  end.
End FindAvailablePort.

Section FindGameServerPort.
(** Whether the fetch of [index.html] on a port comes back with
    [response.ok]; a fetch that throws, as it does after a second without
    an answer, counts as [false]. A call fetches from a port once. *)
Variable answers : nat -> bool.

Fixpoint game_port_from (turns port : nat) : option nat :=
  match turns with
  | 0 => None
  | S turns' => if answers port then Some port else game_port_from turns' (S port)
  end.

(** The loop runs from port 3001 to port 3010. *)
Definition findGameServerPort : jsstring :=
  match game_port_from 10 3001 with
  | Some port => str "http://localhost:" ++ decimal port
  | None => str "http://localhost:3001"
  end.
End FindGameServerPort.

(* ================================================================== *)
(** * Proofs *)

(** ** Decimal text *)

Lemma digit_char_is_digit d : d < 10 -> is_digit (digit_char d) = true.
Proof.
  intros H. unfold is_digit, digit_char.
  apply andb_true_intro; split; apply N.leb_le; lia.
Qed.

Lemma decimal_value_app s c :
  decimal_value (s ++ [c]) = (10 * decimal_value s + (c - 48))%N.
Proof. unfold decimal_value. rewrite fold_left_app. reflexivity. Qed.

Lemma digits_of_spec fuel : forall n, n < fuel ->
  Forall (fun d => d < 10) (digits_of fuel n)
  /\ digits_of fuel n <> []
  /\ decimal_value (map digit_char (digits_of fuel n)) = N.of_nat n.
Proof.
  induction fuel as [|fuel IH]; intros n Hn; [lia|].
  cbn [digits_of]. destruct (Nat.ltb_spec n 10) as [Hlt|Hge].
  - repeat split.
    + constructor; [assumption|constructor].
    + discriminate.
    + unfold decimal_value, digit_char. cbn [map fold_left]. lia.
  - assert (Hdiv : n / 10 < fuel).
    { pose proof (Nat.div_lt n 10). lia. }
    destruct (IH _ Hdiv) as (Hall & Hne & Hval).
    repeat split.
    + apply Forall_app; split; [assumption|].
      constructor; [|constructor]. apply Nat.mod_upper_bound. lia.
    + intros Heq. apply app_eq_nil in Heq. destruct Heq as [_ Heq]. discriminate.
    + rewrite map_app. cbn [map]. rewrite decimal_value_app, Hval.
      unfold digit_char.
      pose proof (Nat.div_mod_eq n 10). lia.
Qed.

Lemma decimal_digits n : forallb is_digit (decimal n) = true.
Proof.
  unfold decimal. destruct (@digits_of_spec (S n) n (Nat.lt_succ_diag_r n)) as (Hall & _ & _).
  apply forallb_forall. intros c Hin. apply in_map_iff in Hin.
  destruct Hin as (d & <- & Hd). apply digit_char_is_digit.
  rewrite Forall_forall in Hall. auto.
Qed.

Lemma decimal_nonempty n : decimal n <> [].
Proof.
  unfold decimal. destruct (@digits_of_spec (S n) n (Nat.lt_succ_diag_r n)) as (_ & Hne & _).
  intros Heq. apply map_eq_nil in Heq. contradiction.
Qed.

Lemma decimal_value_decimal n : decimal_value (decimal n) = N.of_nat n.
Proof.
  unfold decimal. destruct (@digits_of_spec (S n) n (Nat.lt_succ_diag_r n)) as (_ & _ & Hval).
  exact Hval.
Qed.

Lemma starts_with_digit_decimal n tail : starts_with_digit (decimal n ++ tail) = true.
Proof.
  pose proof (decimal_digits n) as Hd. pose proof (decimal_nonempty n) as Hne.
  destruct (decimal n) as [|c s]; [contradiction|].
  simpl in *. apply andb_prop in Hd. tauto.
Qed.

Lemma take_digits_app ds tail :
  forallb is_digit ds = true -> starts_with_digit tail = false ->
  take_digits (ds ++ tail) = (ds, tail).
Proof.
  intros Hds Htail. induction ds as [|d ds IH]; simpl in *.
  - destruct tail as [|c tail]; [reflexivity|]. simpl in *. rewrite Htail. reflexivity.
  - apply andb_prop in Hds. destruct Hds as [Hd Hds]. rewrite Hd, (IH Hds). reflexivity.
Qed.

(** ** Run-length encoding follows the maximal runs *)

Lemma rle_flush_dots n : 0 < n -> rle_flush DOT n = image (Dots n).
Proof. intros _. reflexivity. Qed.

Lemma rle_flush_other c : c <> DOT -> rle_flush c 1 = [c].
Proof.
  intros Hc. unfold rle_flush.
  destruct (N.eqb_spec c DOT); [contradiction|reflexivity].
Qed.

Lemma blocks_from_pending n s :
  0 < n ->
  blocks_from n s =
    match s with
    | [] => [Dots n]
    | c :: s' =>
        if (c =? DOT)%N then blocks_from (S n) s'
        else Dots n :: Lit c :: blocks_from 0 s'
    end.
Proof. intros Hn. destruct n; [lia|]. destruct s; reflexivity. Qed.

Lemma rle_fold rest : forall result count current,
  0 < count -> (current <> DOT -> count = 1) ->
  (let '(r, c, cur) := fold_left rle_step rest (result, count, current) in
   r ++ rle_flush cur c)
  = result ++
      (if (current =? DOT)%N then flat_map image (blocks_from count rest)
       else current :: flat_map image (blocks_from 0 rest)).
Proof.
  induction rest as [|c rest IH]; intros result count current Hcount Hone.
  - cbn [fold_left]. f_equal.
    destruct (N.eqb_spec current DOT) as [->|Hne].
    + rewrite blocks_from_pending by assumption. cbn [flat_map].
      rewrite app_nil_r. apply rle_flush_dots. assumption.
    + rewrite (Hone Hne). apply rle_flush_other. assumption.
  - cbn [fold_left]. unfold rle_step at 2.
    destruct (N.eqb_spec current DOT) as [->|Hne].
    + rewrite andb_true_r. rewrite blocks_from_pending by assumption.
      destruct (N.eqb_spec c DOT) as [->|Hc].
      * rewrite IH by (auto; lia). reflexivity.
      * rewrite IH by (auto; lia).
        destruct (N.eqb_spec c DOT); [contradiction|].
        rewrite <- app_assoc. reflexivity.
    + rewrite andb_false_r. rewrite IH by (auto; lia).
      rewrite (Hone Hne), rle_flush_other by assumption.
      rewrite <- app_assoc. cbn [app]. do 2 f_equal.
      destruct (N.eqb_spec c DOT) as [->|Hc]; [reflexivity|].
      cbn [blocks_from]. destruct (N.eqb_spec c DOT); [contradiction|].
      reflexivity.
Qed.

Lemma runLengthEncode_blocks s : runLengthEncode s = flat_map image (blocks_of s).
Proof.
  destruct s as [|first rest]; [reflexivity|].
  unfold runLengthEncode.
  etransitivity; [apply (@rle_fold rest [] 1 first); auto; lia|].
  cbn [app]. unfold blocks_of. cbn [blocks_from].
  destruct (N.eqb_spec first DOT); reflexivity.
Qed.

Lemma blocks_from_maximal s : forall n, maximal_runs (blocks_from n s).
Proof.
  induction s as [|c s IH]; intros n.
  - destruct n; cbn; repeat split; auto; lia.
  - cbn [blocks_from]. destruct (N.eqb_spec c DOT) as [->|Hc]; [apply IH|].
    destruct n; cbn [app maximal_runs]; repeat split; auto; lia.
Qed.

Lemma repeat_snoc {A} (x : A) n : repeat x n ++ [x] = x :: repeat x n.
Proof. induction n; cbn; [reflexivity|]. rewrite IHn. reflexivity. Qed.

Lemma blocks_from_expand s : forall n,
  flat_map expand (blocks_from n s) = repeat DOT n ++ s.
Proof.
  induction s as [|c s IH]; intros n.
  - destruct n; cbn [blocks_from flat_map expand]; rewrite ?app_nil_r; reflexivity.
  - cbn [blocks_from]. destruct (N.eqb_spec c DOT) as [->|Hc].
    + rewrite IH. cbn [repeat]. rewrite <- repeat_snoc, <- app_assoc. reflexivity.
    + destruct n.
      * cbn [app flat_map expand]. rewrite IH. reflexivity.
      * cbn [app flat_map expand]. rewrite IH. reflexivity.
Qed.

Lemma blocks_from_dots m s : forall n,
  blocks_from n (repeat DOT m ++ s) = blocks_from (n + m) s.
Proof.
  induction m as [|m IH]; intros n; cbn [repeat app].
  - rewrite Nat.add_0_r. reflexivity.
  - cbn [blocks_from]. rewrite N.eqb_refl, IH. f_equal. lia.
Qed.

Lemma blocks_of_unique bs :
  maximal_runs bs -> blocks_of (flat_map expand bs) = bs.
Proof.
  unfold blocks_of. induction bs as [|b bs IH]; intros Hmax; [reflexivity|].
  destruct b as [n|c]; cbn [flat_map expand maximal_runs] in *.
  - destruct Hmax as (Hn & Hnext & Hmax). rewrite blocks_from_dots. cbn [Nat.add].
    specialize (IH Hmax).
    destruct bs as [|[m|c] bs]; [| contradiction |].
    + cbn. destruct n; [lia|reflexivity].
    + cbn [flat_map expand app] in *. destruct Hmax as [Hc _].
      rewrite blocks_from_pending by assumption.
      destruct (N.eqb_spec c DOT); [contradiction|].
      cbn [blocks_from] in IH. destruct (N.eqb_spec c DOT); [contradiction|].
      cbn [app] in IH. rewrite IH. reflexivity.
  - destruct Hmax as [Hc Hmax]. cbn [app blocks_from].
    destruct (N.eqb_spec c DOT); [contradiction|]. cbn [app].
    rewrite (IH Hmax). reflexivity.
Qed.

(** ** Run-length decoding *)

Lemma take_digits_length s : length (snd (take_digits s)) <= length s.
Proof.
  induction s as [|c s IH]; [reflexivity|].
  cbn [take_digits]. destruct (is_digit c); [|reflexivity].
  destruct (take_digits s) as [numStr rest]. cbn [snd length] in *. lia.
Qed.

Section RunLengthDecodeFacts.
Variable rt : Platform.

Lemma rld_loop_enough n : forall input f1 f2 result,
  length input <= n -> length input <= f1 -> length input <= f2 ->
  rld_loop rt f1 input result = rld_loop rt f2 input result.
Proof.
  induction n as [|n IH]; intros input f1 f2 result Hn H1 H2.
  - destruct input; [|cbn in Hn; lia]. destruct f1, f2; reflexivity.
  - destruct input as [|c rest]; [destruct f1, f2; reflexivity|].
    cbn [length] in *. destruct f1 as [|f1]; [lia|]. destruct f2 as [|f2]; [lia|].
    cbn [rld_loop].
    destruct ((c =? DOT)%N && starts_with_digit rest).
    + pose proof (take_digits_length rest) as Hlen.
      destruct (take_digits rest) as [numStr rest']. cbn [snd] in Hlen.
      destruct (String_repeat [DOT] (StringToNumber rt numStr)); cbn [bind]; auto.
      apply IH; lia.
    + apply IH; lia.
Qed.

Lemma rld_loop_total fuel : forall input result,
  length input <= fuel -> rld_loop rt fuel input result <> Diverges.
Proof.
  induction fuel as [|fuel IH]; intros input result Hlen.
  - destruct input; [discriminate|cbn in Hlen; lia].
  - destruct input as [|c rest]; [discriminate|]. cbn [length] in Hlen.
    cbn [rld_loop]. destruct ((c =? DOT)%N && starts_with_digit rest).
    + pose proof (take_digits_length rest) as Hrest.
      destruct (take_digits rest) as [numStr rest']. cbn [snd] in Hrest.
      destruct (String_repeat [DOT] (StringToNumber rt numStr)) eqn:Erepeat;
        cbn [bind]; try discriminate.
      * apply IH. lia.
      * exfalso. unfold String_repeat in Erepeat.
        destruct (StringToNumber rt numStr) as [| | |q]; try discriminate.
        destruct (Qtruncate q <? 0)%Z; discriminate.
    + apply IH. lia.
Qed.

Lemma runLengthDecode_total input : runLengthDecode rt input <> Diverges.
Proof.
  destruct input as [s|]; [|discriminate]. apply rld_loop_total. reflexivity.
Qed.

Lemma rld_nil result : rld rt [] result = Returns result.
Proof. reflexivity. Qed.

Lemma rld_cons c rest result :
  rld rt (c :: rest) result =
    if (c =? DOT)%N && starts_with_digit rest
    then
      let (numStr, rest') := take_digits rest in
      dots <- String_repeat [DOT] (StringToNumber rt numStr) ;;
      rld rt rest' (result ++ dots)
    else rld rt rest (result ++ [c]).
Proof.
  unfold rld. cbn [length rld_loop].
  destruct ((c =? DOT)%N && starts_with_digit rest); [|reflexivity].
  pose proof (take_digits_length rest) as Hlen.
  destruct (take_digits rest) as [numStr rest']. cbn [snd] in Hlen.
  destruct (String_repeat [DOT] (StringToNumber rt numStr)); cbn [bind]; auto.
  apply rld_loop_enough with (n := length rest'); lia.
Qed.

Lemma String_repeat_dots n :
  String_repeat [DOT] (int (Z.of_N (N.of_nat n))) = Returns (repeat DOT n).
Proof.
  unfold String_repeat, int, Qtruncate. cbn [Qnum Qden inject_Z].
  rewrite Z.quot_1_r.
  destruct (Z.ltb_spec (Z.of_N (N.of_nat n)) 0) as [Hneg|_]; [lia|].
  f_equal. replace (Z.to_nat (Z.of_N (N.of_nat n))) with n by lia.
  induction n as [|n IH]; cbn; [reflexivity|]. rewrite IH. reflexivity.
Qed.

Hypothesis laws : PlatformLaws rt.

Lemma rld_image_dots n tail result :
  readable (Dots n) -> starts_with_digit tail = false ->
  rld rt (image (Dots n) ++ tail) result = rld rt tail (result ++ repeat DOT n).
Proof.
  intros Hn Htail. cbn [image readable] in *.
  destruct (Nat.ltb_spec 2 n) as [Hlong|Hshort].
  - cbn [app]. rewrite rld_cons, N.eqb_refl, starts_with_digit_decimal.
    cbn [andb]. rewrite take_digits_app by (auto using decimal_digits).
    rewrite (Number_of_decimal laws) by
      (auto using decimal_nonempty, decimal_digits; rewrite decimal_value_decimal; lia).
    rewrite decimal_value_decimal, String_repeat_dots. reflexivity.
  - assert (Hcases : n = 0 \/ n = 1 \/ n = 2) by lia.
    destruct Hcases as [-> | [-> | ->]]; cbn [repeat app].
    + rewrite app_nil_r. reflexivity.
    + rewrite rld_cons, Htail, andb_false_r. reflexivity.
    + rewrite rld_cons. cbn [starts_with_digit]. rewrite andb_false_r.
      rewrite rld_cons, Htail, andb_false_r, <- app_assoc. reflexivity.
Qed.

Lemma readable_starts bs :
  Forall readable bs -> starts_with_digit (flat_map image bs) = false.
Proof.
  induction 1 as [|b bs Hb _ IH]; [reflexivity|].
  destruct b as [n|c]; cbn [flat_map image readable] in *.
  - destruct (2 <? n); [reflexivity|]. destruct n; [exact IH|reflexivity].
  - tauto.
Qed.

Lemma rld_blocks bs : forall result,
  Forall readable bs ->
  rld rt (flat_map image bs) result = Returns (result ++ flat_map expand bs).
Proof.
  induction bs as [|b bs IH]; intros result Hall.
  - cbn. rewrite app_nil_r. reflexivity.
  - inversion Hall as [|? ? Hb Hbs]; subst. cbn [flat_map].
    destruct b as [n|c].
    + rewrite rld_image_dots by (auto using readable_starts).
      rewrite IH by assumption. rewrite <- app_assoc. reflexivity.
    + cbn [image expand app readable] in *. destruct Hb as [Hc Hd].
      rewrite rld_cons. destruct (N.eqb_spec c DOT); [contradiction|].
      cbn [andb]. rewrite IH by assumption. rewrite <- app_assoc. reflexivity.
Qed.

Lemma blocks_from_readable s : forall n,
  Forall (fun c => is_digit c = false) s ->
  (N.of_nat (n + length s) < 9007199254740992)%N ->
  Forall readable (blocks_from n s).
Proof.
  induction s as [|c s IH]; intros n Hs Hlen.
  - destruct n; cbn [blocks_from]; repeat constructor.
    cbn [readable length] in *. lia.
  - inversion Hs as [|? ? Hc Hs']; subst. cbn [blocks_from length] in *.
    destruct (N.eqb_spec c DOT) as [->|Hne].
    + apply IH; auto. lia.
    + assert (Forall readable (Lit c :: blocks_from 0 s)).
      { constructor; [split; assumption|]. apply IH; auto. cbn. lia. }
      destruct n; cbn [app]; [assumption|].
      constructor; [|assumption]. cbn [readable]. lia.
Qed.

(** Decoding undoes encoding on a text without digits. *)
Lemma runLengthDecode_encode s :
  Forall (fun c => is_digit c = false) s ->
  (N.of_nat (length s) < 9007199254740992)%N ->
  runLengthDecode rt (Some (runLengthEncode s)) = Returns s.
Proof.
  intros Hs Hlen. rewrite runLengthEncode_blocks.
  change (rld rt (flat_map image (blocks_of s)) [] = Returns s).
  rewrite rld_blocks by (apply blocks_from_readable; auto).
  unfold blocks_of. rewrite blocks_from_expand. reflexivity.
Qed.
End RunLengthDecodeFacts.

(** ** Base64 and the URL-safe alphabet *)

Ltac chars :=
  unfold is_base64_char, is_token_char, is_digit, is_high_surrogate,
    is_low_surrogate, DOT, COLON, BAR, LOWER_X, EQUALS, PLUS, SLASH, MINUS,
    UNDERSCORE, QUOTE in *;
  repeat match goal with
         | H : _ && _ = true |- _ => apply andb_prop in H; destruct H
         | H : _ || _ = true |- _ => apply orb_prop in H; destruct H
         | H : (_ <=? _)%N = true |- _ => apply N.leb_le in H
         | H : (_ <? _)%N = true |- _ => apply N.ltb_lt in H
         | H : (_ =? _)%N = true |- _ => apply N.eqb_eq in H
         | H : (_ <=? _)%N = false |- _ => apply N.leb_gt in H
         | H : (_ <? _)%N = false |- _ => apply N.ltb_ge in H
         | H : (_ =? _)%N = false |- _ => apply N.eqb_neq in H
         end.

Lemma list_ind3 {A} (P : list A -> Prop) :
  P [] -> (forall a, P [a]) -> (forall a b, P [a; b]) ->
  (forall a b c l, P l -> P (a :: b :: c :: l)) ->
  forall l, P l.
Proof.
  intros H0 H1 H2 H3 l.
  assert (H : P l /\ (forall a, P (a :: l)) /\ (forall a b, P (a :: b :: l))).
  { induction l as [|c l (IH0 & IH1 & IH2)]; repeat split; auto. }
  apply H.
Qed.

Lemma utf8_encode_ascii s : is_ascii s -> utf8_encode s = s.
Proof.
  induction 1 as [|c s Hc _ IH]; [reflexivity|].
  cbn [utf8_encode]. unfold utf8_of_code_point.
  destruct (is_high_surrogate c) eqn:Hh; [chars; lia|].
  destruct (is_low_surrogate c) eqn:Hl; [chars; lia|].
  destruct (N.ltb_spec c 128); [|lia]. cbn [app]. rewrite IH. reflexivity.
Qed.

Lemma base64_char_ok n : (n < 64)%N -> is_base64_char (base64_char n) = true.
Proof.
  intros Hn.
  assert (Hall : forallb (fun k => is_base64_char (base64_char (N.of_nat k)))
                   (seq 0 64) = true) by (vm_compute; reflexivity).
  rewrite forallb_forall in Hall.
  specialize (Hall (N.to_nat n)). rewrite N2Nat.id in Hall.
  apply Hall. apply in_seq. lia.
Qed.

Lemma is_bytes_cons b bs : is_bytes (b :: bs) -> (b < 256)%N /\ is_bytes bs.
Proof. intros H. inversion H; subst. split; assumption. Qed.

Lemma sextet_bounds b1 b2 b3 :
  (b1 < 256 -> b2 < 256 -> b3 < 256 ->
   b1 / 4 < 64 /\ (b1 mod 4) * 16 + b2 / 16 < 64
   /\ (b2 mod 16) * 4 + b3 / 64 < 64 /\ b3 mod 64 < 64
   /\ (b1 mod 4) * 16 < 64 /\ (b2 mod 16) * 4 < 64)%N.
Proof.
  intros H1 H2 H3.
  pose proof (N.mod_upper_bound b1 4). pose proof (N.mod_upper_bound b2 16).
  pose proof (N.mod_upper_bound b3 64).
  assert (b1 / 4 < 64)%N by (apply N.Div0.div_lt_upper_bound; lia).
  assert (b2 / 16 < 16)%N by (apply N.Div0.div_lt_upper_bound; lia).
  assert (b3 / 64 < 4)%N by (apply N.Div0.div_lt_upper_bound; lia).
  lia.
Qed.

(** The encoder writes alphabet characters, then at most two [=], and a
    multiple of four characters in all. *)
Lemma base64_encode_shape bs :
  is_bytes bs ->
  exists body pad,
    base64_encode bs = body ++ pad
    /\ forallb is_base64_char body = true
    /\ (pad = [] \/ pad = [EQUALS] \/ pad = [EQUALS; EQUALS])
    /\ (length body + length pad) mod 4 = 0.
Proof.
  induction bs as [|b1|b1 b2|b1 b2 b3 bs IH] using list_ind3; intros Hbytes.
  - exists [], []. repeat split; auto.
  - apply is_bytes_cons in Hbytes. destruct Hbytes as [H1 _].
    destruct (@sextet_bounds b1 0 0) as (? & ? & ? & ? & ? & ?); try lia.
    exists [base64_char (b1 / 4); base64_char ((b1 mod 4) * 16)], [EQUALS; EQUALS].
    repeat split; auto. cbn [forallb]. rewrite !base64_char_ok by assumption. reflexivity.
  - apply is_bytes_cons in Hbytes. destruct Hbytes as [H1 Hbytes].
    apply is_bytes_cons in Hbytes. destruct Hbytes as [H2 _].
    destruct (@sextet_bounds b1 b2 0) as (? & ? & ? & ? & ? & ?); try lia.
    exists [base64_char (b1 / 4); base64_char ((b1 mod 4) * 16 + b2 / 16);
            base64_char ((b2 mod 16) * 4)], [EQUALS].
    repeat split; auto. cbn [forallb]. rewrite !base64_char_ok by assumption. reflexivity.
  - apply is_bytes_cons in Hbytes. destruct Hbytes as [H1 Hbytes].
    apply is_bytes_cons in Hbytes. destruct Hbytes as [H2 Hbytes].
    apply is_bytes_cons in Hbytes. destruct Hbytes as [H3 Hbytes].
    destruct (IH Hbytes) as (body & pad & Heq & Hbody & Hpad & Hlen).
    destruct (@sextet_bounds b1 b2 b3) as (? & ? & ? & ? & ? & ?); try lia.
    exists ([base64_char (b1 / 4); base64_char ((b1 mod 4) * 16 + b2 / 16);
             base64_char ((b2 mod 16) * 4 + b3 / 64); base64_char (b3 mod 64)]
              ++ body), pad.
    repeat split; auto.
    + cbn [base64_encode]. rewrite Heq. reflexivity.
    + cbn [app forallb]. rewrite !base64_char_ok by assumption. exact Hbody.
    + cbn [app length].
      replace (S (S (S (S (length body)))) + length pad)
        with (length body + length pad + 1 * 4) by lia.
      rewrite Nat.Div0.mod_add. exact Hlen.
Qed.

Lemma url_char_token c : is_base64_char c = true -> is_token_char (url_char c) = true.
Proof.
  intros Hc. unfold url_char.
  destruct (N.eqb_spec c PLUS) as [->|Hplus]; [reflexivity|].
  destruct (N.eqb_spec c SLASH) as [->|Hslash]; [reflexivity|].
  unfold is_token_char. unfold is_base64_char in Hc.
  destruct (N.eqb_spec c 43); [contradiction|].
  destruct (N.eqb_spec c 47); [contradiction|].
  rewrite !orb_false_r in Hc. rewrite Hc. reflexivity.
Qed.

Lemma unurl_url_char c : is_base64_char c = true -> unurl_char (url_char c) = c.
Proof.
  intros Hc. unfold url_char, unurl_char.
  destruct (N.eqb_spec c PLUS) as [->|Hplus]; [reflexivity|].
  destruct (N.eqb_spec c SLASH) as [->|Hslash]; [reflexivity|].
  destruct (N.eqb_spec c MINUS) as [->|Hminus]; [discriminate|].
  destruct (N.eqb_spec c UNDERSCORE) as [->|Hunder]; [discriminate|].
  reflexivity.
Qed.

Lemma token_char_not_equals c : is_token_char c = true -> c <> EQUALS.
Proof. intros Hc ->. discriminate. Qed.

Lemma drop_while_all p s : forallb p s = true -> forall tail,
  drop_while p (s ++ tail) = drop_while p tail.
Proof.
  induction s as [|c s IH]; intros Hall tail; [reflexivity|].
  cbn [forallb] in Hall. apply andb_prop in Hall. destruct Hall as [Hc Hs].
  cbn [app drop_while]. rewrite Hc. apply IH. assumption.
Qed.

Lemma drop_while_stop p s :
  match rev s with [] => True | c :: _ => p c = false end ->
  rev (drop_while p (rev s)) = s.
Proof.
  intros H. destruct (rev s) as [|c r] eqn:Hrev.
  - apply (f_equal (@rev _)) in Hrev. rewrite rev_involutive in Hrev. subst. reflexivity.
  - cbn [drop_while]. rewrite H, <- Hrev. apply rev_involutive.
Qed.

Lemma strip_padding_app body pad :
  forallb is_token_char body = true ->
  forallb (N.eqb EQUALS) pad = true ->
  strip_padding (body ++ pad) = body.
Proof.
  intros Hbody Hpad. unfold strip_padding. rewrite rev_app_distr.
  rewrite drop_while_all by (rewrite forallb_forall in *; intros c Hc;
                             apply Hpad, in_rev; assumption).
  apply drop_while_stop.
  destruct (rev body) as [|c r] eqn:Hrev; [exact I|].
  assert (Hin : In c body) by (apply in_rev; rewrite Hrev; left; reflexivity).
  rewrite forallb_forall in Hbody. specialize (Hbody c Hin).
  destruct (N.eqb_spec EQUALS c) as [<-|]; [discriminate|reflexivity].
Qed.

Lemma replace_twice_url s :
  replace_all SLASH UNDERSCORE (replace_all PLUS MINUS s) = map url_char s.
Proof. unfold replace_all. rewrite map_map. reflexivity. Qed.

Lemma replace_twice_unurl s :
  replace_all UNDERSCORE SLASH (replace_all MINUS PLUS s) = map unurl_char s.
Proof. unfold replace_all. rewrite map_map. reflexivity. Qed.

Lemma padding_fixed pad :
  pad = [] \/ pad = [EQUALS] \/ pad = [EQUALS; EQUALS] ->
  map url_char pad = pad /\ map unurl_char pad = pad
  /\ forallb (N.eqb EQUALS) pad = true /\ pad = repeat EQUALS (length pad)
  /\ length pad <= 2.
Proof. intros [-> | [-> | ->]]; cbn; repeat split; auto. Qed.

Lemma to_urlsafe_shape body pad :
  forallb is_base64_char body = true ->
  pad = [] \/ pad = [EQUALS] \/ pad = [EQUALS; EQUALS] ->
  to_urlsafe (body ++ pad) = map url_char body
  /\ forallb is_token_char (map url_char body) = true.
Proof.
  intros Hbody Hpad.
  assert (Htoken : forallb is_token_char (map url_char body) = true).
  { rewrite forallb_forall in *. intros c Hin. apply in_map_iff in Hin.
    destruct Hin as (c0 & <- & Hin). apply url_char_token. auto. }
  split; [|assumption].
  unfold to_urlsafe. rewrite replace_twice_url, map_app.
  destruct (padding_fixed Hpad) as (-> & _ & Heq & _).
  apply strip_padding_app; assumption.
Qed.

Lemma pad_length n k : (n + k) mod 4 = 0 -> k <= 2 -> (4 - n mod 4) mod 4 = k.
Proof.
  intros Hmod Hk.
  pose proof (Nat.div_mod_eq (n + k) 4) as H1.
  pose proof (Nat.div_mod_eq n 4) as H2.
  pose proof (Nat.mod_upper_bound n 4) as H3.
  assert (Hcases : n mod 4 = 0 \/ n mod 4 = 1 \/ n mod 4 = 2 \/ n mod 4 = 3) by lia.
  destruct Hcases as [E | [E | [E | E]]]; rewrite E in *; cbn; lia.
Qed.

Lemma urlsafe_roundtrip bs :
  is_bytes bs ->
  from_urlsafe (to_urlsafe (base64_encode bs)) = base64_encode bs
  /\ forallb is_token_char (to_urlsafe (base64_encode bs)) = true.
Proof.
  intros Hbytes.
  destruct (base64_encode_shape Hbytes) as (body & pad & -> & Hbody & Hpad & Hlen).
  destruct (to_urlsafe_shape _ Hbody Hpad) as [-> Htoken]. split; [|assumption].
  destruct (padding_fixed Hpad) as (_ & Hun & _ & Hrep & Hle).
  unfold from_urlsafe. rewrite length_map, (pad_length _ Hlen Hle), <- Hrep.
  rewrite replace_twice_unurl, map_app, Hun, map_map. f_equal.
  rewrite <- (map_id body) at 2. apply map_ext_in.
  intros c Hin. apply unurl_url_char. rewrite forallb_forall in Hbody. auto.
Qed.

Lemma is_ascii_bytes s : is_ascii s -> is_bytes s.
Proof. apply Forall_impl. intros c Hc. lia. Qed.

Section Base64Url.
Variable rt : Platform.
Hypothesis laws : PlatformLaws rt.

Lemma base64urlEncode_token s :
  is_ascii s -> forallb is_token_char (base64urlEncode s) = true.
Proof.
  intros Hs. unfold base64urlEncode. rewrite utf8_encode_ascii by assumption.
  apply urlsafe_roundtrip, is_ascii_bytes, Hs.
Qed.

Lemma base64urlDecode_encode s :
  is_ascii s -> base64urlDecode rt (base64urlEncode s) = s.
Proof.
  intros Hs. unfold base64urlDecode, base64urlEncode.
  rewrite utf8_encode_ascii by assumption.
  destruct (urlsafe_roundtrip (is_ascii_bytes Hs)) as [-> _].
  rewrite (Buffer_from_base64_encode laws) by (apply is_ascii_bytes, Hs).
  apply (Buffer_toString_ascii laws), Hs.
Qed.

Lemma ui_base64urlEncode s :
  is_ascii s -> LevelEncoder.base64urlEncode s = Returns (base64urlEncode s).
Proof.
  intros Hs. unfold LevelEncoder.base64urlEncode, base64urlEncode, btoa.
  rewrite utf8_encode_ascii by assumption.
  replace (forallb (fun c => (c <? 256)%N) s) with true; [reflexivity|].
  symmetry. apply forallb_forall. intros c Hin.
  unfold is_ascii in Hs. rewrite Forall_forall in Hs. specialize (Hs c Hin).
  apply N.ltb_lt. lia.
Qed.

Lemma ui_base64urlDecode_encode s :
  is_ascii s -> LevelEncoder.base64urlDecode rt (base64urlEncode s) = Returns s.
Proof.
  intros Hs. unfold LevelEncoder.base64urlDecode, base64urlEncode.
  rewrite utf8_encode_ascii by assumption.
  destruct (urlsafe_roundtrip (is_ascii_bytes Hs)) as [-> _].
  apply (atob_encode laws), is_ascii_bytes, Hs.
Qed.
End Base64Url.

(** ** Splitting *)

Lemma includes_false c s : includes c s = false <-> ~ In c s.
Proof.
  unfold includes. split.
  - intros H Hin. assert (existsb (N.eqb c) s = true); [|congruence].
    apply existsb_exists. exists c. split; [assumption|apply N.eqb_refl].
  - intros H. destruct (existsb (N.eqb c) s) eqn:E; [|reflexivity].
    apply existsb_exists in E. destruct E as (x & Hin & Heq).
    apply N.eqb_eq in Heq. subst. contradiction.
Qed.

Lemma includes_app c a b : includes c (a ++ b) = includes c a || includes c b.
Proof. apply existsb_app. Qed.

Lemma includes_forall (p : char -> bool) c s :
  p c = false -> forallb p s = true -> includes c s = false.
Proof.
  intros Hc Hs. apply includes_false. intros Hin.
  rewrite forallb_forall in Hs. rewrite (Hs c Hin) in Hc. discriminate.
Qed.

Lemma split_none sep s : includes sep s = false -> split sep s = [s].
Proof.
  induction s as [|c s IH]; intros H; [reflexivity|].
  cbn [includes existsb] in H. apply orb_false_elim in H. destruct H as [Hc Hs].
  cbn [split]. rewrite N.eqb_sym, Hc. rewrite (IH Hs). reflexivity.
Qed.

Lemma split_app sep a b :
  includes sep a = false -> split sep (a ++ sep :: b) = a :: split sep b.
Proof.
  induction a as [|c a IH]; intros H.
  - cbn [app split]. rewrite N.eqb_refl. reflexivity.
  - cbn [includes existsb] in H. apply orb_false_elim in H. destruct H as [Hc Ha].
    cbn [app split]. rewrite N.eqb_sym, Hc. rewrite (IH Ha). reflexivity.
Qed.

(** ** The characters of a payload *)

Lemma tileChars_tile_char t : is_tile_char (tileChars t ?? ch ".") = true.
Proof.
  unfold tileChars.
  repeat match goal with
         | |- context [if ?b then _ else _] => destruct b; [reflexivity|]
         end.
  reflexivity.
Qed.

Lemma tile_string_chars G : forallb is_tile_char (tile_string G) = true.
Proof.
  apply forallb_forall. intros c Hin. unfold tile_string in Hin.
  apply in_flat_map in Hin. destruct Hin as (row & _ & Hin).
  apply in_map_iff in Hin. destruct Hin as (t & <- & _).
  apply tileChars_tile_char.
Qed.

Lemma tile_char_cases c :
  is_tile_char c = true ->
  c = 46%N \/ c = 71%N \/ c = 82%N \/ c = 89%N \/ c = 73%N \/ c = 70%N
  \/ c = 83%N \/ c = 87%N.
Proof.
  unfold is_tile_char, charTiles. cbn [ch N_of_ascii N_of_digits].
  repeat match goal with
         | |- context [(c =? ?k)%N] => destruct (N.eqb_spec c k); [tauto|]
         end.
  discriminate.
Qed.

Lemma tile_char_not_digit c : is_tile_char c = true -> is_digit c = false.
Proof.
  intros H. apply tile_char_cases in H.
  repeat destruct H as [H|H]; subst; reflexivity.
Qed.

Lemma body_char_facts c :
  is_body_char c = true ->
  c <> BAR /\ c <> COLON /\ c <> LOWER_X /\ (c < 128)%N.
Proof.
  unfold is_body_char. intros H. apply orb_prop in H. destruct H as [H|H].
  - chars. repeat split; lia.
  - apply tile_char_cases in H. chars.
    repeat destruct H as [H|H]; subst; repeat split; try discriminate; lia.
Qed.

Lemma token_char_facts c :
  is_token_char c = true -> c <> BAR /\ c <> COLON /\ (c < 128)%N.
Proof. intros H. chars; repeat split; lia. Qed.

Lemma blocks_from_lits s : forall n c,
  In (Lit c) (blocks_from n s) -> In c s.
Proof.
  induction s as [|x s IH]; intros n c Hin.
  - destruct n; cbn in Hin; [contradiction|]. destruct Hin as [Hin|[]]. discriminate.
  - cbn [blocks_from] in Hin. destruct (N.eqb_spec x DOT).
    + right. eapply IH, Hin.
    + apply in_app_or in Hin. destruct Hin as [Hin|Hin].
      * destruct n; cbn in Hin; [contradiction|]. destruct Hin as [Hin|[]]. discriminate.
      * destruct Hin as [Hin|Hin]; [injection Hin as ->; left; reflexivity|].
        right. eapply IH, Hin.
Qed.

Lemma runLengthEncode_chars s :
  forallb is_tile_char s = true -> forallb is_body_char (runLengthEncode s) = true.
Proof.
  intros Hs. rewrite runLengthEncode_blocks. apply forallb_forall.
  intros c Hin. apply in_flat_map in Hin. destruct Hin as (b & Hb & Hin).
  unfold is_body_char. destruct b as [n|x]; cbn [image] in Hin.
  - assert (Hdot : forall y, In y (repeat DOT n) -> is_digit y || is_tile_char y = true).
    { intros y Hy. apply repeat_spec in Hy. subst. reflexivity. }
    destruct (2 <? n); [|auto].
    destruct Hin as [<-|Hin]; [reflexivity|].
    pose proof (decimal_digits n) as Hd. rewrite forallb_forall in Hd.
    rewrite (Hd c Hin). reflexivity.
  - destruct Hin as [<-|[]]. apply blocks_from_lits in Hb.
    rewrite forallb_forall in Hs. rewrite (Hs x Hb). apply orb_true_r.
Qed.

Lemma image_nil bs : flat_map image bs = [] -> flat_map expand bs = [].
Proof.
  induction bs as [|b bs IH]; [reflexivity|]. cbn [flat_map]. intros H.
  apply app_eq_nil in H. destruct H as [Hb Hbs]. rewrite (IH Hbs), app_nil_r.
  destruct b as [n|c]; cbn [image expand] in *; [|discriminate].
  destruct (2 <? n); [discriminate|assumption].
Qed.

Lemma runLengthEncode_nil s : runLengthEncode s = [] -> s = [].
Proof.
  rewrite runLengthEncode_blocks. intros H. apply image_nil in H.
  unfold blocks_of in H. rewrite blocks_from_expand in H. exact H.
Qed.

(** ** Rebuilding the grid *)

Lemma row_loop_cells n tileString : forall index row,
  row_loop n tileString index row
  = (row ++ map (cell tileString) (seq index n), index + n).
Proof.
  induction n as [|n IH]; intros index row.
  - cbn. rewrite app_nil_r, Nat.add_0_r. reflexivity.
  - cbn [row_loop seq map]. rewrite IH, <- app_assoc. cbn [app].
    f_equal. lia.
Qed.

Lemma rows_loop_cells h w tileString : forall index tiles,
  rows_loop h w tileString index tiles
  = tiles ++ map (fun y => map (cell tileString) (seq (index + y * w) w)) (seq 0 h).
Proof.
  induction h as [|h IH]; intros index tiles.
  - cbn. rewrite app_nil_r. reflexivity.
  - cbn [rows_loop]. rewrite row_loop_cells. cbn [app]. rewrite IH.
    rewrite <- app_assoc. cbn [app seq map]. rewrite Nat.add_0_r.
    do 2 f_equal. rewrite <- seq_shift, map_map.
    apply map_ext. intros y. do 2 f_equal. lia.
Qed.

Lemma cell_inside pre c post : cell (pre ++ c :: post) (length pre) = charTiles c ?? int 0.
Proof.
  unfold cell. rewrite nth_error_app2 by lia. rewrite Nat.sub_diag. reflexivity.
Qed.

Lemma cells_inside r : forall pre post,
  map (cell (pre ++ r ++ post)) (seq (length pre) (length r))
  = map (fun c => charTiles c ?? int 0) r.
Proof.
  induction r as [|c r IH]; intros pre post; [reflexivity|].
  cbn [length seq map app]. rewrite cell_inside. f_equal.
  specialize (IH (pre ++ [c]) post).
  rewrite <- app_assoc, length_app in IH. cbn [app length] in IH.
  rewrite Nat.add_1_r in IH. exact IH.
Qed.

Lemma rows_loop_read w G : forall pre tiles,
  Forall (fun row => length row = w) G ->
  rows_loop (length G) w (pre ++ tile_string G) (length pre) tiles
  = tiles ++ map (map normalise) G.
Proof.
  induction G as [|row G IH]; intros pre tiles Hrect.
  - cbn. rewrite app_nil_r. reflexivity.
  - inversion Hrect as [|? ? Hrow HG]. clear Hrect. subst l x.
    cbn [length rows_loop]. rewrite row_loop_cells. cbn [app].
    unfold tile_string. cbn [flat_map]. fold (tile_string G).
    set (text := map (fun tile => tileChars tile ?? ch ".") row).
    assert (Hlen : length text = w) by (unfold text; rewrite length_map; exact Hrow).
    replace (map (cell (pre ++ text ++ tile_string G)) (seq (length pre) w))
      with (map (fun c => charTiles c ?? int 0) text)
      by (rewrite <- Hlen; symmetry; apply cells_inside).
    specialize (IH (pre ++ text) (tiles ++ [map (fun c => charTiles c ?? int 0) text]) HG).
    rewrite <- app_assoc, length_app, Hlen in IH. rewrite IH.
    rewrite <- app_assoc. cbn [app map]. do 2 f_equal.
    unfold text. rewrite map_map. reflexivity.
Qed.

Lemma reread_rectangular G :
  Forall (fun row => length row = first_width G) G ->
  reread G = map (map normalise) G.
Proof.
  intros Hrect. apply (@rows_loop_read (first_width G) G [] [] Hrect).
Qed.

Lemma Qle_bool_int_0 z : Qle_bool (inject_Z z) 0 = (z <=? 0)%Z.
Proof. unfold Qle_bool. cbn. rewrite Z.mul_1_r. reflexivity. Qed.

Lemma Qle_bool_int a b : Qle_bool (inject_Z a) (inject_Z b) = (a <=? b)%Z.
Proof. unfold Qle_bool. cbn. rewrite !Z.mul_1_r. reflexivity. Qed.

Lemma loop_count_int z :
  (0 <= z <= MAX_ARRAY_LENGTH)%Z -> loop_count (int z) = Some (Z.to_nat z).
Proof.
  intros Hz. unfold loop_count, int. rewrite Qle_bool_int_0.
  destruct (Z.leb_spec z 0) as [Hle|Hgt].
  - replace z with 0%Z by lia. reflexivity.
  - rewrite Qle_bool_int. destruct (Z.leb_spec z MAX_ARRAY_LENGTH); [|lia].
    rewrite Qceiling_Z. reflexivity.
Qed.

Lemma loop_count_nat n : array_fits n -> loop_count (num_of_nat n) = Some n.
Proof.
  intros Hn. unfold num_of_nat. rewrite loop_count_int.
  - rewrite Nat2Z.id. reflexivity.
  - unfold array_fits in Hn. unfold MAX_ARRAY_LENGTH. lia.
Qed.

Lemma array_fits_fits n : array_fits n -> fits n.
Proof. unfold array_fits, fits. lia. Qed.

Lemma decode_tiles_nat w h tileString :
  array_fits w -> array_fits h ->
  decode_tiles (num_of_nat w) (num_of_nat h) tileString
  = Returns (rows_loop h w tileString 0 []).
Proof.
  intros Hw Hh. unfold decode_tiles. rewrite !loop_count_nat by assumption.
  destruct h; reflexivity.
Qed.

(** ** The anatomy of an encoded payload *)

Lemma forallb_app_intro {A} (p : A -> bool) a b :
  forallb p a = true -> forallb p b = true -> forallb p (a ++ b) = true.
Proof. intros Ha Hb. rewrite forallb_app, Ha, Hb. reflexivity. Qed.

Lemma digits_body s : forallb is_digit s = true -> forallb is_body_char s = true.
Proof.
  intros H. rewrite forallb_forall in *. intros c Hin.
  unfold is_body_char. rewrite (H c Hin). reflexivity.
Qed.

Lemma body_no (sep : char) s :
  sep = BAR \/ sep = COLON \/ sep = LOWER_X ->
  forallb is_body_char s = true -> includes sep s = false.
Proof.
  intros Hsep Hs. apply includes_false. intros Hin.
  rewrite forallb_forall in Hs. apply Hs, body_char_facts in Hin.
  destruct Hsep as [-> | [-> | ->]]; tauto.
Qed.

Lemma body_ascii s : forallb is_body_char s = true -> is_ascii s.
Proof.
  intros Hs. apply Forall_forall. intros c Hin.
  rewrite forallb_forall in Hs. apply Hs, body_char_facts in Hin. tauto.
Qed.

Lemma token_ascii s : forallb is_token_char s = true -> is_ascii s.
Proof.
  intros Hs. apply Forall_forall. intros c Hin.
  rewrite forallb_forall in Hs. apply Hs, token_char_facts in Hin. tauto.
Qed.

Lemma token_no_bar s : forallb is_token_char s = true -> includes BAR s = false.
Proof.
  intros Hs. apply includes_false. intros Hin.
  rewrite forallb_forall in Hs. apply Hs, token_char_facts in Hin. tauto.
Qed.

Lemma rle_body G : forallb is_body_char (runLengthEncode (tile_string G)) = true.
Proof. apply runLengthEncode_chars, tile_string_chars. Qed.

Lemma decimal_body n : forallb is_body_char (decimal n) = true.
Proof. apply digits_body, decimal_digits. Qed.

Lemma decimal_no (sep : char) n :
  sep = BAR \/ sep = COLON \/ sep = LOWER_X -> includes sep (decimal n) = false.
Proof. intros Hsep. apply body_no; auto using decimal_body. Qed.

Lemma rle_no (sep : char) G :
  sep = BAR \/ sep = COLON \/ sep = LOWER_X ->
  includes sep (runLengthEncode (tile_string G)) = false.
Proof. intros Hsep. apply body_no; auto using rle_body. Qed.

Lemma core_payload_eq G :
  core_payload G = dimensions_text G ++ COLON :: runLengthEncode (tile_string G).
Proof.
  unfold core_payload, dimensions_text, first_width.
  rewrite <- !app_assoc. reflexivity.
Qed.

Lemma dimensions_no_colon G : includes COLON (dimensions_text G) = false.
Proof.
  unfold dimensions_text. rewrite !includes_app.
  rewrite !decimal_no by auto. reflexivity.
Qed.

Lemma core_no_bar G : includes BAR (core_payload G) = false.
Proof.
  rewrite core_payload_eq. unfold dimensions_text.
  change (COLON :: ?x) with ([COLON] ++ x). rewrite !includes_app.
  rewrite !decimal_no, rle_no by auto. reflexivity.
Qed.

Lemma is_ascii_check s : forallb (fun c => (c <? 128)%N) s = true -> is_ascii s.
Proof.
  intros H. apply Forall_forall. intros c Hin.
  rewrite forallb_forall in H. apply N.ltb_lt, H, Hin.
Qed.

Ltac closed_ascii := apply is_ascii_check; reflexivity.

Lemma core_ascii G : is_ascii (core_payload G).
Proof.
  rewrite core_payload_eq. unfold dimensions_text.
  change (COLON :: ?x) with ([COLON] ++ x).
  repeat (apply Forall_app; split);
    solve [apply body_ascii; auto using decimal_body, rle_body | closed_ascii].
Qed.

Lemma core_split G :
  split COLON (core_payload G) = [dimensions_text G; runLengthEncode (tile_string G)].
Proof.
  rewrite core_payload_eq, split_app by apply dimensions_no_colon.
  rewrite split_none by (apply rle_no; auto). reflexivity.
Qed.

Lemma dimensions_split G :
  split LOWER_X (dimensions_text G) = [decimal (first_width G); decimal (length G)].
Proof.
  unfold dimensions_text. cbn [app].
  rewrite split_app by (apply decimal_no; auto).
  rewrite split_none by (apply decimal_no; auto). reflexivity.
Qed.

Lemma dimensions_nonempty G : dimensions_text G <> [].
Proof.
  unfold dimensions_text. intros H. apply app_eq_nil in H.
  destruct H as [H _]. revert H. apply decimal_nonempty.
Qed.

Section Anatomy.
Variable rt : Platform.
Hypothesis laws : PlatformLaws rt.

Lemma JSON_stringify_ascii params :
  Forall (fun kv => is_ascii (fst kv)) params -> is_ascii (JSON_stringify rt params).
Proof.
  intros Hkeys. unfold JSON_stringify.
  apply Forall_app; split; [closed_ascii|].
  apply Forall_app; split; [|closed_ascii].
  induction Hkeys as [|kv params Hk _ IH]; [constructor|].
  cbn [map join_comma].
  assert (Hmember : is_ascii (JSON_member rt kv)).
  { unfold JSON_member.
    repeat (apply Forall_app; split); try assumption; try closed_ascii.
    apply (Number_toString_ascii laws). }
  destruct (map (JSON_member rt) params) eqn:E; [assumption|].
  apply Forall_app; split; [assumption|].
  apply Forall_app; split; [closed_ascii|assumption].
Qed.

Lemma finite_params_keys level :
  Forall (fun kv => is_ascii (fst kv)) (finite_params level).
Proof.
  unfold finite_params.
  repeat (apply Forall_app; split);
    match goal with
    | |- context [Number_isFinite ?v] => destruct (Number_isFinite v)
    end; repeat constructor; closed_ascii.
Qed.

Lemma params_text_ascii level : is_ascii (JSON_stringify rt (finite_params level)).
Proof. apply JSON_stringify_ascii, finite_params_keys. Qed.

Lemma encodePayload_ascii level : is_ascii (encodePayload rt level).
Proof.
  unfold encodePayload. destruct (0 <? length (finite_params level)).
  - apply Forall_app; split; [apply core_ascii|].
    apply Forall_app; split; [closed_ascii|].
    apply token_ascii, base64urlEncode_token, params_text_ascii.
  - apply core_ascii.
Qed.

Lemma split_params_encodePayload level G :
  tiles level ?? [] = G ->
  split_params rt (encodePayload rt level) = (core_payload G, parsed_params rt level).
Proof.
  intros HG. unfold split_params, encodePayload, parsed_params. rewrite HG.
  cbn [nullish]. destruct (0 <? length (finite_params level)).
  - set (block := base64urlEncode (JSON_stringify rt (finite_params level))).
    assert (Hblock : includes BAR block = false)
      by (apply token_no_bar, base64urlEncode_token, params_text_ascii).
    cbn [app]. rewrite includes_app. cbn [includes existsb]. rewrite N.eqb_refl.
    rewrite orb_true_r. rewrite split_app by apply core_no_bar.
    rewrite split_none by assumption. cbn [hd nth_error]. unfold block.
    rewrite (base64urlDecode_encode laws) by apply params_text_ascii.
    reflexivity.
  - rewrite core_no_bar. reflexivity.
Qed.

Lemma ui_split_params_encodePayload level G :
  tiles level ?? [] = G ->
  LevelEncoder.split_params rt (encodePayload rt level)
  = (core_payload G, parsed_params rt level).
Proof.
  intros HG. unfold LevelEncoder.split_params, encodePayload, parsed_params.
  rewrite HG. cbn [nullish]. destruct (0 <? length (finite_params level)).
  - set (block := base64urlEncode (JSON_stringify rt (finite_params level))).
    assert (Hblock : includes BAR block = false)
      by (apply token_no_bar, base64urlEncode_token, params_text_ascii).
    cbn [app]. rewrite includes_app. cbn [includes existsb]. rewrite N.eqb_refl.
    rewrite orb_true_r. rewrite split_app by apply core_no_bar.
    rewrite split_none by assumption. cbn [hd nth_error]. unfold block.
    rewrite (ui_base64urlDecode_encode laws) by apply params_text_ascii.
    reflexivity.
  - rewrite core_no_bar. reflexivity.
Qed.

Lemma Number_of_decimal_text n :
  fits n -> Number_of rt (Some (decimal n)) = num_of_nat n.
Proof.
  intros Hn. unfold Number_of, num_of_nat.
  rewrite (Number_of_decimal laws), decimal_value_decimal.
  - rewrite nat_N_Z. reflexivity.
  - apply decimal_nonempty.
  - apply decimal_digits.
  - rewrite decimal_value_decimal. exact Hn.
Qed.

Lemma runLengthDecode_tile_string G :
  fits (length (tile_string G)) ->
  runLengthDecode rt (Some (runLengthEncode (tile_string G))) = Returns (tile_string G).
Proof.
  intros Hlen. apply (runLengthDecode_encode laws); [|exact Hlen].
  apply Forall_forall. intros c Hin. apply tile_char_not_digit.
  pose proof (tile_string_chars G) as H. rewrite forallb_forall in H. auto.
Qed.

(** The server reads back what it wrote. *)
Lemma decodeLevel_encodeLevel level G :
  tiles level ?? [] = G ->
  array_fits (first_width G) -> array_fits (length G) ->
  fits (length (tile_string G)) ->
  decodeLevel rt (encodeLevel rt level) = read_back rt level G None.
Proof.
  intros HG Hw Hh Hcells. unfold decodeLevel, encodeLevel.
  rewrite (base64urlDecode_encode laws) by apply encodePayload_ascii.
  rewrite (split_params_encodePayload _ HG), core_split. cbn [hd nth_error].
  rewrite dimensions_split. cbn [nth_error].
  rewrite !Number_of_decimal_text, runLengthDecode_tile_string
    by auto using array_fits_fits.
  cbn [bind]. rewrite decode_tiles_nat by assumption. reflexivity.
Qed.

(** The editor reads back what the server wrote, unless the grid has no
    tile at all. *)
Lemma ui_decode_encodeLevel level G :
  tiles level ?? [] = G ->
  array_fits (first_width G) -> array_fits (length G) ->
  fits (length (tile_string G)) ->
  LevelEncoder.decode rt (encodeLevel rt level) =
    if match tile_string G with [] => true | _ => false end
    then Throws (Error "Invalid encoded level")
    else read_back rt level G (Some (encodeLevel rt level)).
Proof.
  intros HG Hw Hh Hcells. unfold LevelEncoder.decode.
  unfold encodeLevel at 1.
  rewrite (ui_base64urlDecode_encode laws) by apply encodePayload_ascii.
  cbn [bind]. rewrite (ui_split_params_encodePayload _ HG), core_split.
  cbn [nth_error LevelEncoder.falsy].
  pose proof (@dimensions_nonempty G) as Hdims.
  destruct (dimensions_text G) as [|d ds] eqn:Edims; [contradiction|].
  cbn [orb]. rewrite <- Edims. clear Hdims.
  destruct (runLengthEncode (tile_string G)) as [|c cs] eqn:Erle.
  - apply runLengthEncode_nil in Erle. rewrite Erle. reflexivity.
  - destruct (tile_string G) as [|t ts] eqn:Etiles; [discriminate|].
    rewrite <- Etiles in *. rewrite <- Erle. cbn [nullish].
    rewrite dimensions_split. cbn [nth_error].
    rewrite !Number_of_decimal_text by auto using array_fits_fits.
    unfold LevelEncoder.runLengthDecode.
    change (rld_loop rt (length ?s) ?s []) with (runLengthDecode rt (Some s)).
    rewrite runLengthDecode_tile_string by assumption.
    cbn [bind]. rewrite decode_tiles_nat by assumption. reflexivity.
Qed.

(** The editor writes the token the server writes. *)
Lemma ui_encode_encodeLevel level G :
  tiles level = Some G ->
  LevelEncoder.encode rt level = Returns (encodeLevel rt level).
Proof.
  intros HG. pose proof (encodePayload_ascii level) as Hascii.
  unfold LevelEncoder.encode, encodeLevel, encodePayload in *.
  rewrite HG in *. cbn [nullish] in *.
  change (decimal _ ++ [LOWER_X] ++ decimal (length G) ++ [COLON] ++ _)
    with (core_payload G).
  destruct (0 <? length (finite_params level)).
  - rewrite ui_base64urlEncode by apply params_text_ascii. cbn [bind].
    apply ui_base64urlEncode. exact Hascii.
  - cbn [bind]. apply ui_base64urlEncode. exact Hascii.
Qed.
End Anatomy.

(** ** Tile identifiers and parameters through the codec *)

Lemma normalise_tile_id t : is_tile_id t -> normalise t = t.
Proof.
  intros (k & Hk & ->).
  assert (Hcases : (k = 0 \/ k = 1 \/ k = 2 \/ k = 3 \/ k = 4 \/ k = 5 \/ k = 6 \/ k = 7)%Z)
    by lia.
  repeat destruct Hcases as [-> | Hcases]; try subst k; reflexivity.
Qed.

Lemma normalise_unknown t : tileChars t = None -> normalise t = int 0.
Proof. intros H. unfold normalise. rewrite H. reflexivity. Qed.

Lemma number_is_int z k : number_is (int z) k = (z =? k)%Z.
Proof.
  unfold number_is, int, Qeq_bool. cbn [Qnum Qden inject_Z].
  rewrite !Z.mul_1_r. reflexivity.
Qed.

Lemma tileChars_out_of_range z : (z < 0 \/ 7 < z)%Z -> tileChars (int z) = None.
Proof.
  intros Hz. unfold tileChars. rewrite !number_is_int.
  repeat match goal with
         | |- context [(z =? ?k)%Z] => destruct (Z.eqb_spec z k); [lia|]
         end.
  reflexivity.
Qed.

Lemma normalise_grid G :
  Forall (Forall is_tile_id) G -> map (map normalise) G = G.
Proof.
  intros HG. rewrite <- (map_id G) at 2. apply map_ext_in. intros row Hrow.
  rewrite <- (map_id row) at 2. apply map_ext_in. intros t Ht.
  apply normalise_tile_id. rewrite Forall_forall in HG.
  specialize (HG row Hrow). rewrite Forall_forall in HG. auto.
Qed.

Lemma tile_string_length w G :
  Forall (fun row => length row = w) G -> length (tile_string G) = length G * w.
Proof.
  induction 1 as [|row G Hrow _ IH]; [reflexivity|].
  unfold tile_string in *. cbn [flat_map length].
  rewrite length_app, length_map, IH, Hrow. reflexivity.
Qed.

Lemma kept_finite v : finite_or_absent v -> kept v = v.
Proof. intros [-> | (q & ->)]; reflexivity. Qed.

(** With [JSON] reading back what it wrote, the decoded parameters are
    the finite ones of the level. *)
Lemma read_back_params rt level G token :
  json_round_trip rt (finite_params level) ->
  read_back rt level G token =
    Returns (mkLevel (Some (reread G)) (Some (num_of_nat (first_width G)))
               (Some (num_of_nat (length G)))
               (kept (maxEnemies level)) (kept (enemySpawnChance level))
               (kept (coinSpawnChance level)) token).
Proof.
  unfold json_round_trip, read_back, parsed_params, finite_params, kept.
  destruct (Number_isFinite (maxEnemies level)) as [a|];
    destruct (Number_isFinite (enemySpawnChance level)) as [b|];
    destruct (Number_isFinite (coinSpawnChance level)) as [c|];
    cbn [app length Nat.ltb Nat.leb];
    (intros [Hnil | Hjson]; [try discriminate Hnil | try rewrite Hjson]);
    reflexivity.
Qed.

(** ** The reference runtime meets the laws *)

Module ReferenceFacts.
Import Reference.

Lemma base64_value_char n :
  (n < 64)%N ->
  base64_value true (base64_char n) = Some n
  /\ base64_value false (base64_char n) = Some n
  /\ (base64_char n =? EQUALS)%N = false
  /\ is_ascii_whitespace (base64_char n) = false.
Proof.
  intros Hn.
  assert (Hall : forallb (fun k =>
                   let c := base64_char (N.of_nat k) in
                   match base64_value true c, base64_value false c with
                   | Some a, Some b =>
                       (a =? N.of_nat k)%N && (b =? N.of_nat k)%N
                       && negb (c =? EQUALS)%N && negb (is_ascii_whitespace c)
                   | _, _ => false
                   end) (seq 0 64) = true) by (vm_compute; reflexivity).
  rewrite forallb_forall in Hall.
  specialize (Hall (N.to_nat n)). rewrite N2Nat.id in Hall. cbv zeta in Hall.
  assert (Hin : In (N.to_nat n) (seq 0 64)) by (apply in_seq; lia).
  specialize (Hall Hin).
  destruct (base64_value true (base64_char n)) as [a|]; [|discriminate].
  destruct (base64_value false (base64_char n)) as [b|]; [|discriminate].
  apply andb_prop in Hall. destruct Hall as [Hall Hws].
  apply andb_prop in Hall. destruct Hall as [Hall Heq].
  apply andb_prop in Hall. destruct Hall as [Ha Hb].
  apply N.eqb_eq in Ha, Hb. subst.
  apply negb_true_iff in Heq, Hws. auto.
Qed.

Lemma sextets_small bs : is_bytes bs -> Forall (fun v => (v < 64)%N) (sextets_of bs).
Proof.
  induction bs as [|b1|b1 b2|b1 b2 b3 bs IH] using list_ind3; intros Hbytes.
  - constructor.
  - apply is_bytes_cons in Hbytes. destruct Hbytes as [H1 _].
    destruct (@sextet_bounds b1 0 0) as (? & ? & ? & ? & ? & ?); try lia.
    cbn [sextets_of]. repeat constructor; assumption.
  - apply is_bytes_cons in Hbytes. destruct Hbytes as [H1 Hbytes].
    apply is_bytes_cons in Hbytes. destruct Hbytes as [H2 _].
    destruct (@sextet_bounds b1 b2 0) as (? & ? & ? & ? & ? & ?); try lia.
    cbn [sextets_of]. repeat constructor; assumption.
  - apply is_bytes_cons in Hbytes. destruct Hbytes as [H1 Hbytes].
    apply is_bytes_cons in Hbytes. destruct Hbytes as [H2 Hbytes].
    apply is_bytes_cons in Hbytes. destruct Hbytes as [H3 Hbytes].
    destruct (@sextet_bounds b1 b2 b3) as (? & ? & ? & ? & ? & ?); try lia.
    cbn [sextets_of app]. repeat (constructor; [assumption|]). auto.
Qed.

Lemma base64_encode_sextets bs :
  base64_encode bs
  = map base64_char (sextets_of bs) ++ repeat EQUALS ((3 - length bs mod 3) mod 3).
Proof.
  induction bs as [|b1|b1 b2|b1 b2 b3 bs IH] using list_ind3; try reflexivity.
  cbn [base64_encode sextets_of length]. rewrite IH, map_app, <- app_assoc.
  replace (S (S (S (length bs)))) with (length bs + 1 * 3) by lia.
  rewrite Nat.Div0.mod_add. reflexivity.
Qed.

Lemma bytes_of_sextets_of bs : is_bytes bs -> bytes_of_sextets (sextets_of bs) = bs.
Proof.
  induction bs as [|b1|b1 b2|b1 b2 b3 bs IH] using list_ind3; intros Hbytes.
  - reflexivity.
  - apply is_bytes_cons in Hbytes. destruct Hbytes as [H1 _].
    cbn [sextets_of bytes_of_sextets]. f_equal.
    zify. Z.to_euclidean_division_equations. lia.
  - apply is_bytes_cons in Hbytes. destruct Hbytes as [H1 Hbytes].
    apply is_bytes_cons in Hbytes. destruct Hbytes as [H2 _].
    cbn [sextets_of bytes_of_sextets].
    f_equal; [|f_equal]; zify; Z.to_euclidean_division_equations; lia.
  - apply is_bytes_cons in Hbytes. destruct Hbytes as [H1 Hbytes].
    apply is_bytes_cons in Hbytes. destruct Hbytes as [H2 Hbytes].
    apply is_bytes_cons in Hbytes. destruct Hbytes as [H3 Hbytes].
    cbn [sextets_of bytes_of_sextets app]. rewrite (IH Hbytes).
    f_equal; [|f_equal; [|f_equal]]; zify; Z.to_euclidean_division_equations; lia.
Qed.

Lemma lenient_sextets_encoded vs k :
  Forall (fun v => (v < 64)%N) vs ->
  lenient_sextets (map base64_char vs ++ repeat EQUALS k) = vs.
Proof.
  induction 1 as [|v vs Hv _ IH].
  - destruct k; reflexivity.
  - destruct (base64_value_char Hv) as (Hval & _ & Heq & _).
    cbn [map app lenient_sextets]. rewrite Heq, Hval, IH. reflexivity.
Qed.

Lemma strict_sextets_encoded vs :
  Forall (fun v => (v < 64)%N) vs -> strict_sextets (map base64_char vs) = Some vs.
Proof.
  induction 1 as [|v vs Hv _ IH]; [reflexivity|].
  destruct (base64_value_char Hv) as (_ & Hval & _).
  cbn [map strict_sextets]. rewrite Hval, IH. reflexivity.
Qed.

Lemma no_whitespace_encoded vs k :
  Forall (fun v => (v < 64)%N) vs ->
  filter (fun c => negb (is_ascii_whitespace c)) (map base64_char vs ++ repeat EQUALS k)
  = map base64_char vs ++ repeat EQUALS k.
Proof.
  intros Hvs. rewrite filter_app. f_equal.
  - induction Hvs as [|v vs Hv _ IH]; [reflexivity|].
    destruct (base64_value_char Hv) as (_ & _ & _ & Hws).
    cbn [map filter]. rewrite Hws. cbn [negb]. rewrite IH. reflexivity.
  - induction k as [|k IH]; [reflexivity|]. cbn. cbn in IH. rewrite IH. reflexivity.
Qed.

Lemma drop_last_equals_snoc s : drop_last_equals (s ++ [EQUALS]) = s.
Proof.
  unfold drop_last_equals. rewrite rev_app_distr. cbn [rev app].
  rewrite N.eqb_refl. apply rev_involutive.
Qed.

Lemma drop_last_equals_keep vs :
  Forall (fun v => (v < 64)%N) vs ->
  drop_last_equals (map base64_char vs) = map base64_char vs.
Proof.
  intros Hvs. unfold drop_last_equals.
  destruct (rev (map base64_char vs)) as [|c r] eqn:Hrev; [reflexivity|].
  assert (Hin : In c (map base64_char vs)) by (apply in_rev; rewrite Hrev; left; reflexivity).
  apply in_map_iff in Hin. destruct Hin as (v & <- & Hin).
  rewrite Forall_forall in Hvs.
  destruct (base64_value_char (Hvs v Hin)) as (_ & _ & Heq & _).
  rewrite Heq. reflexivity.
Qed.

Lemma drop_padding vs k :
  Forall (fun v => (v < 64)%N) vs -> k <= 2 ->
  drop_last_equals (drop_last_equals (map base64_char vs ++ repeat EQUALS k))
  = map base64_char vs.
Proof.
  intros Hvs Hk.
  assert (Hcases : k = 0 \/ k = 1 \/ k = 2) by lia.
  destruct Hcases as [-> | [-> | ->]]; cbn [repeat].
  - rewrite app_nil_r, !drop_last_equals_keep by assumption. reflexivity.
  - rewrite drop_last_equals_snoc. apply drop_last_equals_keep. assumption.
  - change [EQUALS; EQUALS] with ([EQUALS] ++ [EQUALS]).
    rewrite app_assoc, !drop_last_equals_snoc. reflexivity.
Qed.

Lemma ref_atob_encode bs : is_bytes bs -> atob (base64_encode bs) = Returns bs.
Proof.
  intros Hbytes.
  assert (Hlen : length (base64_encode bs) mod 4 = 0).
  { destruct (base64_encode_shape Hbytes) as (body & pad & -> & _ & _ & Hlen).
    rewrite length_app. exact Hlen. }
  pose proof (sextets_small Hbytes) as Hsmall.
  rewrite base64_encode_sextets in *.
  set (k := (3 - _) mod 3) in *.
  assert (Hk : k <= 2) by (apply Nat.lt_succ_r, Nat.mod_upper_bound; lia).
  clearbody k.
  unfold atob. cbv zeta. rewrite no_whitespace_encoded by assumption.
  rewrite Hlen. cbn [Nat.eqb]. rewrite drop_padding by assumption.
  replace (length (map base64_char (sextets_of bs)) mod 4 =? 1) with false.
  - rewrite strict_sextets_encoded by assumption.
    rewrite bytes_of_sextets_of by assumption. reflexivity.
  - symmetry. rewrite length_app, repeat_length in Hlen.
    apply Nat.eqb_neq. intros H1.
    pose proof (Nat.div_mod_eq (length (map base64_char (sextets_of bs)) + k) 4).
    pose proof (Nat.div_mod_eq (length (map base64_char (sextets_of bs))) 4).
    lia.
Qed.

Lemma ref_Buffer_from_base64_encode bs :
  is_bytes bs -> Buffer_from_base64 (base64_encode bs) = bs.
Proof.
  intros Hbytes. unfold Buffer_from_base64.
  rewrite base64_encode_sextets, lenient_sextets_encoded by (apply sextets_small, Hbytes).
  apply bytes_of_sextets_of, Hbytes.
Qed.

Lemma ref_Number_toString_ascii n : is_ascii (Number_toString n).
Proof.
  destruct n as [| | |q]; try closed_ascii.
  unfold Number_toString. destruct (Qfloor q <? 0)%Z.
  - constructor; [reflexivity|]. apply body_ascii, decimal_body.
  - apply body_ascii, decimal_body.
Qed.

End ReferenceFacts.

Lemma Reference_laws : PlatformLaws Reference.platform.
Proof.
constructor; cbn [StringToNumber Number_toString Buffer_from_base64 atob
                    Buffer_toString_utf8 Reference.platform].
- intros ds Hne Hdigits _. unfold Reference.StringToNumber.
  destruct ds; [contradiction|]. rewrite Hdigits. reflexivity.
- apply ReferenceFacts.ref_Number_toString_ascii.
- apply ReferenceFacts.ref_Buffer_from_base64_encode.
- apply ReferenceFacts.ref_atob_encode.
- intros bs Hbs. unfold Reference.Buffer_toString_utf8.
  rewrite <- (map_id bs) at 2. apply map_ext_in. intros b Hin.
  unfold is_ascii in Hbs. rewrite Forall_forall in Hbs.
  specialize (Hbs b Hin). destruct (N.ltb_spec b 128); [reflexivity|lia].
Qed.

(** ** Facts about whole tokens, used by the claims *)

Lemma fits_small n : n <= 200 * 200 -> fits n /\ array_fits n.
Proof. unfold fits, array_fits. lia. Qed.

Lemma first_width_rectangular w G :
  Forall (fun row => length row = w) G -> 1 <= length G -> first_width G = w.
Proof.
  intros Hrect Hlen. destruct G as [|row G]; [cbn in Hlen; lia|].
  inversion Hrect; subst. reflexivity.
Qed.

Lemma Number_isFinite_some v n :
  Number_isFinite v = Some n <-> exists q, v = Some (JNumber (Finite q)) /\ n = Finite q.
Proof.
  split.
  - destruct v as [[| | [| | |q] | | |]|]; cbn; intros H; try discriminate.
    injection H as <-. eauto.
  - intros (q & -> & ->). reflexivity.
Qed.

Lemma finite_params_nil level : finite_params level = [] <-> ~ has_finite_param level.
Proof.
  unfold finite_params, has_finite_param. split.
  - intros H [(q & Hq) | [(q & Hq) | (q & Hq)]]; rewrite Hq in H; cbn in H;
      repeat match type of H with
             | context [Number_isFinite ?v] => destruct (Number_isFinite v)
             end; discriminate.
  - intros H.
    destruct (Number_isFinite (maxEnemies level)) as [a|] eqn:Ea.
    { apply Number_isFinite_some in Ea. destruct Ea as (q & Hq & _).
      exfalso. apply H. eauto. }
    destruct (Number_isFinite (enemySpawnChance level)) as [b|] eqn:Eb.
    { apply Number_isFinite_some in Eb. destruct Eb as (q & Hq & _).
      exfalso. apply H. eauto. }
    destruct (Number_isFinite (coinSpawnChance level)) as [c|] eqn:Ec.
    { apply Number_isFinite_some in Ec. destruct Ec as (q & Hq & _).
      exfalso. apply H. eauto. }
    reflexivity.
Qed.

Lemma classic_finite level : has_finite_param level \/ ~ has_finite_param level.
Proof.
  destruct (finite_params level) eqn:E.
  - right. apply finite_params_nil. assumption.
  - left. unfold finite_params in E. unfold has_finite_param.
    destruct (Number_isFinite (maxEnemies level)) as [a|] eqn:Ea.
    { apply Number_isFinite_some in Ea. destruct Ea as (q & Hq & _). eauto. }
    destruct (Number_isFinite (enemySpawnChance level)) as [b|] eqn:Eb.
    { apply Number_isFinite_some in Eb. destruct Eb as (q & Hq & _). eauto. }
    destruct (Number_isFinite (coinSpawnChance level)) as [c|] eqn:Ec.
    { apply Number_isFinite_some in Ec. destruct Ec as (q & Hq & _). eauto. }
    discriminate.
Qed.

Lemma read_back_no_params rt level G token :
  finite_params level = [] ->
  read_back rt level G token =
    Returns (mkLevel (Some (reread G)) (Some (num_of_nat (first_width G)))
               (Some (num_of_nat (length G))) None None None token).
Proof.
  intros H. unfold read_back, parsed_params. rewrite H. reflexivity.
Qed.

Lemma example_level_no_params : ~ has_finite_param example_level.
Proof. intros [(q & H) | [(q & H) | (q & H)]]; discriminate H. Qed.

Lemma split_params_main rt decoded : fst (split_params rt decoded) = main_data decoded.
Proof. unfold split_params, main_data. destruct (includes BAR decoded); reflexivity. Qed.

Lemma ui_split_params_main rt decoded :
  fst (LevelEncoder.split_params rt decoded) = main_data decoded.
Proof.
  unfold LevelEncoder.split_params, main_data.
  destruct (includes BAR decoded); reflexivity.
Qed.

Lemma hd_split sep s : nth_error (split sep s) 0 = Some (hd [] (split sep s)).
Proof.
  destruct s as [|c s]; [reflexivity|]. cbn [split].
  destruct (c =? sep)%N; [reflexivity|]. destruct (split sep s); reflexivity.
Qed.

(** [decodeLevel] in terms of the views of the payload. *)
Lemma decodeLevel_views rt token :
  decodeLevel rt token =
    let decoded := base64urlDecode rt token in
    let mainData := main_data decoded in
    let params := snd (split_params rt decoded) in
    tileString <- runLengthDecode rt (tile_data_of mainData) ;;
    rows <- decode_tiles (width_of rt mainData) (height_of rt mainData) tileString ;;
    maxEnemies <- get_prop params KEY_maxEnemies ;;
    enemySpawnChance <- get_prop params KEY_enemySpawnChance ;;
    coinSpawnChance <- get_prop params KEY_coinSpawnChance ;;
    Returns (mkLevel (Some rows) (Some (width_of rt mainData))
               (Some (height_of rt mainData))
               maxEnemies enemySpawnChance coinSpawnChance None).
Proof.
  unfold decodeLevel. cbv zeta.
  rewrite <- split_params_main with (rt := rt).
  destruct (split_params rt (base64urlDecode rt token)) as [mainData params].
  reflexivity.
Qed.

(** The editor's [decode] in the same terms. *)
Lemma ui_decode_views rt token :
  LevelEncoder.decode rt token =
    decoded <- LevelEncoder.base64urlDecode rt token ;;
    let mainData := main_data decoded in
    let params := snd (LevelEncoder.split_params rt decoded) in
    if match dimensions_of mainData with [] => true | _ => false end
       || LevelEncoder.falsy (tile_data_of mainData)
    then Throws (Error "Invalid encoded level")
    else
      tileString <- runLengthDecode rt (tile_data_of mainData) ;;
      rows <- decode_tiles (width_of rt mainData) (height_of rt mainData) tileString ;;
      maxEnemies <- get_prop params KEY_maxEnemies ;;
      enemySpawnChance <- get_prop params KEY_enemySpawnChance ;;
      coinSpawnChance <- get_prop params KEY_coinSpawnChance ;;
      Returns (mkLevel (Some rows) (Some (width_of rt mainData))
                 (Some (height_of rt mainData))
                 maxEnemies enemySpawnChance coinSpawnChance (Some token)).
Proof.
  unfold LevelEncoder.decode.
  destruct (LevelEncoder.base64urlDecode rt token) as [decoded| |]; try reflexivity.
  cbn [bind]. cbv zeta.
  rewrite <- ui_split_params_main with (rt := rt).
  destruct (LevelEncoder.split_params rt decoded) as [mainData params].
  cbn [fst snd]. unfold width_of, height_of, tile_data_of, dimensions_of.
  rewrite hd_split. cbn [LevelEncoder.falsy nullish].
  destruct (hd [] (split COLON mainData)); reflexivity.
Qed.

(** Every call of [decodeLevel] returns or throws. *)
Lemma decodeLevel_total rt token : decodeLevel rt token <> Diverges.
Proof.
  rewrite decodeLevel_views. cbv zeta.
  pose proof (runLengthDecode_total rt
                (tile_data_of (main_data (base64urlDecode rt token)))) as Hrld.
  destruct (runLengthDecode rt _) as [tileString| |]; try discriminate;
    [|contradiction].
  cbn [bind]. unfold decode_tiles.
  set (mainData := main_data (base64urlDecode rt token)).
  destruct (loop_count (height_of rt mainData)) as [[|h]|];
    destruct (loop_count (width_of rt mainData)) as [w|];
    cbn [bind]; try discriminate;
    destruct (snd (split_params rt (base64urlDecode rt token)));
    discriminate.
Qed.

Lemma cell_tile_id s i : is_tile_id (cell s i).
Proof.
  unfold cell, charTiles.
  repeat match goal with
         | |- context [if ?b then _ else _] =>
             destruct b; [eexists; split; [|reflexivity]; lia|]
         end.
  exists 0%Z. split; [lia|reflexivity].
Qed.

Lemma cell_past_end s i : length s <= i -> cell s i = int 0.
Proof.
  intros Hi. unfold cell. apply nth_error_None in Hi. rewrite Hi. reflexivity.
Qed.

Lemma rows_loop_shape h w s :
  let rows := rows_loop h w s 0 [] in
  length rows = h
  /\ Forall (fun row => length row = w) rows
  /\ Forall (Forall is_tile_id) rows
  /\ forall y x, y < h -> x < w ->
       nth_error rows y = Some (map (cell s) (seq (y * w) w))
       /\ nth x (nth y rows []) NaN = cell s (y * w + x).
Proof.
  cbv zeta. rewrite rows_loop_cells. cbn [app Nat.add].
  repeat split.
  - rewrite length_map, length_seq. reflexivity.
  - apply Forall_forall. intros row Hin. apply in_map_iff in Hin.
    destruct Hin as (y & <- & _). rewrite length_map, length_seq. reflexivity.
  - apply Forall_forall. intros row Hin. apply in_map_iff in Hin.
    destruct Hin as (y & <- & _). apply Forall_forall. intros t Ht.
    apply in_map_iff in Ht. destruct Ht as (i & <- & _). apply cell_tile_id.
  - rewrite nth_error_map, nth_error_seq.
    destruct (Nat.ltb_spec y h); [reflexivity|lia].
  - rewrite nth_indep with (d' := map (cell s) (seq (0 * w) w))
      by (rewrite length_map, length_seq; assumption).
    rewrite map_nth with (f := fun y => map (cell s) (seq (y * w) w)).
    rewrite seq_nth by assumption. cbn [Nat.add].
    rewrite nth_indep with (d' := cell s 0)
      by (rewrite length_map, length_seq; assumption).
    rewrite map_nth, seq_nth by assumption. reflexivity.
Qed.

Lemma loop_count_Qeq q q' :
  Qeq q q' -> loop_count (Finite q) = loop_count (Finite q').
Proof.
  intros H. unfold loop_count.
  rewrite (Qleb_comp q q' H 0%Q 0%Q (Qeq_refl 0%Q)).
  rewrite (Qleb_comp q q' H _ _ (Qeq_refl (inject_Z MAX_ARRAY_LENGTH))).
  rewrite (Qceiling_comp q q' H). reflexivity.
Qed.

Lemma loop_count_is_nat n k :
  is_nat_number n k ->
  loop_count n = if (Z.of_nat k <=? MAX_ARRAY_LENGTH)%Z then Some k else None.
Proof.
  intros (q & -> & Hq). rewrite (loop_count_Qeq Hq).
  unfold loop_count. rewrite Qle_bool_int_0, Qle_bool_int, Qceiling_Z, Nat2Z.id.
  destruct (Z.leb_spec (Z.of_nat k) 0) as [H0|H0]; [|reflexivity].
  replace k with 0 by lia. reflexivity.
Qed.

Lemma loop_count_nat_number n k turns :
  is_nat_number n k -> loop_count n = Some turns -> turns = k.
Proof.
  intros Hn Hcount. rewrite (loop_count_is_nat Hn) in Hcount.
  destruct (Z.of_nat k <=? MAX_ARRAY_LENGTH)%Z; [|discriminate].
  injection Hcount as <-. reflexivity.
Qed.

Lemma loop_count_array_fits n k :
  is_nat_number n k -> array_fits k -> loop_count n = Some k.
Proof.
  intros Hn Hk. rewrite (loop_count_is_nat Hn).
  unfold array_fits in Hk. unfold MAX_ARRAY_LENGTH.
  destruct (Z.leb_spec (Z.of_nat k) 4294967295); [reflexivity|lia].
Qed.

Lemma decode_tiles_returns wn hn s rows w h :
  decode_tiles wn hn s = Returns rows ->
  is_nat_number wn w -> is_nat_number hn h ->
  rows = rows_loop h w s 0 [] \/ (h = 0 /\ rows = []).
Proof.
  intros Hrows Hw Hh. unfold decode_tiles in Hrows.
  destruct (loop_count hn) as [th|] eqn:Eh.
  - apply (loop_count_nat_number Hh) in Eh. subst th.
    destruct h as [|h].
    + right. injection Hrows as <-. auto.
    + destruct (loop_count wn) as [tw|] eqn:Ew; [|discriminate].
      apply (loop_count_nat_number Hw) in Ew. subst tw.
      injection Hrows as <-. left. reflexivity.
  - destruct (loop_count wn); discriminate.
Qed.

Lemma decodeLevel_returns rt token p :
  decodeLevel rt token = Returns p ->
  exists tileString rows,
    let mainData := main_data (base64urlDecode rt token) in
    runLengthDecode rt (tile_data_of mainData) = Returns tileString
    /\ decode_tiles (width_of rt mainData) (height_of rt mainData) tileString
       = Returns rows
    /\ tiles p = Some rows
    /\ width p = Some (width_of rt mainData)
    /\ height p = Some (height_of rt mainData).
Proof.
  rewrite decodeLevel_views. cbv zeta.
  destruct (runLengthDecode rt _) as [tileString| |] eqn:Erld; try discriminate.
  cbn [bind]. destruct (decode_tiles _ _ tileString) as [rows| |] eqn:Erows;
    try discriminate.
  cbn [bind]. destruct (get_prop _ KEY_maxEnemies); try discriminate.
  cbn [bind]. destruct (get_prop _ KEY_enemySpawnChance); try discriminate.
  cbn [bind]. destruct (get_prop _ KEY_coinSpawnChance); try discriminate.
  cbn [bind]. intros H. injection H as <-. exists tileString, rows.
  cbv zeta. repeat split; auto.
Qed.

Lemma ui_decode_returns rt token p :
  LevelEncoder.decode rt token = Returns p ->
  exists decoded tileString rows,
    let mainData := main_data decoded in
    LevelEncoder.base64urlDecode rt token = Returns decoded
    /\ runLengthDecode rt (tile_data_of mainData) = Returns tileString
    /\ decode_tiles (width_of rt mainData) (height_of rt mainData) tileString
       = Returns rows
    /\ tiles p = Some rows
    /\ width p = Some (width_of rt mainData)
    /\ height p = Some (height_of rt mainData).
Proof.
  rewrite ui_decode_views.
  destruct (LevelEncoder.base64urlDecode rt token) as [decoded| |] eqn:Edecoded;
    try discriminate.
  cbn [bind]. cbv zeta.
  destruct (_ || _); try discriminate.
  destruct (runLengthDecode rt _) as [tileString| |] eqn:Erld; try discriminate.
  cbn [bind]. destruct (decode_tiles _ _ tileString) as [rows| |] eqn:Erows;
    try discriminate.
  cbn [bind]. destruct (get_prop _ KEY_maxEnemies); try discriminate.
  cbn [bind]. destruct (get_prop _ KEY_enemySpawnChance); try discriminate.
  cbn [bind]. destruct (get_prop _ KEY_coinSpawnChance); try discriminate.
  cbn [bind]. intros H. injection H as <-. exists decoded, tileString, rows.
  cbv zeta. repeat split; auto.
Qed.

Lemma decode_tiles_shape wn hn s rows w h :
  decode_tiles wn hn s = Returns rows ->
  is_nat_number wn w -> is_nat_number hn h ->
  length rows = h
  /\ Forall (fun row => length row = w) rows
  /\ Forall (Forall is_tile_id) rows.
Proof.
  intros Hrows Hw Hh.
  destruct (decode_tiles_returns _ Hrows Hw Hh) as [-> | [-> ->]].
  - destruct (rows_loop_shape h w s) as (H1 & H2 & H3 & _). auto.
  - repeat split; constructor.
Qed.

Lemma get_prop_returns v key : v <> JNull -> exists r, get_prop v key = Returns r.
Proof. destruct v; intros H; try contradiction; eexists; reflexivity. Qed.

Lemma cell_nth s i :
  cell s i = if i <? length s then charTiles (nth i s DOT) ?? int 0 else int 0.
Proof.
  destruct (Nat.ltb_spec i (length s)) as [Hlt|Hge].
  - unfold cell. rewrite (nth_error_nth' s DOT Hlt). reflexivity.
  - apply cell_past_end. assumption.
Qed.

(** When the tile data is read, the grid is built and the parameter block is
    not [null], [decodeLevel] returns, with the grid that [decode_tiles]
    built. *)
Lemma decodeLevel_built rt token tileString rows :
  let decoded := base64urlDecode rt token in
  let mainData := main_data decoded in
  runLengthDecode rt (tile_data_of mainData) = Returns tileString ->
  decode_tiles (width_of rt mainData) (height_of rt mainData) tileString
    = Returns rows ->
  snd (split_params rt decoded) <> JNull ->
  exists p,
    decodeLevel rt token = Returns p
    /\ tiles p = Some rows
    /\ width p = Some (width_of rt mainData)
    /\ height p = Some (height_of rt mainData)
    /\ get_prop (snd (split_params rt decoded)) KEY_maxEnemies
       = Returns (maxEnemies p)
    /\ get_prop (snd (split_params rt decoded)) KEY_enemySpawnChance
       = Returns (enemySpawnChance p)
    /\ get_prop (snd (split_params rt decoded)) KEY_coinSpawnChance
       = Returns (coinSpawnChance p).
Proof.
  cbv zeta. intros Hrld Hrows Hparams.
  rewrite decodeLevel_views. cbv zeta. rewrite Hrld. cbn [bind]. rewrite Hrows.
  cbn [bind].
  destruct (get_prop_returns KEY_maxEnemies Hparams) as (m & ->).
  destruct (get_prop_returns KEY_enemySpawnChance Hparams) as (e & ->).
  destruct (get_prop_returns KEY_coinSpawnChance Hparams) as (c & ->).
  cbn [bind]. eexists. repeat split.
Qed.

Lemma tile_data_missing mainData :
  includes COLON mainData = false -> tile_data_of mainData = None.
Proof. intros H. unfold tile_data_of. rewrite split_none by assumption. reflexivity. Qed.


(** On a token that both base64 readers read alike and whose parameter
    block both parse alike, the editor's decoder is the server's decoder
    behind one more check. *)
Lemma decoders_side_by_side rt token decoded :
  base64urlDecode rt token = decoded ->
  LevelEncoder.base64urlDecode rt token = Returns decoded ->
  snd (LevelEncoder.split_params rt decoded) = snd (split_params rt decoded) ->
  LevelEncoder.decode rt token =
    if match dimensions_of (main_data decoded) with [] => true | _ => false end
       || LevelEncoder.falsy (tile_data_of (main_data decoded))
    then Throws (Error "Invalid encoded level")
    else with_token token (decodeLevel rt token).
Proof.
  intros Hserver Hui Hparams.
  rewrite ui_decode_views, Hui. cbn [bind]. cbv zeta. rewrite Hparams.
  rewrite decodeLevel_views, Hserver. cbv zeta.
  destruct (_ || _); [reflexivity|].
  destruct (runLengthDecode rt _); try reflexivity. cbn [bind].
  destruct (decode_tiles _ _ _); try reflexivity. cbn [bind].
  destruct (get_prop _ KEY_maxEnemies); try reflexivity. cbn [bind].
  destruct (get_prop _ KEY_enemySpawnChance); try reflexivity. cbn [bind].
  destruct (get_prop _ KEY_coinSpawnChance); reflexivity.
Qed.






(* ================================================================== *)
(** * The claims *)

(** C1. Round trip: for a rectangular grid of tile identifiers from 0 to 7,
    of width and height between 1 and 200, and any subset of the three
    parameters with finite values, decoding the token of the level returns
    the same grid, its width and height, and the same parameters, present
    and absent alike. The runtime is asked to satisfy [PlatformLaws] and its
    [JSON.parse] to read back the parameter object that [JSON.stringify]
    wrote. *)
Theorem C1_round_trip (rt : Platform) (level : LevelPayload)
    (G : list (list number)) (w h : nat) :
  PlatformLaws rt ->
  tiles level = Some G ->
  length G = h ->
  Forall (fun row => length row = w) G ->
  1 <= w <= 200 ->
  1 <= h <= 200 ->
  Forall (Forall is_tile_id) G ->
  finite_or_absent (maxEnemies level) ->
  finite_or_absent (enemySpawnChance level) ->
  finite_or_absent (coinSpawnChance level) ->
  json_round_trip rt (finite_params level) ->
  decodeLevel rt (encodeLevel rt level) =
    Returns (mkLevel (Some G) (Some (num_of_nat w)) (Some (num_of_nat h))
               (maxEnemies level) (enemySpawnChance level) (coinSpawnChance level)
               None).
Proof.
  intros laws HG Hh Hrect Hw Hh' Hids Hmax Henemy Hcoin Hjson.
  assert (Hfirst : first_width G = w) by (apply first_width_rectangular; [assumption|lia]).
  assert (Hcells : length (tile_string G) = h * w)
    by (rewrite (tile_string_length Hrect), Hh; reflexivity).
  assert (Hbound : h * w <= 200 * 200) by (apply Nat.mul_le_mono; lia).
  rewrite <- Hfirst in Hrect.
  assert (HG' : tiles level ?? [] = G) by (rewrite HG; reflexivity).
  rewrite (decodeLevel_encodeLevel laws level HG');
    try (apply fits_small; lia).
  rewrite (@read_back_params rt level G None Hjson).
  rewrite (reread_rectangular Hrect), (normalise_grid Hids).
  rewrite !kept_finite by assumption. rewrite Hfirst, Hh. reflexivity.
Qed.

Lemma C1_round_trip_witness :
  decodeLevel Reference.platform
    (encodeLevel Reference.platform example_level_with_params)
  = Returns (mkLevel (Some example_grid) (Some (int 3)) (Some (int 2))
               (Some (JNumber (int 5))) None (Some (JNumber (int 12))) None).
Proof.
  apply (@C1_round_trip Reference.platform example_level_with_params
           example_grid 3 2).
  - exact Reference_laws.
  - reflexivity.
  - reflexivity.
  - repeat constructor.
  - lia.
  - lia.
  - repeat (constructor; [repeat (constructor; [eexists; split; [|reflexivity]; lia|]);
                          constructor|]); constructor.
  - right. eexists. reflexivity.
  - left. reflexivity.
  - right. eexists. reflexivity.
  - right. vm_compute. reflexivity.
Defined.

(** C2. The two decoders do not agree on every token. On [M3gyOg], the
    base64url of [3x2:], the server's [decodeLevel] returns a grid of 2 rows
    of 3 empty tiles and the editor's [decode] throws "Invalid encoded
    level": its check of the dimensions and the tile data is one that
    [decodeLevel] does not make. The check also refuses [MHgwOg], the token
    that the editor's own [encode] writes for a level without rows and that
    the server decodes. *)
Theorem C2_decoders_diverge :
  str "M3gyOg" = base64urlEncode (str "3x2:")
  /\ decodeLevel Reference.platform (str "M3gyOg") =
       Returns (mkLevel (Some [[int 0; int 0; int 0]; [int 0; int 0; int 0]])
                  (Some (int 3)) (Some (int 2)) None None None None)
  /\ LevelEncoder.decode Reference.platform (str "M3gyOg") =
       Throws (Error "Invalid encoded level")
  /\ LevelEncoder.encode Reference.platform
       (mkLevel (Some []) None None None None None None) = Returns (str "MHgwOg")
  /\ decodeLevel Reference.platform (str "MHgwOg") =
       Returns (mkLevel (Some []) (Some (int 0)) (Some (int 0)) None None None None)
  /\ LevelEncoder.decode Reference.platform (str "MHgwOg") =
       Throws (Error "Invalid encoded level").
Proof. repeat split. Qed.




(** C4. Run-length encoding follows the maximal runs of [.]: for any cut
    of a text into maximal runs of [.] and single other characters, the
    output is, block by block, [.] and the decimal length for a run longer
    than 2, and the block itself for a run of 1 or 2 and for any other
    character; every text has such a cut. So [..] stays [..], [...] becomes
    [.3], [GG..RR] is unchanged, [G....R] becomes [G.4R], and decoding each
    result gives the original back. *)
Theorem C4_run_length (rt : Platform) :
  PlatformLaws rt ->
  (forall bs, maximal_runs bs ->
     runLengthEncode (flat_map expand bs) = flat_map image bs)
  /\ (forall s, maximal_runs (blocks_of s) /\ flat_map expand (blocks_of s) = s)
  /\ runLengthEncode (str "..") = str ".."
  /\ runLengthEncode (str "...") = str ".3"
  /\ runLengthEncode (str "GG..RR") = str "GG..RR"
  /\ runLengthEncode (str "G....R") = str "G.4R"
  /\ runLengthDecode rt (Some (str "..")) = Returns (str "..")
  /\ runLengthDecode rt (Some (str ".3")) = Returns (str "...")
  /\ runLengthDecode rt (Some (str "GG..RR")) = Returns (str "GG..RR")
  /\ runLengthDecode rt (Some (str "G.4R")) = Returns (str "G....R").
Proof.
  intros laws.
  assert (Hdecode : forall s,
             forallb (fun c => negb (is_digit c)) s = true ->
             (N.of_nat (length s) <? 9007199254740992)%N = true ->
             runLengthDecode rt (Some (runLengthEncode s)) = Returns s).
  { intros s Hs Hlen. apply (runLengthDecode_encode laws).
    - apply Forall_forall. intros c Hin. rewrite forallb_forall in Hs.
      apply negb_true_iff, Hs, Hin.
    - apply N.ltb_lt, Hlen. }
  split; [|split].
  - intros bs Hmax. rewrite runLengthEncode_blocks, blocks_of_unique by assumption.
    reflexivity.
  - intros s. split; [apply blocks_from_maximal|apply (blocks_from_expand s 0)].
  - repeat split;
      first [ reflexivity
            | exact (Hdecode (str "...") eq_refl eq_refl)
            | exact (Hdecode (str "G....R") eq_refl eq_refl) ].
Qed.

Lemma C4_run_length_witness :
  runLengthEncode (flat_map expand [Lit (ch "G"); Dots 4; Lit (ch "R")])
  = flat_map image [Lit (ch "G"); Dots 4; Lit (ch "R")]
  /\ runLengthDecode Reference.platform (Some (str "G.4R")) = Returns (str "G....R").
Proof.
  destruct (C4_run_length Reference_laws) as (Hruns & _ & _ & _ & _ & _ & _ & _ & _ & Hdec).
  split; [|exact Hdec].
  apply Hruns. cbn. repeat split; solve [discriminate | lia].
Defined.

(** C5. A tile body that is too short is never a cause of failure; the
    cells it does not reach are empty. Take a token whose width and height
    are the nonnegative integers [w] and [h] and whose tile data expands to
    a body shorter than [w * h]. For a grid of modest size and a parameter
    block that is not [null], [decodeLevel] returns [h] rows of [w] cells:
    a cell inside the body is the tile of its character, or 0 when the
    table has no such character, and every cell past the end of the body is
    0. Where [decodeLevel] does fail on a token whose tile data expands, it
    fails with every other body too (the dimensions ask for more than an
    array holds), or the parameter block is [null]. The table has the
    eight characters [.GRYIFSW] and no other. *)
Theorem C5_short_body_padded (rt : Platform) (token : jsstring) :
  let decoded := base64urlDecode rt token in
  let mainData := main_data decoded in
  let params := snd (split_params rt decoded) in
  (forall body w h,
     runLengthDecode rt (tile_data_of mainData) = Returns body ->
     is_nat_number (width_of rt mainData) w ->
     is_nat_number (height_of rt mainData) h ->
     length body < h * w ->
     modest_grid w h ->
     params <> JNull ->
     exists p rows,
       decodeLevel rt token = Returns p
       /\ tiles p = Some rows
       /\ length rows = h
       /\ Forall (fun row => length row = w) rows
       /\ forall y x, y < h -> x < w ->
            nth x (nth y rows []) NaN =
              if y * w + x <? length body
              then charTiles (nth (y * w + x) body DOT) ?? int 0
              else int 0)
  /\ (forall body e,
        runLengthDecode rt (tile_data_of mainData) = Returns body ->
        decodeLevel rt token = Throws e ->
        (forall body',
           decode_tiles (width_of rt mainData) (height_of rt mainData) body'
           = Throws e)
        \/ (params = JNull /\ e = TypeError))
  /\ (forall c, ~ In c (str ".GRYIFSW") -> charTiles c ?? int 0 = int 0).
Proof.
  cbv zeta. split; [|split].
  - intros body w h Hrld Hw Hh Hshort [Hrows_modest Hcells_modest] Hparams.
    assert (Hwfits : array_fits w).
    { assert (Hwide : w <= 1000 * 1000).
      { unfold MODEST in Hcells_modest. destruct h as [|h']; [cbn in Hshort; lia|].
        nia. }
      unfold array_fits. lia. }
    assert (Hhfits : array_fits h).
    { unfold array_fits. unfold MODEST in Hrows_modest. lia. }
    assert (Hrows : decode_tiles (width_of rt (main_data (base64urlDecode rt token)))
                      (height_of rt (main_data (base64urlDecode rt token))) body
                    = Returns (rows_loop h w body 0 [])).
    { unfold decode_tiles.
      rewrite (loop_count_array_fits Hh Hhfits), (loop_count_array_fits Hw Hwfits).
      destruct h; [|reflexivity]. cbn in Hshort. lia. }
    destruct (@decodeLevel_built rt token body _ Hrld Hrows Hparams)
      as (p & Hp & Htiles & _).
    destruct (rows_loop_shape h w body) as (Hlen & Hrect & _ & Hcells).
    exists p, (rows_loop h w body 0 []). repeat split; try assumption.
    intros y x Hy Hx. destruct (Hcells y x Hy Hx) as [_ ->]. apply cell_nth.
  - intros body e Hrld. rewrite decodeLevel_views. cbv zeta. rewrite Hrld.
    cbn [bind].
    destruct (decode_tiles _ _ body) as [rows|e0|] eqn:Erows; cbn [bind].
    + destruct (snd (split_params rt (base64urlDecode rt token)));
        cbn [get_prop bind]; try discriminate.
      intros H. injection H as <-. right. split; reflexivity.
    + intros H. injection H as <-. left. intros body'.
      unfold decode_tiles in Erows |- *.
      destruct (loop_count (height_of rt (main_data (base64urlDecode rt token))))
        as [[|turns]|];
        destruct (loop_count (width_of rt (main_data (base64urlDecode rt token))));
        try discriminate; assumption.
    + discriminate.
  - intros c Hc. unfold charTiles.
    repeat match goal with
           | |- context [(c =? ?k)%N] =>
               destruct (N.eqb_spec c k) as [->|_];
               [exfalso; apply Hc; vm_compute; tauto|]
           end.
    reflexivity.
Qed.

Lemma C5_short_body_padded_witness :
  exists p rows,
    decodeLevel Reference.platform (str "M3gyOkc") = Returns p
    /\ tiles p = Some rows
    /\ length rows = 2
    /\ Forall (fun row => length row = 3) rows
    /\ forall y x, y < 2 -> x < 3 ->
         nth x (nth y rows []) NaN =
           if y * 3 + x <? length (str "G")
           then charTiles (nth (y * 3 + x) (str "G") DOT) ?? int 0
           else int 0.
Proof.
  apply (proj1 (C5_short_body_padded Reference.platform (str "M3gyOkc"))
           (str "G") 3 2).
  - vm_compute. reflexivity.
  - exists (inject_Z 3). split; [vm_compute; reflexivity | reflexivity].
  - exists (inject_Z 2). split; [vm_compute; reflexivity | reflexivity].
  - vm_compute. lia.
  - unfold modest_grid, MODEST. lia.
  - vm_compute. discriminate.
Defined.

(** C6. The payload that [encodeLevel] encodes, which is what its token
    decodes to, has a [|] section exactly when one of the three parameters
    is a finite number; with none, it is the dimensions, a colon and the
    run-length-coded tiles and nothing else, and decoding the token gives a
    level without parameters. *)
Theorem C6_parameter_section (rt : Platform) (level : LevelPayload) :
  let G := tiles level ?? [] in
  (PlatformLaws rt ->
   base64urlDecode rt (encodeLevel rt level) = encodePayload rt level)
  /\ (includes BAR (encodePayload rt level) = true <-> has_finite_param level)
  /\ (~ has_finite_param level ->
      encodePayload rt level =
        decimal (first_width G) ++ [LOWER_X] ++ decimal (length G) ++ [COLON]
          ++ runLengthEncode (tile_string G))
  /\ (PlatformLaws rt -> ~ has_finite_param level ->
      array_fits (first_width G) -> array_fits (length G) ->
      fits (length (tile_string G)) ->
      exists p,
        decodeLevel rt (encodeLevel rt level) = Returns p
        /\ maxEnemies p = None /\ enemySpawnChance p = None
        /\ coinSpawnChance p = None).
Proof.
  intros G. split; [|repeat split].
  - intros laws. apply (base64urlDecode_encode laws), (encodePayload_ascii laws).
  - intros Hbar. destruct (finite_params level) eqn:E.
    + exfalso. unfold encodePayload in Hbar. rewrite E in Hbar.
      cbn [length Nat.ltb Nat.leb] in Hbar.
      rewrite core_no_bar in Hbar. discriminate.
    + destruct (classic_finite level) as [H|H]; [assumption|].
      apply finite_params_nil in H. congruence.
  - intros Hfin. unfold encodePayload.
    destruct (finite_params level) eqn:E.
    + apply finite_params_nil in E. contradiction.
    + cbn [length Nat.ltb Nat.leb]. rewrite !includes_app. cbn.
      rewrite !orb_true_r. reflexivity.
  - intros Hnone. apply finite_params_nil in Hnone.
    unfold encodePayload. rewrite Hnone. reflexivity.
  - intros laws Hnone Hw Hh Hcells. apply finite_params_nil in Hnone.
    rewrite (@decodeLevel_encodeLevel rt laws level G eq_refl Hw Hh Hcells).
    rewrite (@read_back_no_params rt level G None Hnone).
    eexists. repeat split.
Qed.

Lemma C6_parameter_section_witness :
  includes BAR (encodePayload Reference.platform example_level) = false
  /\ encodePayload Reference.platform example_level = str "3x2:G.4R"
  /\ exists p,
       decodeLevel Reference.platform (encodeLevel Reference.platform example_level)
       = Returns p
       /\ maxEnemies p = None /\ enemySpawnChance p = None /\ coinSpawnChance p = None.
Proof.
  destruct (C6_parameter_section Reference.platform example_level)
    as (_ & Hiff & Hexact & Hdecode).
  split; [|split].
  - destruct (includes BAR (encodePayload Reference.platform example_level)) eqn:E;
      [|reflexivity].
    exfalso. apply example_level_no_params, Hiff. reflexivity.
  - rewrite (Hexact example_level_no_params). reflexivity.
  - apply Hdecode.
    + exact Reference_laws.
    + exact example_level_no_params.
    + vm_compute. discriminate.
    + vm_compute. discriminate.
    + vm_compute. reflexivity.
Defined.

(** C7. Encoding has no failing branch: an identifier without an entry in
    the id-to-character table (any integer outside 0..7 is one) is written
    as [.], and the token of a rectangular grid decodes to the same grid
    with each such cell read as the empty tile 0 and every other cell
    unchanged. *)
Theorem C7_lenient_encode (rt : Platform) (level : LevelPayload)
    (G : list (list number)) :
  PlatformLaws rt ->
  tiles level = Some G ->
  Forall (fun row => length row = first_width G) G ->
  array_fits (first_width G) -> array_fits (length G) ->
  fits (length G * first_width G) ->
  json_round_trip rt (finite_params level) ->
  (forall z, (z < 0 \/ 7 < z)%Z -> tileChars (int z) = None)
  /\ tile_string G = flat_map (map (fun tile => tileChars tile ?? DOT)) G
  /\ (forall tile, tileChars tile = None ->
        tileChars tile ?? DOT = DOT /\ normalise tile = int 0)
  /\ (forall tile, is_tile_id tile -> normalise tile = tile)
  /\ exists p,
       decodeLevel rt (encodeLevel rt level) = Returns p
       /\ tiles p = Some (map (map normalise) G).
Proof.
  intros laws HG Hrect Hw Hh Hcells Hjson.
  split; [exact tileChars_out_of_range|].
  split; [reflexivity|].
  split; [intros tile Hnone; rewrite Hnone; split;
          [reflexivity|apply normalise_unknown; assumption]|].
  split; [exact normalise_tile_id|].
  assert (HG' : tiles level ?? [] = G) by (rewrite HG; reflexivity).
  rewrite <- (tile_string_length Hrect) in Hcells.
  rewrite (decodeLevel_encodeLevel laws level HG' Hw Hh Hcells).
  rewrite (@read_back_params rt level G None Hjson).
  eexists. split; [reflexivity|]. cbn [tiles].
  rewrite (reread_rectangular Hrect). reflexivity.
Qed.

Lemma C7_lenient_encode_witness :
  exists p,
    decodeLevel Reference.platform
      (encodeLevel Reference.platform
         (mkLevel (Some [[int 9; int 1]; [int (-3); int 7]]) None None
            (Some (JNumber (int 4))) None None None))
    = Returns p
    /\ tiles p = Some [[int 0; int 1]; [int 0; int 7]].
Proof.
  apply (@C7_lenient_encode Reference.platform
           (mkLevel (Some [[int 9; int 1]; [int (-3); int 7]]) None None
              (Some (JNumber (int 4))) None None None)
           [[int 9; int 1]; [int (-3); int 7]]).
  - exact Reference_laws.
  - reflexivity.
  - repeat constructor.
  - vm_compute. discriminate.
  - vm_compute. discriminate.
  - vm_compute. reflexivity.
  - right. vm_compute. reflexivity.
Defined.

(** C8. The end-to-end example: the grid of width 3 and height 2 with tiles
    1 0 0 / 0 0 2 flattens to [G....R], which is compressed to [G.4R]; the
    payload is [3x2:G.4R]; without parameters the token is the unpadded
    URL-safe base64 of that string, namely [M3gyOkcuNFI]; decoding the
    token gives the grid back. *)
Theorem C8_end_to_end (rt : Platform) :
  PlatformLaws rt ->
  tile_string example_grid = str "G....R"
  /\ runLengthEncode (str "G....R") = str "G.4R"
  /\ encodePayload rt example_level = str "3x2:G.4R"
  /\ encodeLevel rt example_level = base64urlEncode (str "3x2:G.4R")
  /\ base64urlEncode (str "3x2:G.4R") = str "M3gyOkcuNFI"
  /\ decodeLevel rt (str "M3gyOkcuNFI") =
       Returns (mkLevel (Some example_grid) (Some (int 3)) (Some (int 2))
                  None None None None).
Proof.
  intros laws. repeat split; try reflexivity.
  change (str "M3gyOkcuNFI") with (encodeLevel rt example_level).
  rewrite (@decodeLevel_encodeLevel rt laws example_level example_grid eq_refl);
    vm_compute; (reflexivity || discriminate).
Qed.

Lemma C8_end_to_end_witness :
  encodeLevel Reference.platform example_level = str "M3gyOkcuNFI"
  /\ decodeLevel Reference.platform (str "M3gyOkcuNFI") =
       Returns (mkLevel (Some example_grid) (Some (int 3)) (Some (int 2))
                  None None None None).
Proof.
  destruct (C8_end_to_end Reference_laws) as (_ & _ & _ & Henc & Hb64 & Hdec).
  split; [rewrite Henc; exact Hb64 | exact Hdec].
Defined.

(** C9. Take a token whose width and height, as the decoders parse them out
    of its dimensions segment, are the nonnegative integers [w] and [h].
    Whenever the server's [decodeLevel] or the editor's [decode] returns on
    it, the grid it returns has exactly [h] rows, every row has exactly [w]
    entries, every entry is a tile identifier from 0 to 7, and the level
    reports [w] and [h] as its width and height, whatever the tile data of
    the token. *)
Theorem C9_rectangular (rt : Platform) (token : jsstring) (p : LevelPayload)
    (w h : nat) :
  (decodeLevel rt token = Returns p
   /\ is_nat_number (width_of rt (main_data (base64urlDecode rt token))) w
   /\ is_nat_number (height_of rt (main_data (base64urlDecode rt token))) h)
  \/ (exists text,
        LevelEncoder.base64urlDecode rt token = Returns text
        /\ LevelEncoder.decode rt token = Returns p
        /\ is_nat_number (width_of rt (main_data text)) w
        /\ is_nat_number (height_of rt (main_data text)) h) ->
  exists rows,
    tiles p = Some rows
    /\ length rows = h
    /\ Forall (fun row => length row = w) rows
    /\ Forall (Forall is_tile_id) rows
    /\ (exists wn, width p = Some wn /\ is_nat_number wn w)
    /\ (exists hn, height p = Some hn /\ is_nat_number hn h).
Proof.
  intros [(Hdec & Hw & Hh) | (text & Htext & Hdec & Hw & Hh)].
  - apply decodeLevel_returns in Hdec.
    destruct Hdec as (s & rows & _ & Hrows & Htiles & Hwidth & Hheight).
    destruct (decode_tiles_shape _ Hrows Hw Hh) as (Hlen & Hrect & Hids).
    exists rows. repeat split; try assumption; eauto.
  - apply ui_decode_returns in Hdec.
    destruct Hdec as (decoded & s & rows & Hdecoded & _ & Hrows & Htiles & Hwidth
                      & Hheight).
    rewrite Htext in Hdecoded. injection Hdecoded as <-.
    destruct (decode_tiles_shape _ Hrows Hw Hh) as (Hlen & Hrect & Hids).
    exists rows. repeat split; try assumption; eauto.
Qed.

Lemma C9_rectangular_witness :
  exists rows,
    Some [[int 1; int 0; int 0]; [int 0; int 0; int 0]] = Some rows
    /\ length rows = 2
    /\ Forall (fun row => length row = 3) rows
    /\ Forall (Forall is_tile_id) rows
    /\ (exists wn, Some (int 3) = Some wn /\ is_nat_number wn 3)
    /\ (exists hn, Some (int 2) = Some hn /\ is_nat_number hn 2).
Proof.
  apply (@C9_rectangular Reference.platform (str "M3gyOkc")
           (mkLevel (Some [[int 1; int 0; int 0]; [int 0; int 0; int 0]])
              (Some (int 3)) (Some (int 2)) None None None None) 3 2).
  left. split; [vm_compute; reflexivity|]. split.
  - exists (inject_Z 3). split; [vm_compute; reflexivity | reflexivity].
  - exists (inject_Z 2). split; [vm_compute; reflexivity | reflexivity].
Defined.

(** C10. A grid with no row is encoded as the base64url of [0x0:], that is
    [MHgwOg]. The server decodes this token to an empty grid of width 0 and
    height 0; the editor's decoder throws "Invalid encoded level" on it,
    because the tile data after the colon is the empty string. *)
Theorem C10_empty_grid (rt : Platform) (level : LevelPayload) :
  PlatformLaws rt ->
  tiles level = Some [] ->
  ~ has_finite_param level ->
  encodePayload rt level = str "0x0:"
  /\ encodeLevel rt level = str "MHgwOg"
  /\ base64urlEncode (str "0x0:") = str "MHgwOg"
  /\ decodeLevel rt (str "MHgwOg") =
       Returns (mkLevel (Some []) (Some (int 0)) (Some (int 0)) None None None None)
  /\ nth_error (split COLON (str "0x0:")) 1 = Some []
  /\ LevelEncoder.falsy (Some []) = true
  /\ LevelEncoder.decode rt (str "MHgwOg") = Throws (Error "Invalid encoded level").
Proof.
  intros laws HG Hnone. apply finite_params_nil in Hnone.
  assert (HG' : tiles level ?? [] = []) by (rewrite HG; reflexivity).
  assert (Hpayload : encodePayload rt level = str "0x0:").
  { unfold encodePayload. rewrite HG', Hnone. reflexivity. }
  assert (Htoken : encodeLevel rt level = str "MHgwOg").
  { unfold encodeLevel. rewrite Hpayload. reflexivity. }
  repeat split; try assumption; try reflexivity.
  - rewrite <- Htoken.
    rewrite (@decodeLevel_encodeLevel rt laws level [] HG');
      [|vm_compute; (reflexivity || discriminate)..].
    rewrite (@read_back_no_params rt level [] None Hnone). reflexivity.
  - rewrite <- Htoken.
    rewrite (@ui_decode_encodeLevel rt laws level [] HG');
      [|vm_compute; (reflexivity || discriminate)..].
    reflexivity.
Qed.

Lemma C10_empty_grid_witness :
  encodeLevel Reference.platform (mkLevel (Some []) None None None None None None)
  = str "MHgwOg"
  /\ decodeLevel Reference.platform (str "MHgwOg") =
       Returns (mkLevel (Some []) (Some (int 0)) (Some (int 0)) None None None None)
  /\ LevelEncoder.decode Reference.platform (str "MHgwOg")
     = Throws (Error "Invalid encoded level").
Proof.
  assert (Hnone : ~ has_finite_param (mkLevel (Some []) None None None None None None)).
  { intros [(q & H) | [(q & H) | (q & H)]]; discriminate H. }
  destruct (@C10_empty_grid Reference.platform
              (mkLevel (Some []) None None None None None None)
              Reference_laws eq_refl Hnone)
    as (_ & Henc & _ & Hdec & _ & _ & Hui).
  repeat split; assumption.
Defined.

(* ================================================================== *)
(** * The two codecs side by side *)

(** X23. The two run-length coders are the same functions, and for every
    level with a grid the editor's encoder writes the token the server
    writes. On the token of a level whose grid has at least one tile the two
    decoders give the same outcome: the same grid, width, height and
    parameters (the editor adds the token itself to the level), or the same
    error. On the token of a grid without any tile the editor's decoder
    throws "Invalid encoded level". On any token that the two base64
    readers read alike and whose parameter block both parse alike, the
    editor's decoder is its check followed by what the server's does. *)
Theorem codecs_agree (rt : Platform) (level : LevelPayload)
    (G : list (list number)) :
  PlatformLaws rt ->
  tiles level = Some G ->
  (forall s, LevelEncoder.runLengthEncode s = runLengthEncode s)
  /\ (forall s, LevelEncoder.runLengthDecode rt s = runLengthDecode rt s)
  /\ LevelEncoder.encode rt level = Returns (encodeLevel rt level)
  /\ (tile_string G <> [] ->
      LevelEncoder.decode rt (encodeLevel rt level)
      = with_token (encodeLevel rt level) (decodeLevel rt (encodeLevel rt level)))
  /\ (tile_string G = [] ->
      LevelEncoder.decode rt (encodeLevel rt level)
      = Throws (Error "Invalid encoded level"))
  /\ (forall token decoded,
        base64urlDecode rt token = decoded ->
        LevelEncoder.base64urlDecode rt token = Returns decoded ->
        snd (LevelEncoder.split_params rt decoded) = snd (split_params rt decoded) ->
        LevelEncoder.decode rt token =
          if match dimensions_of (main_data decoded) with [] => true | _ => false end
             || LevelEncoder.falsy (tile_data_of (main_data decoded))
          then Throws (Error "Invalid encoded level")
          else with_token token (decodeLevel rt token)).
Proof.
  intros laws HG.
  assert (HG' : tiles level ?? [] = G) by (rewrite HG; reflexivity).
  split; [reflexivity|]. split; [reflexivity|].
  split; [apply (ui_encode_encodeLevel laws _ HG)|].
  assert (Hside := @decoders_side_by_side rt (encodeLevel rt level)
                     (encodePayload rt level)).
  unfold encodeLevel at 1 2 in Hside.
  specialize (Hside (base64urlDecode_encode laws (encodePayload_ascii laws level))
                (ui_base64urlDecode_encode laws (encodePayload_ascii laws level))).
  rewrite (ui_split_params_encodePayload laws _ HG') in Hside.
  rewrite (split_params_encodePayload laws _ HG') in Hside.
  specialize (Hside eq_refl).
  assert (Hmain : main_data (encodePayload rt level) = core_payload G).
  { rewrite <- (split_params_main rt), (split_params_encodePayload laws _ HG').
    reflexivity. }
  rewrite Hmain in Hside. unfold dimensions_of, tile_data_of in Hside.
  rewrite core_split in Hside. cbn [hd nth_error LevelEncoder.falsy] in Hside.
  pose proof (@dimensions_nonempty G) as Hdims.
  destruct (dimensions_text G) as [|d ds]; [contradiction|]. cbn [orb] in Hside.
  fold (encodeLevel rt level) in Hside.
  split; [|split].
  - intros Htiles. rewrite Hside.
    destruct (runLengthEncode (tile_string G)) eqn:Erle; [|reflexivity].
    apply runLengthEncode_nil in Erle. contradiction.
  - intros Htiles. rewrite Hside, Htiles. reflexivity.
  - intros token decoded Hserver Hui Hparams.
    rewrite ui_decode_views, Hui. cbn [bind]. cbv zeta. rewrite Hparams.
    rewrite decodeLevel_views, Hserver. cbv zeta.
    destruct (_ || _); [reflexivity|].
    destruct (runLengthDecode rt _); try reflexivity. cbn [bind].
    destruct (decode_tiles _ _ _); try reflexivity. cbn [bind].
    destruct (get_prop _ KEY_maxEnemies); try reflexivity. cbn [bind].
    destruct (get_prop _ KEY_enemySpawnChance); try reflexivity. cbn [bind].
    destruct (get_prop _ KEY_coinSpawnChance); reflexivity.
Qed.

Lemma codecs_agree_witness :
  LevelEncoder.encode Reference.platform example_level_with_params
  = Returns (encodeLevel Reference.platform example_level_with_params)
  /\ LevelEncoder.decode Reference.platform
       (encodeLevel Reference.platform example_level_with_params)
     = with_token (encodeLevel Reference.platform example_level_with_params)
         (decodeLevel Reference.platform
            (encodeLevel Reference.platform example_level_with_params)).
Proof.
  destruct (@codecs_agree Reference.platform example_level_with_params
              example_grid Reference_laws eq_refl)
    as (_ & _ & Henc & Hdec & _).
  split; [exact Henc|]. apply Hdec. discriminate.
Defined.

(* ================================================================== *)
(** * The tool handlers *)

(** ** Tokens are not empty *)

Lemma drop_while_last (p : char -> bool) c s :
  p c = false -> drop_while p (s ++ [c]) <> [].
Proof.
  intros Hc. induction s as [|d s IH]; cbn [app drop_while].
  - rewrite Hc. discriminate.
  - destruct (p d); [exact IH|discriminate].
Qed.

Lemma strip_padding_head c s : c <> EQUALS -> strip_padding (c :: s) <> [].
Proof.
  intros Hc H. unfold strip_padding in H.
  apply (f_equal (@rev char)) in H. rewrite rev_involutive in H. cbn [rev] in H.
  revert H. apply drop_while_last. apply N.eqb_neq. congruence.
Qed.

Lemma base64urlEncode_digit d s : is_digit d = true -> base64urlEncode (d :: s) <> [].
Proof.
  intros Hd. unfold base64urlEncode, to_urlsafe.
  assert (Hu : exists bs, utf8_encode (d :: s) = d :: bs).
  { cbn [utf8_encode]. unfold is_digit in Hd.
    apply andb_prop in Hd. destruct Hd as [H1 H2].
    apply N.leb_le in H1, H2.
    assert (Hhigh : is_high_surrogate d = false).
    { unfold is_high_surrogate. apply andb_false_intro1. apply N.leb_gt. lia. }
    assert (Hlow : is_low_surrogate d = false).
    { unfold is_low_surrogate. apply andb_false_intro1. apply N.leb_gt. lia. }
    rewrite Hhigh, Hlow. unfold utf8_of_code_point.
    destruct (N.ltb_spec d 128) as [_|H]; [|lia]. eexists. reflexivity. }
  destruct Hu as (bs & ->).
  assert (Hb : exists c cs, base64_encode (d :: bs) = c :: cs
                            /\ c <> PLUS /\ c <> SLASH /\ c <> EQUALS).
  { assert (Hc : base64_char (d / 4) <> PLUS /\ base64_char (d / 4) <> SLASH
                 /\ base64_char (d / 4) <> EQUALS).
    { unfold is_digit in Hd. apply andb_prop in Hd. destruct Hd as [H1 H2].
      apply N.leb_le in H1, H2.
      assert (Hq : (d / 4 = 12 \/ d / 4 = 13 \/ d / 4 = 14)%N).
      { zify. Z.to_euclidean_division_equations. lia. }
      destruct Hq as [-> | [-> | ->]]; repeat split; discriminate. }
    destruct bs as [|b2 [|b3 rest]]; cbn [base64_encode app];
      eexists; eexists; (split; [reflexivity|exact Hc]). }
  destruct Hb as (c & cs & -> & H1 & H2 & H3).
  cbn [replace_all map].
  apply N.eqb_neq in H1. rewrite H1.
  apply N.eqb_neq in H2. rewrite H2.
  apply strip_padding_head. assumption.
Qed.

Lemma encodeLevel_nonempty rt level : encodeLevel rt level <> [].
Proof.
  unfold encodeLevel.
  assert (H : exists d s, encodePayload rt level = d :: s /\ is_digit d = true).
  { unfold encodePayload, core_payload. cbv zeta.
    set (w := option_map _ _ ?? 0).
    pose proof (decimal_digits w) as Hdigits.
    pose proof (@decimal_nonempty w) as Hne.
    destruct (decimal w) as [|d ds]; [contradiction|].
    cbn [forallb] in Hdigits. apply andb_prop in Hdigits.
    destruct Hdigits as [Hd _].
    destruct (0 <? _); cbn [app]; eauto. }
  destruct H as (d & s & -> & Hd). apply base64urlEncode_digit. assumption.
Qed.

(** ** [normalizePayload] *)

Lemma decodeLevel_tiles rt token p :
  decodeLevel rt token = Returns p -> exists rows, tiles p = Some rows.
Proof.
  intros H. destruct (decodeLevel_returns _ _ H) as (s & rows & _ & _ & Ht & _).
  eauto.
Qed.

(** A payload with tiles and a token that is not empty is left as it is. *)
Lemma normalizePayload_kept rt p G c token :
  tiles (codec p) = Some G -> encodedLevel (codec p) = Some (c :: token) ->
  normalizePayload rt p = Returns p.
Proof.
  intros HG Htoken. unfold normalizePayload. cbv zeta.
  rewrite Htoken. cbn [falsy_string andb]. rewrite HG. cbn [bind].
  rewrite HG, Htoken. reflexivity.
Qed.

(** A payload that is a token alone gets what the token decodes to. *)
Lemma normalizePayload_token rt c token :
  normalizePayload rt (token_payload (c :: token)) =
    decoded <- decodeLevel rt (c :: token) ;;
    Returns (spread_decoded (token_payload (c :: token)) decoded).
Proof.
  unfold normalizePayload. cbv zeta. cbn [token_payload codec encodedLevel tiles
    falsy_string andb].
  destruct (decodeLevel rt (c :: token)) as [p| |] eqn:E; try reflexivity.
  cbn [bind]. destruct (decodeLevel_tiles _ _ E) as (rows & Hrows).
  cbn [spread_decoded codec tiles encodedLevel token_payload]. rewrite Hrows.
  reflexivity.
Qed.

(** ** Properties of the handlers *)

Ltac normalized_fields :=
  cbn [codec tiles encodedLevel set_encodedLevel spread_decoded name description
       encoded_level falsy_string andb negb bind] in *.

Ltac through_decodeLevel :=
  match goal with
  | |- context [decodeLevel ?rt ?token] =>
      let E := fresh "Edecoded" in
      let rows := fresh "rows" in
      let Hrows := fresh "Hrows" in
      destruct (decodeLevel rt token) as [?decoded| |] eqn:E;
      [destruct (decodeLevel_tiles _ _ E) as (rows & Hrows);
       normalized_fields; rewrite ?Hrows; normalized_fields
      |normalized_fields; try discriminate ..]
  end.

(** X1. What [normalizePayload] returns has tiles exactly when it has a
    token, and its token is never the empty string. *)
Theorem normalizePayload_tiles_and_token rt p q :
  normalizePayload rt p = Returns q ->
  (tiles (codec q) = None <-> encodedLevel (codec q) = None)
  /\ encodedLevel (codec q) <> Some [].
Proof.
  destruct p as [[t w h m e c tok] n d el].
  unfold normalizePayload. cbv zeta. normalized_fields.
  destruct tok as [[|x tok]|]; destruct el as [[|y el]|]; normalized_fields;
    destruct t as [G|]; normalized_fields; try through_decodeLevel;
    intros H; injection H as <-; normalized_fields;
    repeat split; try discriminate; try congruence;
    intros H; injection H as H; revert H; apply encodeLevel_nonempty.
Qed.

Lemma normalizePayload_tiles_and_token_witness :
  exists q,
    normalizePayload Reference.platform
      (mkPayload example_level None (Some (str "two rows")) None) = Returns q
    /\ (tiles (codec q) = None <-> encodedLevel (codec q) = None)
    /\ encodedLevel (codec q) <> Some [].
Proof.
  eexists. split; [vm_compute; reflexivity|].
  apply (@normalizePayload_tiles_and_token Reference.platform
           (mkPayload example_level None (Some (str "two rows")) None)).
  vm_compute. reflexivity.
Defined.

(** X2. [normalizePayload] is idempotent: what it returns, it returns
    unchanged when it is given it again. In particular a token that is
    there is never computed again. *)
Theorem normalizePayload_idempotent rt p q :
  normalizePayload rt p = Returns q -> normalizePayload rt q = Returns q.
Proof.
  destruct p as [[t w h m e c tok] n d el].
  unfold normalizePayload at 1. cbv zeta. normalized_fields.
  destruct tok as [[|x tok]|]; destruct el as [[|y el]|]; normalized_fields;
    destruct t as [G|]; normalized_fields; try through_decodeLevel;
    intros H; injection H as <-;
    try (eapply normalizePayload_kept; normalized_fields;
         first [reflexivity | eassumption]);
    try reflexivity.
  all: match goal with
       | |- context [encodeLevel ?r ?l] =>
           pose proof (encodeLevel_nonempty r l) as Hne;
           destruct (encodeLevel r l) eqn:Etoken; [contradiction|]
       end.
  all: eapply normalizePayload_kept; normalized_fields;
    first [reflexivity | eassumption].
Qed.

Lemma normalizePayload_idempotent_witness :
  normalizePayload Reference.platform
    (mkPayload (mkLevel (Some example_grid) (Some (int 3)) (Some (int 2))
                  None None None (Some (str "M3gyOkcuNFI"))) None None None)
  = Returns (mkPayload (mkLevel (Some example_grid) (Some (int 3)) (Some (int 2))
                          None None None (Some (str "M3gyOkcuNFI"))) None None None).
Proof.
  apply (@normalizePayload_idempotent Reference.platform
           (token_payload (str "M3gyOkcuNFI"))).
  vm_compute. reflexivity.
Defined.

(** ** Numbers that are integers *)

Lemma integer_value_Qeq n z :
  integer_value n = Some z -> exists q, n = Finite q /\ Qeq q (inject_Z z).
Proof.
  destruct n as [| | |q]; cbn [integer_value]; try discriminate.
  destruct (Qeq_bool q (inject_Z (Qfloor q))) eqn:E; [|discriminate].
  intros H. injection H as <-. exists q. split; [reflexivity|].
  apply Qeq_bool_iff. assumption.
Qed.

Lemma integer_value_int z : integer_value (int z) = Some z.
Proof.
  unfold int, integer_value. rewrite Qfloor_Z.
  rewrite (proj2 (Qeq_bool_iff _ _) (Qeq_refl (inject_Z z))). reflexivity.
Qed.

Lemma number_leb_integer k n z :
  integer_value n = Some z -> number_leb (int k) n = (k <=? z)%Z.
Proof.
  intros H. destruct (integer_value_Qeq _ H) as (q & -> & Hq).
  unfold int. cbn [number_leb].
  rewrite (Qleb_comp _ _ (Qeq_refl (inject_Z k)) _ _ Hq). apply Qle_bool_int.
Qed.

Lemma number_ltb_integer k n z :
  integer_value n = Some z -> number_ltb n (int k) = (z <? k)%Z.
Proof.
  intros H. destruct (integer_value_Qeq _ H) as (q & -> & Hq).
  unfold int. cbn [number_ltb].
  rewrite (Qleb_comp _ _ (Qeq_refl (inject_Z k)) _ _ Hq), Qle_bool_int.
  rewrite Z.ltb_antisym. reflexivity.
Qed.

Lemma element_index_nat {A} (a : list A) r :
  r < length a -> element_index a (num_of_nat r) = Some r.
Proof.
  intros Hr. unfold element_index, num_of_nat. rewrite integer_value_int.
  destruct (Z.leb_spec 0 (Z.of_nat r)); [|lia].
  destruct (Z.ltb_spec (Z.of_nat r) (Z.of_nat (length a))); [|lia].
  cbn [andb]. rewrite Nat2Z.id. reflexivity.
Qed.

Lemma element_index_bound {A} (a : list A) n r :
  element_index a n = Some r -> r < length a /\ integer_value n = Some (Z.of_nat r).
Proof.
  unfold element_index. destruct (integer_value n) as [z|]; [|discriminate].
  destruct (Z.leb_spec 0 z) as [H0|H0]; [|discriminate].
  destruct (Z.ltb_spec z (Z.of_nat (length a))) as [H1|H1]; [|discriminate].
  cbn [andb]. intros H. injection H as <-. split; [lia|].
  rewrite Z2Nat.id by assumption. reflexivity.
Qed.

Lemma array_set_nat {A} (a : list A) c v :
  c < length a -> array_set a (num_of_nat c) v = Some (replace_at c a v).
Proof.
  intros Hc. unfold array_set, num_of_nat. rewrite integer_value_int.
  destruct (Z.ltb_spec (Z.of_nat c) 0); [lia|].
  destruct (Z.ltb_spec (Z.of_nat c) (Z.of_nat (length a))); [|lia].
  rewrite Nat2Z.id. reflexivity.
Qed.

(** Past the check of the column, the assignment stays inside the row. *)
Lemma array_set_checked {A} (a : list A) n v :
  number_leb (num_of_nat (length a)) n = false ->
  exists a', array_set a n v = Some a' /\ length a' = length a.
Proof.
  intros Hcheck. unfold array_set.
  destruct (integer_value n) as [z|] eqn:Ez; [|eauto].
  unfold num_of_nat in Hcheck. rewrite (@number_leb_integer _ _ _ Ez) in Hcheck.
  apply Z.leb_gt in Hcheck.
  destruct (Z.ltb_spec z 0); [eauto|].
  destruct (Z.ltb_spec z (Z.of_nat (length a))); [|lia].
  eexists. split; [reflexivity|].
  clear. revert a. induction (Z.to_nat z) as [|i IH]; intros [|x a];
    cbn [replace_at length]; auto.
Qed.

Lemma nth_replace_at {A} i j (a : list A) v d :
  i < length a -> nth j (replace_at i a v) d = if j =? i then v else nth j a d.
Proof.
  revert j a. induction i as [|i IH]; intros j [|x a] Hi; cbn [length] in Hi;
    try lia; cbn [replace_at].
  - destruct j; reflexivity.
  - destruct j as [|j]; [reflexivity|]. cbn [nth]. rewrite IH by lia. reflexivity.
Qed.

(** ** Decoded grids are rectangular, whatever the dimensions were *)

Lemma decode_tiles_rows wn hn s rows :
  decode_tiles wn hn s = Returns rows -> exists h w, rows = rows_loop h w s 0 [].
Proof.
  unfold decode_tiles.
  destruct (loop_count hn) as [[|h]|]; destruct (loop_count wn) as [w|];
    intros H; try discriminate; injection H as <-.
  - exists 0, 0. reflexivity.
  - exists 0, 0. reflexivity.
  - exists (S h), w. reflexivity.
Qed.

Lemma decodeLevel_rectangular rt token p G :
  decodeLevel rt token = Returns p -> tiles p = Some G ->
  Forall (fun row => length row = first_width G) G
  /\ Forall (Forall is_tile_id) G.
Proof.
  intros Hp HG.
  destruct (decodeLevel_returns _ _ Hp) as (s & rows & _ & Hrows & Ht & _).
  rewrite HG in Ht. injection Ht as ->.
  destruct (decode_tiles_rows _ _ _ Hrows) as (h & w & ->).
  destruct (rows_loop_shape h w s) as (Hlen & Hrect & Hids & _).
  split; [|assumption].
  destruct h as [|h].
  - cbn [rows_loop]. constructor.
  - rewrite (first_width_rectangular Hrect) by lia. assumption.
Qed.

Lemma nth_row_length w (G : list (list number)) r :
  Forall (fun row => length row = w) G -> r < length G -> length (nth r G []) = w.
Proof.
  intros Hrect Hr. rewrite Forall_forall in Hrect. apply Hrect, nth_In. assumption.
Qed.

Lemma first_row_length_nonempty G :
  length G <> 0 -> first_row_length G = Returns (first_width G).
Proof.
  destruct G as [|row G]; [contradiction|]. reflexivity.
Qed.

(** ** The tools on a decoded token *)

Lemma edit_level_tile_checked rt c token p G row col t :
  decodeLevel rt (c :: token) = Returns p -> tiles p = Some G -> length G <> 0 ->
  number_ltb row (int 0) || number_leb (num_of_nat (length G)) row = false ->
  number_ltb col (int 0) || number_leb (num_of_nat (first_width G)) col = false ->
  number_ltb t (int 0) || number_ltb (int 7) t = false ->
  edit_level_tile rt (c :: token) row col t =
    match assign_tile G row col t with
    | Returns (Some G') =>
        Returns
          (Some (Content
                   (str "Tile updated at row " ++ String_of_number rt row
                      ++ str ", col " ++ String_of_number rt col
                      ++ str " to type " ++ String_of_number rt t
                      ++ str "." ++ [NEWLINE] ++ str "Encoded: " ++ c :: token)
                   (Some (mkPayload
                            (mkLevel (Some G') (width p) (height p) (maxEnemies p)
                               (enemySpawnChance p) (coinSpawnChance p)
                               (Some (c :: token)))
                            None None (Some (c :: token))))))
    | Returns None => Returns None
    | Throws e => Returns (Some (Caught (str "Error processing level: ") e))
    | Diverges => Diverges
    end.
Proof.
  intros Hp HG Hlen Hrow Hcol Htile.
  unfold edit_level_tile. cbn [falsy_string].
  rewrite normalizePayload_token, Hp. cbn [bind].
  cbn [spread_decoded token_payload codec tiles name description encoded_level
       encodedLevel].
  rewrite HG. cbn [nullish].
  destruct (Nat.eqb_spec (length G) 0) as [H0|_]; [contradiction|].
  rewrite Hrow, (@first_row_length_nonempty G Hlen). cbn [bind].
  rewrite Hcol, Htile.
  destruct (assign_tile G row col t) as [[G'|]| |]; cbn [bind try_catch];
    reflexivity.
Qed.

Lemma number_leb_not_ltb a b : number_leb b a = true -> number_ltb a b = false.
Proof.
  destruct a as [| | |p], b as [| | |q]; cbn [number_leb number_ltb];
    try reflexivity; try discriminate.
  intros ->. reflexivity.
Qed.

Lemma row_check_nat k r :
  r < k ->
  number_ltb (num_of_nat r) (int 0) || number_leb (num_of_nat k) (num_of_nat r) = false.
Proof.
  intros Hr. unfold num_of_nat.
  rewrite (@number_ltb_integer 0 _ _ (integer_value_int (Z.of_nat r))).
  rewrite (@number_leb_integer (Z.of_nat k) _ _ (integer_value_int (Z.of_nat r))).
  destruct (Z.ltb_spec (Z.of_nat r) 0); [lia|].
  destruct (Z.leb_spec (Z.of_nat k) (Z.of_nat r)); [lia|]. reflexivity.
Qed.

Lemma assign_tile_nat G r c t :
  r < length G -> c < length (nth r G []) ->
  assign_tile G (num_of_nat r) (num_of_nat c) t =
    Returns (Some (replace_at r G (replace_at c (nth r G []) t))).
Proof.
  intros Hr Hc. unfold assign_tile.
  rewrite (@element_index_nat _ G r Hr), (@array_set_nat _ (nth r G []) c t Hc). reflexivity.
Qed.

(** X4. On a token that decodes to the grid [G], for a row and a column
    inside the grid and a number from 0 to 7, whole or not,
    [edit_level_tile] answers with the grid in which that one cell holds
    the new number and every other cell is as before. The token in the
    answer is the token that was given, not a token of the new grid. *)
Theorem edit_level_tile_in_range rt token p G r c t :
  token <> [] ->
  decodeLevel rt token = Returns p -> tiles p = Some G ->
  r < length G -> c < first_width G ->
  number_leb (int 0) t = true -> number_leb t (int 7) = true ->
  let G' := replace_at r G (replace_at c (nth r G []) t) in
  edit_level_tile rt token (num_of_nat r) (num_of_nat c) t =
    Returns
      (Some (Content
               (str "Tile updated at row " ++ String_of_number rt (num_of_nat r)
                  ++ str ", col " ++ String_of_number rt (num_of_nat c)
                  ++ str " to type " ++ String_of_number rt t
                  ++ str "." ++ [NEWLINE] ++ str "Encoded: " ++ token)
               (Some (mkPayload
                        (mkLevel (Some G') (width p) (height p) (maxEnemies p)
                           (enemySpawnChance p) (coinSpawnChance p) (Some token))
                        None None (Some token)))))
  /\ nth c (nth r G' []) NaN = t
  /\ forall y x, y <> r \/ x <> c ->
       nth x (nth y G' []) NaN = nth x (nth y G []) NaN.
Proof.
  intros Htoken Hp HG Hr Hc Hlow Hhigh G'.
  destruct token as [|k token]; [contradiction|].
  destruct (decodeLevel_rectangular _ _ Hp HG) as [Hrect _].
  assert (Hcells : length (nth r G []) = first_width G)
    by (apply (@nth_row_length _ G r Hrect Hr)).
  split; [|split].
  - rewrite (@edit_level_tile_checked rt k token p G).
    + rewrite assign_tile_nat by (rewrite ?Hcells; assumption). reflexivity.
    + assumption.
    + assumption.
    + lia.
    + apply row_check_nat. assumption.
    + apply row_check_nat. assumption.
    + rewrite (@number_leb_not_ltb _ _ Hlow), (@number_leb_not_ltb _ _ Hhigh).
      reflexivity.
  - unfold G'. rewrite (@nth_replace_at _ r r G _ [] Hr), Nat.eqb_refl.
    rewrite nth_replace_at by (rewrite Hcells; assumption).
    rewrite Nat.eqb_refl. reflexivity.
  - intros y x Hyx. unfold G'. rewrite (@nth_replace_at _ r y G _ [] Hr).
    destruct (Nat.eqb_spec y r) as [->|Hy]; [|reflexivity].
    rewrite nth_replace_at by (rewrite Hcells; assumption).
    destruct (Nat.eqb_spec x c) as [->|Hx]; [|reflexivity].
    destruct Hyx; contradiction.
Qed.

Lemma edit_level_tile_in_range_witness :
  edit_level_tile Reference.platform (str "M3gyOkcuNFI") (int 0) (int 1) (int 5) =
    Returns
      (Some (Content
               (str "Tile updated at row 0, col 1 to type 5." ++ [NEWLINE]
                  ++ str "Encoded: M3gyOkcuNFI")
               (Some (mkPayload
                        (mkLevel (Some [[int 1; int 5; int 0]; [int 0; int 0; int 2]])
                           (Some (int 3)) (Some (int 2)) None None None
                           (Some (str "M3gyOkcuNFI")))
                        None None (Some (str "M3gyOkcuNFI")))))).
Proof.
  destruct (@edit_level_tile_in_range Reference.platform (str "M3gyOkcuNFI")
              (mkLevel (Some example_grid) (Some (int 3)) (Some (int 2))
                 None None None None)
              example_grid 0 1 (int 5)) as [H _].
  - discriminate.
  - vm_compute. reflexivity.
  - reflexivity.
  - cbn. lia.
  - cbn. lia.
  - reflexivity.
  - reflexivity.
  - exact H.
Defined.

Lemma edit_level_tile_decoded rt c token p G row col t :
  decodeLevel rt (c :: token) = Returns p -> tiles p = Some G ->
  edit_level_tile rt (c :: token) row col t =
    if length G =? 0
    then Returns (Some (Content (str "Error: Invalid tiles array after decoding.") None))
    else if number_ltb row (int 0) || number_leb (num_of_nat (length G)) row
    then Returns (Some (Content (out_of_range rt "row" "rows" row (length G)) None))
    else if number_ltb col (int 0) || number_leb (num_of_nat (first_width G)) col
    then Returns
           (Some (Content (out_of_range rt "column" "columns" col (first_width G)) None))
    else if number_ltb t (int 0) || number_ltb (int 7) t
    then Returns
           (Some (Content
                    (str "Error: Invalid tile type " ++ String_of_number rt t
                       ++ str ". Valid types are 0-7.") None))
    else edit_level_tile rt (c :: token) row col t.
Proof.
  intros Hp HG. unfold edit_level_tile at 1. cbn [falsy_string].
  rewrite normalizePayload_token, Hp. cbn [bind].
  cbn [spread_decoded token_payload codec tiles name description encoded_level
       encodedLevel].
  rewrite HG. cbn [nullish].
  destruct (Nat.eqb_spec (length G) 0) as [H0|Hlen]; [reflexivity|].
  destruct (number_ltb row (int 0) || number_leb (num_of_nat (length G)) row) eqn:Hrow;
    [reflexivity|].
  rewrite (@first_row_length_nonempty G Hlen). cbn [bind].
  destruct (number_ltb col (int 0) || number_leb (num_of_nat (first_width G)) col)
    eqn:Hcol; [reflexivity|].
  destruct (number_ltb t (int 0) || number_ltb (int 7) t) eqn:Htile; [reflexivity|].
  symmetry. unfold edit_level_tile. cbn [falsy_string].
  rewrite normalizePayload_token, Hp. cbn [bind].
  cbn [spread_decoded token_payload codec tiles name description encoded_level
       encodedLevel].
  rewrite HG. cbn [nullish].
  destruct (Nat.eqb_spec (length G) 0) as [H0|_]; [contradiction|].
  rewrite Hrow, (@first_row_length_nonempty G Hlen). cbn [bind].
  rewrite Hcol, Htile. reflexivity.
Qed.

Lemma length_zero_iff {A} (l : list A) : (length l =? 0) = true <-> l = [].
Proof. destruct l; cbn; split; intros H; congruence. Qed.

(** X5. What [edit_level_tile] refuses, each with a text and without
    structured content: an empty token; a token that [decodeLevel] throws on
    (the error is caught); a token of a grid without rows; a row below 0 or
    not below the number of rows; a column below 0 or not below the length
    of the first row; a tile below 0 or above 7. *)
Theorem edit_level_tile_refuses rt token row col t :
  (token = [] ->
   edit_level_tile rt token row col t =
     Returns (Some (Content (str "Error: encoded_level is required.") None)))
  /\ (forall e,
        token <> [] -> decodeLevel rt token = Throws e ->
        edit_level_tile rt token row col t =
          Returns (Some (Caught (str "Error processing level: ") e)))
  /\ (forall p G,
        token <> [] -> decodeLevel rt token = Returns p -> tiles p = Some G ->
        (G = [] ->
         edit_level_tile rt token row col t =
           Returns (Some (Content (str "Error: Invalid tiles array after decoding.")
                            None)))
        /\ (G <> [] ->
            number_ltb row (int 0) = true
            \/ number_leb (num_of_nat (length G)) row = true ->
            edit_level_tile rt token row col t =
              Returns (Some (Content (out_of_range rt "row" "rows" row (length G))
                               None)))
        /\ (G <> [] ->
            number_ltb row (int 0) = false ->
            number_leb (num_of_nat (length G)) row = false ->
            number_ltb col (int 0) = true
            \/ number_leb (num_of_nat (first_width G)) col = true ->
            edit_level_tile rt token row col t =
              Returns (Some (Content
                               (out_of_range rt "column" "columns" col (first_width G))
                               None)))
        /\ (G <> [] ->
            number_ltb row (int 0) = false ->
            number_leb (num_of_nat (length G)) row = false ->
            number_ltb col (int 0) = false ->
            number_leb (num_of_nat (first_width G)) col = false ->
            number_ltb t (int 0) = true \/ number_ltb (int 7) t = true ->
            edit_level_tile rt token row col t =
              Returns (Some (Content
                               (str "Error: Invalid tile type "
                                  ++ String_of_number rt t
                                  ++ str ". Valid types are 0-7.") None)))).
Proof.
  split; [|split].
  - intros ->. reflexivity.
  - intros e Htoken He. destruct token as [|c token]; [contradiction|].
    unfold edit_level_tile. cbn [falsy_string].
    rewrite normalizePayload_token, He. reflexivity.
  - intros p G Htoken Hp HG. destruct token as [|c token]; [contradiction|].
    rewrite (@edit_level_tile_decoded rt c token p G row col t Hp HG).
    split; [|split; [|split]].
    + intros ->. reflexivity.
    + intros HGne Hrow.
      destruct (length G =? 0) eqn:E; [apply length_zero_iff in E; contradiction|].
      replace (number_ltb row (int 0) || number_leb (num_of_nat (length G)) row)
        with true; [reflexivity|].
      destruct Hrow as [-> | ->]; [reflexivity|rewrite orb_true_r; reflexivity].
    + intros HGne Hrow1 Hrow2 Hcol.
      destruct (length G =? 0) eqn:E; [apply length_zero_iff in E; contradiction|].
      rewrite Hrow1, Hrow2. cbn [orb].
      replace (number_ltb col (int 0) || number_leb (num_of_nat (first_width G)) col)
        with true; [reflexivity|].
      destruct Hcol as [-> | ->]; [reflexivity|rewrite orb_true_r; reflexivity].
    + intros HGne Hrow1 Hrow2 Hcol1 Hcol2 Htile.
      destruct (length G =? 0) eqn:E; [apply length_zero_iff in E; contradiction|].
      rewrite Hrow1, Hrow2, Hcol1, Hcol2. cbn [orb].
      replace (number_ltb t (int 0) || number_ltb (int 7) t) with true; [reflexivity|].
      destruct Htile as [-> | ->]; [reflexivity|rewrite orb_true_r; reflexivity].
Qed.

Lemma edit_level_tile_refuses_witness :
  edit_level_tile Reference.platform (str "M3gyOkcuNFI") (int 2) (int 0) (int 1) =
    Returns (Some (Content (str "Error: Invalid row 2. Level has 2 rows (0-1).") None))
  /\ edit_level_tile Reference.platform (str "bm90LWEtbGV2ZWw") (int 0) (int 0) (int 1) =
       Returns (Some (Caught (str "Error processing level: ") TypeError)).
Proof.
  split.
  - destruct (edit_level_tile_refuses Reference.platform (str "M3gyOkcuNFI")
                (int 2) (int 0) (int 1)) as (_ & _ & H).
    destruct (H (mkLevel (Some example_grid) (Some (int 3)) (Some (int 2))
                   None None None None) example_grid)
      as (_ & Hrow & _).
    + discriminate.
    + vm_compute. reflexivity.
    + reflexivity.
    + apply Hrow; [discriminate|]. right. reflexivity.
  - destruct (edit_level_tile_refuses Reference.platform (str "bm90LWEtbGV2ZWw")
                (int 0) (int 0) (int 1)) as (_ & H & _).
    apply H; [discriminate|]. vm_compute. reflexivity.
Defined.

Lemma replace_at_same {A} r (a : list A) d : replace_at r a (nth r a d) = a.
Proof.
  revert a. induction r as [|r IH]; intros [|x a]; cbn [replace_at nth];
    try reflexivity.
  rewrite IH. reflexivity.
Qed.

(** X6. Numbers that are not whole pass the checks of [edit_level_tile]
    when they are in range. A row that is not an integer then names no row:
    the assignment throws, and the answer is the text of the caught
    [TypeError]. A column that is not an integer names no cell: the answer
    reports an update, and its grid is the grid as it was. *)
Theorem edit_level_tile_fraction rt token p G row col t :
  token <> [] -> decodeLevel rt token = Returns p -> tiles p = Some G -> G <> [] ->
  number_ltb row (int 0) || number_leb (num_of_nat (length G)) row = false ->
  number_ltb col (int 0) || number_leb (num_of_nat (first_width G)) col = false ->
  number_ltb t (int 0) || number_ltb (int 7) t = false ->
  (integer_value row = None ->
   edit_level_tile rt token row col t =
     Returns (Some (Caught (str "Error processing level: ") TypeError)))
  /\ (forall z, integer_value row = Some z -> integer_value col = None ->
      edit_level_tile rt token row col t =
        Returns
          (Some (Content
                   (str "Tile updated at row " ++ String_of_number rt row
                      ++ str ", col " ++ String_of_number rt col
                      ++ str " to type " ++ String_of_number rt t
                      ++ str "." ++ [NEWLINE] ++ str "Encoded: " ++ token)
                   (Some (mkPayload
                            (mkLevel (Some G) (width p) (height p) (maxEnemies p)
                               (enemySpawnChance p) (coinSpawnChance p) (Some token))
                            None None (Some token)))))).
Proof.
  intros Htoken Hp HG HGne Hrow Hcol Htile.
  destruct token as [|c token]; [contradiction|].
  assert (Hlen : length G <> 0) by (destruct G; [contradiction|discriminate]).
  rewrite (@edit_level_tile_checked rt c token p G row col t Hp HG Hlen Hrow Hcol Htile).
  split.
  - intros Hint. unfold assign_tile, element_index. rewrite Hint. reflexivity.
  - intros z Hz Hint. unfold assign_tile, element_index. rewrite Hz.
    apply orb_false_elim in Hrow. destruct Hrow as [Hrow1 Hrow2].
    rewrite (@number_ltb_integer 0 row z Hz) in Hrow1.
    unfold num_of_nat in Hrow2. rewrite (@number_leb_integer _ row z Hz) in Hrow2.
    apply Z.ltb_ge in Hrow1. apply Z.leb_gt in Hrow2.
    destruct (Z.leb_spec 0 z); [|lia].
    destruct (Z.ltb_spec z (Z.of_nat (length G))); [|lia]. cbn [andb].
    unfold array_set. rewrite Hint, replace_at_same. reflexivity.
Qed.

Lemma edit_level_tile_fraction_witness :
  edit_level_tile Reference.platform (str "M3gyOkcuNFI") (Finite (1 # 2)) (int 0) (int 1)
  = Returns (Some (Caught (str "Error processing level: ") TypeError)).
Proof.
  destruct (@edit_level_tile_fraction Reference.platform (str "M3gyOkcuNFI")
              (mkLevel (Some example_grid) (Some (int 3)) (Some (int 2))
                 None None None None)
              example_grid (Finite (1 # 2)) (int 0) (int 1)) as [H _].
  - discriminate.
  - vm_compute. reflexivity.
  - reflexivity.
  - discriminate.
  - reflexivity.
  - reflexivity.
  - reflexivity.
  - apply H. reflexivity.
Defined.

Lemma number_eqb_nat i r : number_eqb (num_of_nat i) (num_of_nat r) = (i =? r).
Proof.
  unfold num_of_nat, int. cbn [number_eqb].
  destruct (Nat.eqb_spec i r) as [->|Hne].
  - apply Qeq_bool_iff. reflexivity.
  - destruct (Qeq_bool _ _) eqn:E; [|reflexivity].
    apply Qeq_bool_iff in E. unfold Qeq in E. cbn in E. lia.
Qed.

Lemma replace_row_miss (G : list (list number)) row newRow : forall start,
  (forall i, start <= i < start + length G -> number_eqb (num_of_nat i) row = false) ->
  map (fun ir => if number_eqb (num_of_nat (fst ir)) row then newRow else snd ir)
    (combine (seq start (length G)) G)
  = G.
Proof.
  induction G as [|cells G IH]; intros start Hmiss;
    cbn [length seq combine map fst snd]; [reflexivity|].
  rewrite Hmiss by (cbn [length]; lia). f_equal. apply IH.
  intros i Hi. apply Hmiss. cbn [length]. lia.
Qed.

Lemma replace_row_from (G : list (list number)) newRow : forall start r,
  map (fun ir => if number_eqb (num_of_nat (fst ir)) (num_of_nat (start + r))
                 then newRow else snd ir)
    (combine (seq start (length G)) G)
  = replace_at r G newRow.
Proof.
  induction G as [|cells G IH]; intros start r; cbn [length seq combine map fst snd].
  - destruct r; reflexivity.
  - rewrite number_eqb_nat. destruct r as [|r]; cbn [replace_at].
    + rewrite Nat.add_0_r, Nat.eqb_refl. f_equal. apply replace_row_miss.
      intros i Hi. rewrite number_eqb_nat. apply Nat.eqb_neq. lia.
    + destruct (Nat.eqb_spec start (start + S r)) as [H|_]; [lia|]. f_equal.
      rewrite <- (IH (S start) r). replace (S start + r) with (start + S r) by lia.
      reflexivity.
Qed.

Lemma replace_row_nat G r newRow :
  replace_row G (num_of_nat r) newRow = replace_at r G newRow.
Proof. apply (replace_row_from G newRow 0 r). Qed.

Lemma number_eqb_fraction i row :
  integer_value row = None -> number_eqb (num_of_nat i) row = false.
Proof.
  destruct row as [| | |q]; try reflexivity. cbn [integer_value number_eqb].
  destruct (Qeq_bool q (inject_Z (Qfloor q))) eqn:E; [discriminate|]. intros _.
  unfold num_of_nat, int. cbn [number_eqb].
  destruct (Qeq_bool (inject_Z (Z.of_nat i)) q) eqn:E'; [|reflexivity].
  apply Qeq_bool_iff in E'. exfalso.
  assert (Hq : Qeq q (inject_Z (Qfloor q))).
  { rewrite <- E'. rewrite Qfloor_Z. reflexivity. }
  apply Qeq_bool_iff in Hq. congruence.
Qed.

Lemma edit_level_row_decoded rt c token p G row newRow :
  decodeLevel rt (c :: token) = Returns p -> tiles p = Some G ->
  edit_level_row rt (c :: token) row newRow =
    if length G =? 0
    then Returns (Content (str "Error: Invalid tiles array after decoding.") None)
    else if number_ltb row (int 0) || number_leb (num_of_nat (length G)) row
    then Returns (Content (out_of_range rt "row" "rows" row (length G)) None)
    else if negb (length newRow =? first_width G)
    then Returns
           (Content
              (str "Error: Row length mismatch. Expected " ++ decimal (first_width G)
                 ++ str " tiles, got " ++ decimal (length newRow) ++ str ".") None)
    else Returns
           (Content
              (str "Row " ++ String_of_number rt row ++ str " updated." ++ [NEWLINE]
                 ++ str "Encoded: " ++ c :: token)
              (Some (mkPayload
                       (mkLevel (Some (replace_row G row newRow)) (width p) (height p)
                          (maxEnemies p) (enemySpawnChance p) (coinSpawnChance p)
                          (Some (c :: token)))
                       None None (Some (c :: token))))).
Proof.
  intros Hp HG. unfold edit_level_row. cbn [falsy_string].
  rewrite normalizePayload_token, Hp. cbn [bind].
  cbn [spread_decoded token_payload codec tiles name description encoded_level
       encodedLevel].
  rewrite HG. cbn [nullish].
  destruct (Nat.eqb_spec (length G) 0) as [H0|Hlen]; [reflexivity|].
  destruct (number_ltb row (int 0) || number_leb (num_of_nat (length G)) row);
    [reflexivity|].
  rewrite (@first_row_length_nonempty G Hlen). cbn [bind].
  destruct (negb (length newRow =? first_width G)); reflexivity.
Qed.

(** X7. On a token that decodes to the grid [G], for a row inside the grid
    and a new row as long as the first row of [G], [edit_level_row] answers
    with the grid in which that row is the new row and every other row is
    as before, whatever numbers the new row holds: they are not checked.
    The token in the answer is the token that was given. *)
Theorem edit_level_row_in_range rt token p G r newRow :
  token <> [] ->
  decodeLevel rt token = Returns p -> tiles p = Some G ->
  r < length G -> length newRow = first_width G ->
  let G' := replace_at r G newRow in
  edit_level_row rt token (num_of_nat r) newRow =
    Returns
      (Content
         (str "Row " ++ String_of_number rt (num_of_nat r) ++ str " updated."
            ++ [NEWLINE] ++ str "Encoded: " ++ token)
         (Some (mkPayload
                  (mkLevel (Some G') (width p) (height p) (maxEnemies p)
                     (enemySpawnChance p) (coinSpawnChance p) (Some token))
                  None None (Some token))))
  /\ nth r G' [] = newRow
  /\ forall y, y <> r -> nth y G' [] = nth y G [].
Proof.
  intros Htoken Hp HG Hr Hlen G'.
  destruct token as [|c token]; [contradiction|].
  split; [|split].
  - rewrite (@edit_level_row_decoded rt c token p G _ newRow Hp HG).
    destruct (Nat.eqb_spec (length G) 0) as [H0|_]; [lia|].
    rewrite (row_check_nat Hr), Hlen, Nat.eqb_refl. cbn [negb].
    rewrite replace_row_nat. reflexivity.
  - unfold G'. rewrite (@nth_replace_at _ r r G newRow [] Hr), Nat.eqb_refl.
    reflexivity.
  - intros y Hy. unfold G'. rewrite (@nth_replace_at _ r y G newRow [] Hr).
    destruct (Nat.eqb_spec y r); [contradiction|reflexivity].
Qed.

Lemma edit_level_row_in_range_witness :
  edit_level_row Reference.platform (str "M3gyOkcuNFI") (int 1) [int 9; int 9; int 9] =
    Returns
      (Content
         (str "Row 1 updated." ++ [NEWLINE] ++ str "Encoded: M3gyOkcuNFI")
         (Some (mkPayload
                  (mkLevel (Some [[int 1; int 0; int 0]; [int 9; int 9; int 9]])
                     (Some (int 3)) (Some (int 2)) None None None
                     (Some (str "M3gyOkcuNFI")))
                  None None (Some (str "M3gyOkcuNFI"))))).
Proof.
  destruct (@edit_level_row_in_range Reference.platform (str "M3gyOkcuNFI")
              (mkLevel (Some example_grid) (Some (int 3)) (Some (int 2))
                 None None None None)
              example_grid 1 [int 9; int 9; int 9]) as [H _].
  - discriminate.
  - vm_compute. reflexivity.
  - reflexivity.
  - cbn. lia.
  - reflexivity.
  - exact H.
Defined.

(** X8. What [edit_level_row] does at the edges. A new row of another
    length than the first row of the grid is refused with a text. A row
    number in range that is not an integer equals the index of no row: the
    answer reports an update, and its grid is the grid as it was. *)
Theorem edit_level_row_edges rt token p G row newRow :
  token <> [] -> decodeLevel rt token = Returns p -> tiles p = Some G -> G <> [] ->
  number_ltb row (int 0) || number_leb (num_of_nat (length G)) row = false ->
  (length newRow <> first_width G ->
   edit_level_row rt token row newRow =
     Returns
       (Content
          (str "Error: Row length mismatch. Expected " ++ decimal (first_width G)
             ++ str " tiles, got " ++ decimal (length newRow) ++ str ".") None))
  /\ (length newRow = first_width G -> integer_value row = None ->
      edit_level_row rt token row newRow =
        Returns
          (Content
             (str "Row " ++ String_of_number rt row ++ str " updated." ++ [NEWLINE]
                ++ str "Encoded: " ++ token)
             (Some (mkPayload
                      (mkLevel (Some G) (width p) (height p) (maxEnemies p)
                         (enemySpawnChance p) (coinSpawnChance p) (Some token))
                      None None (Some token))))).
Proof.
  intros Htoken Hp HG HGne Hrow.
  destruct token as [|c token]; [contradiction|].
  rewrite (@edit_level_row_decoded rt c token p G row newRow Hp HG), Hrow.
  destruct (Nat.eqb_spec (length G) 0) as [H0|_].
  { destruct G; [contradiction|discriminate]. }
  split.
  - intros Hlen. destruct (Nat.eqb_spec (length newRow) (first_width G));
      [contradiction|reflexivity].
  - intros Hlen Hint. rewrite Hlen, Nat.eqb_refl. cbn [negb].
    unfold replace_row. rewrite replace_row_miss; [reflexivity|].
    intros i _. apply number_eqb_fraction. assumption.
Qed.

Lemma edit_level_row_edges_witness :
  edit_level_row Reference.platform (str "M3gyOkcuNFI") (int 0) [int 1; int 1] =
    Returns
      (Content (str "Error: Row length mismatch. Expected 3 tiles, got 2.") None).
Proof.
  destruct (@edit_level_row_edges Reference.platform (str "M3gyOkcuNFI")
              (mkLevel (Some example_grid) (Some (int 3)) (Some (int 2))
                 None None None None)
              example_grid (int 0) [int 1; int 1]) as [H _].
  - discriminate.
  - vm_compute. reflexivity.
  - reflexivity.
  - discriminate.
  - reflexivity.
  - apply H. cbn. lia.
Defined.

(** X9. [edit_level_metadata] on a token that decodes: the answer has the
    decoded grid, the name and description of the call, and for each
    parameter the number of the call or, without one, what the token held.
    The token in the answer is the token that was given: it still holds
    the parameters from before the call. *)
Theorem edit_level_metadata_keeps_token rt token p new_name new_description
    max_enemies enemy_spawn_chance coin_spawn_chance :
  token <> [] -> decodeLevel rt token = Returns p ->
  edit_level_metadata rt token new_name new_description
    max_enemies enemy_spawn_chance coin_spawn_chance =
    Returns
      (Content
         (str "Metadata updated." ++ [NEWLINE] ++ str "Encoded: " ++ token)
         (Some (mkPayload
                  (mkLevel (tiles p) (width p) (height p)
                     (number_or max_enemies (maxEnemies p))
                     (number_or enemy_spawn_chance (enemySpawnChance p))
                     (number_or coin_spawn_chance (coinSpawnChance p))
                     (Some token))
                  new_name new_description (Some token)))).
Proof.
  intros Htoken Hp. destruct token as [|c token]; [contradiction|].
  unfold edit_level_metadata. cbn [falsy_string].
  rewrite normalizePayload_token, Hp. cbn [bind].
  cbn [spread_decoded token_payload codec tiles name description encoded_level
       encodedLevel width height maxEnemies enemySpawnChance coinSpawnChance].
  destruct (decodeLevel_tiles _ _ Hp) as (G & HG).
  rewrite (@normalizePayload_kept rt _ G c token) by (cbn; assumption || reflexivity).
  cbn [bind try_catch structured codec name description encodedLevel template_string
       nullish string_or].
  destruct new_name, new_description; reflexivity.
Qed.

Lemma edit_level_metadata_keeps_token_witness :
  edit_level_metadata Reference.platform (str "M3gyOkcuNFI")
    (Some (str "Cave")) None (Some (int 9)) None None =
    Returns
      (Content
         (str "Metadata updated." ++ [NEWLINE] ++ str "Encoded: M3gyOkcuNFI")
         (Some (mkPayload
                  (mkLevel (Some example_grid) (Some (int 3)) (Some (int 2))
                     (Some (JNumber (int 9))) None None (Some (str "M3gyOkcuNFI")))
                  (Some (str "Cave")) None (Some (str "M3gyOkcuNFI")))))
  /\ decodeLevel Reference.platform (str "M3gyOkcuNFI") =
       Returns (mkLevel (Some example_grid) (Some (int 3)) (Some (int 2))
                  None None None None).
Proof.
  split.
  - apply (@edit_level_metadata_keeps_token Reference.platform (str "M3gyOkcuNFI")
             (mkLevel (Some example_grid) (Some (int 3)) (Some (int 2))
                None None None None)).
    + discriminate.
    + vm_compute. reflexivity.
  - vm_compute. reflexivity.
Defined.

(** ** Tokens that the tools make *)

Lemma decodeLevel_of_encodeLevel rt level G :
  PlatformLaws rt ->
  tiles level = Some G ->
  Forall (fun row => length row = first_width G) G ->
  array_fits (first_width G) -> array_fits (length G) ->
  fits (length G * first_width G) ->
  Forall (Forall is_tile_id) G ->
  finite_or_absent (maxEnemies level) ->
  finite_or_absent (enemySpawnChance level) ->
  finite_or_absent (coinSpawnChance level) ->
  json_round_trip rt (finite_params level) ->
  decodeLevel rt (encodeLevel rt level) =
    Returns (mkLevel (Some G) (Some (num_of_nat (first_width G)))
               (Some (num_of_nat (length G)))
               (maxEnemies level) (enemySpawnChance level) (coinSpawnChance level)
               None).
Proof.
  intros laws HG Hrect Hw Hh Hcells Hids Hmax Henemy Hcoin Hjson.
  assert (HG' : tiles level ?? [] = G) by (rewrite HG; reflexivity).
  rewrite <- (tile_string_length Hrect) in Hcells.
  rewrite (decodeLevel_encodeLevel laws level HG' Hw Hh Hcells).
  rewrite (@read_back_params rt level G None Hjson).
  rewrite (reread_rectangular Hrect), (normalise_grid Hids).
  rewrite !kept_finite by assumption. reflexivity.
Qed.

Lemma decode_level_from_url_decoded rt token p :
  token <> [] -> decodeLevel rt token = Returns p ->
  decode_level_from_url rt token =
    Returns
      (Content
         (str "Decoded level: " ++ template_number rt (width p) ++ str "x"
            ++ template_number rt (height p) ++ [NEWLINE] ++ str "Encoded: " ++ token)
         (Some (mkPayload
                  (mkLevel (tiles p) (width p) (height p) (maxEnemies p)
                     (enemySpawnChance p) (coinSpawnChance p) (Some token))
                  None None (Some token)))).
Proof.
  intros Htoken Hp. destruct token as [|c token]; [contradiction|].
  unfold decode_level_from_url. cbn [falsy_string].
  rewrite normalizePayload_token, Hp. reflexivity.
Qed.

(** X10. [decode_level_from_url] answers an empty token with a text; on any
    other token it answers with the caught error when [decodeLevel] throws,
    and when [decodeLevel] returns, with the decoded grid, width, height
    and parameters, and the token itself as [encodedLevel] and as
    [encoded_level]. *)
Theorem decode_level_from_url_cases rt token :
  (token = [] ->
   decode_level_from_url rt token =
     Returns (Content (str "Error: encoded_level is required.") None))
  /\ (forall e, token <> [] -> decodeLevel rt token = Throws e ->
      decode_level_from_url rt token =
        Returns (Caught (str "Error decoding level: ") e))
  /\ (forall p, token <> [] -> decodeLevel rt token = Returns p ->
      decode_level_from_url rt token =
        Returns
          (Content
             (str "Decoded level: " ++ template_number rt (width p) ++ str "x"
                ++ template_number rt (height p) ++ [NEWLINE] ++ str "Encoded: "
                ++ token)
             (Some (mkPayload
                      (mkLevel (tiles p) (width p) (height p) (maxEnemies p)
                         (enemySpawnChance p) (coinSpawnChance p) (Some token))
                      None None (Some token))))).
Proof.
  split; [|split].
  - intros ->. reflexivity.
  - intros e Htoken He. destruct token as [|c token]; [contradiction|].
    unfold decode_level_from_url. cbn [falsy_string].
    rewrite normalizePayload_token, He. reflexivity.
  - intros p. apply decode_level_from_url_decoded.
Qed.

Lemma decode_level_from_url_cases_witness :
  decode_level_from_url Reference.platform (str "M3gyOkcuNFI") =
    Returns
      (Content
         (str "Decoded level: 3x2" ++ [NEWLINE] ++ str "Encoded: M3gyOkcuNFI")
         (Some (mkPayload
                  (mkLevel (Some example_grid) (Some (int 3)) (Some (int 2))
                     None None None (Some (str "M3gyOkcuNFI")))
                  None None (Some (str "M3gyOkcuNFI")))))
  /\ decode_level_from_url Reference.platform (str "bm90LWEtbGV2ZWw") =
       Returns (Caught (str "Error decoding level: ") TypeError).
Proof.
  split.
  - destruct (decode_level_from_url_cases Reference.platform (str "M3gyOkcuNFI"))
      as (_ & _ & H).
    apply (H (mkLevel (Some example_grid) (Some (int 3)) (Some (int 2))
                None None None None)).
    + discriminate.
    + vm_compute. reflexivity.
  - destruct (decode_level_from_url_cases Reference.platform (str "bm90LWEtbGV2ZWw"))
      as (_ & H & _).
    apply H; [discriminate|]. vm_compute. reflexivity.
Defined.

(** X11. [edit_entire_level] answers with the new tiles, their width and
    height, the arguments, and a new token. For a rectangular grid of tile
    identifiers from 0 to 7 and finite parameters, [decode_level_from_url]
    on that token gives the same tiles, width, height and parameters back;
    the name and the description are not in the token. *)
Theorem edit_entire_level_round_trip rt G new_name new_description
    max_enemies enemy_spawn_chance coin_spawn_chance :
  let level :=
    mkLevel (Some G) (Some (num_of_nat (first_width G))) (Some (num_of_nat (length G)))
      (option_map JNumber max_enemies) (option_map JNumber enemy_spawn_chance)
      (option_map JNumber coin_spawn_chance) None in
  let token := encodeLevel rt level in
  PlatformLaws rt ->
  Forall (fun row => length row = first_width G) G ->
  array_fits (first_width G) -> array_fits (length G) ->
  fits (length G * first_width G) ->
  Forall (Forall is_tile_id) G ->
  finite_or_absent (option_map JNumber max_enemies) ->
  finite_or_absent (option_map JNumber enemy_spawn_chance) ->
  finite_or_absent (option_map JNumber coin_spawn_chance) ->
  json_round_trip rt (finite_params level) ->
  edit_entire_level rt G new_name new_description
    max_enemies enemy_spawn_chance coin_spawn_chance =
    Returns
      (Content
         (str "Level updated (" ++ String_of_number rt (num_of_nat (first_width G))
            ++ str "x" ++ String_of_number rt (num_of_nat (length G)) ++ str ")."
            ++ [NEWLINE] ++ str "Encoded: " ++ token)
         (Some (mkPayload (set_encodedLevel (Some token) level)
                  new_name new_description (Some token))))
  /\ decode_level_from_url rt token =
       Returns
         (Content
            (str "Decoded level: " ++ String_of_number rt (num_of_nat (first_width G))
               ++ str "x" ++ String_of_number rt (num_of_nat (length G))
               ++ [NEWLINE] ++ str "Encoded: " ++ token)
            (Some (mkPayload (set_encodedLevel (Some token) level)
                     None None (Some token)))).
Proof.
  intros level token laws Hrect Hw Hh Hcells Hids Hmax Henemy Hcoin Hjson.
  split; [reflexivity|].
  rewrite (@decode_level_from_url_decoded rt token
             (mkLevel (Some G) (Some (num_of_nat (first_width G)))
                (Some (num_of_nat (length G)))
                (maxEnemies level) (enemySpawnChance level) (coinSpawnChance level)
                None)).
  - reflexivity.
  - apply encodeLevel_nonempty.
  - apply (@decodeLevel_of_encodeLevel rt level G); auto.
Qed.

Lemma edit_entire_level_round_trip_witness :
  edit_entire_level Reference.platform example_grid (Some (str "Cave")) None
    (Some (int 5)) None (Some (int 12)) =
    Returns
      (Content
         (str "Level updated (3x2)." ++ [NEWLINE]
            ++ str "Encoded: M3gyOkcuNFJ8ZXlKdFlYaEZibVZ0YVdWeklqbzFMQ0pqYjJsdVUzQmhkMjVEYUdGdVkyVWlPakV5ZlE")
         (Some (mkPayload
                  (mkLevel (Some example_grid) (Some (int 3)) (Some (int 2))
                     (Some (JNumber (int 5))) None (Some (JNumber (int 12)))
                     (Some (str "M3gyOkcuNFJ8ZXlKdFlYaEZibVZ0YVdWeklqbzFMQ0pqYjJsdVUzQmhkMjVEYUdGdVkyVWlPakV5ZlE")))
                  (Some (str "Cave")) None
                  (Some (str "M3gyOkcuNFJ8ZXlKdFlYaEZibVZ0YVdWeklqbzFMQ0pqYjJsdVUzQmhkMjVEYUdGdVkyVWlPakV5ZlE")))))
  /\ decode_level_from_url Reference.platform
       (str "M3gyOkcuNFJ8ZXlKdFlYaEZibVZ0YVdWeklqbzFMQ0pqYjJsdVUzQmhkMjVEYUdGdVkyVWlPakV5ZlE") =
       Returns
         (Content
            (str "Decoded level: 3x2" ++ [NEWLINE]
               ++ str "Encoded: M3gyOkcuNFJ8ZXlKdFlYaEZibVZ0YVdWeklqbzFMQ0pqYjJsdVUzQmhkMjVEYUdGdVkyVWlPakV5ZlE")
            (Some (mkPayload
                     (mkLevel (Some example_grid) (Some (int 3)) (Some (int 2))
                        (Some (JNumber (int 5))) None (Some (JNumber (int 12)))
                        (Some (str "M3gyOkcuNFJ8ZXlKdFlYaEZibVZ0YVdWeklqbzFMQ0pqYjJsdVUzQmhkMjVEYUdGdVkyVWlPakV5ZlE")))
                     None None
                     (Some (str "M3gyOkcuNFJ8ZXlKdFlYaEZibVZ0YVdWeklqbzFMQ0pqYjJsdVUzQmhkMjVEYUdGdVkyVWlPakV5ZlE"))))).
Proof.
  apply (@edit_entire_level_round_trip Reference.platform example_grid
           (Some (str "Cave")) None (Some (int 5)) None (Some (int 12))).
  - exact Reference_laws.
  - repeat constructor.
  - vm_compute. discriminate.
  - vm_compute. discriminate.
  - vm_compute. reflexivity.
  - repeat (constructor; [repeat (constructor; [eexists; split; [|reflexivity]; lia|]);
                          constructor|]); constructor.
  - right. eexists. reflexivity.
  - left. reflexivity.
  - right. eexists. reflexivity.
  - right. vm_compute. reflexivity.
Defined.

(** X12. [create_level] answers with the tiles and with the width and the
    height of the call as they are, whether or not they are the size of
    the tiles (a missing one is printed as [undefined]). The token is that of
    the tiles and the parameters: for a rectangular grid of tile
    identifiers from 0 to 7 and finite parameters it decodes to the tiles
    with the length of their first row as width and their number of rows
    as height. *)
Theorem create_level_reports_arguments rt level_name description0 G w h
    max_enemies enemy_spawn_chance coin_spawn_chance :
  let level :=
    mkLevel (Some G) w h
      (option_map JNumber max_enemies) (option_map JNumber enemy_spawn_chance)
      (option_map JNumber coin_spawn_chance) None in
  let token := encodeLevel rt level in
  PlatformLaws rt ->
  Forall (fun row => length row = first_width G) G ->
  array_fits (first_width G) -> array_fits (length G) ->
  fits (length G * first_width G) ->
  Forall (Forall is_tile_id) G ->
  finite_or_absent (option_map JNumber max_enemies) ->
  finite_or_absent (option_map JNumber enemy_spawn_chance) ->
  finite_or_absent (option_map JNumber coin_spawn_chance) ->
  json_round_trip rt (finite_params level) ->
  create_level rt level_name description0 G w h
    max_enemies enemy_spawn_chance coin_spawn_chance =
    Returns
      (Content
         (str "Created level '" ++ level_name ++ str "' ("
            ++ template_number rt w ++ str "x" ++ template_number rt h ++ str ")."
            ++ [NEWLINE] ++ str "Encoded: " ++ token)
         (Some (mkPayload (set_encodedLevel (Some token) level)
                  (Some level_name) (Some description0) (Some token))))
  /\ decodeLevel rt token =
       Returns (mkLevel (Some G) (Some (num_of_nat (first_width G)))
                  (Some (num_of_nat (length G)))
                  (option_map JNumber max_enemies)
                  (option_map JNumber enemy_spawn_chance)
                  (option_map JNumber coin_spawn_chance) None).
Proof.
  intros level token laws Hrect Hw Hh Hcells Hids Hmax Henemy Hcoin Hjson.
  split; [reflexivity|].
  apply (@decodeLevel_of_encodeLevel rt level G); auto.
Qed.

Lemma create_level_reports_arguments_witness :
  create_level Reference.platform (str "Cave") (str "A cave") example_grid
    (Some (int 10)) None None None None =
    Returns
      (Content
         (str "Created level 'Cave' (10xundefined)." ++ [NEWLINE]
            ++ str "Encoded: M3gyOkcuNFI")
         (Some (mkPayload
                  (mkLevel (Some example_grid) (Some (int 10)) None None None None
                     (Some (str "M3gyOkcuNFI")))
                  (Some (str "Cave")) (Some (str "A cave"))
                  (Some (str "M3gyOkcuNFI")))))
  /\ decodeLevel Reference.platform (str "M3gyOkcuNFI") =
       Returns (mkLevel (Some example_grid) (Some (int 3)) (Some (int 2))
                  None None None None).
Proof.
  apply (@create_level_reports_arguments Reference.platform (str "Cave")
           (str "A cave") example_grid (Some (int 10)) None None None None).
  - exact Reference_laws.
  - repeat constructor.
  - vm_compute. discriminate.
  - vm_compute. discriminate.
  - vm_compute. reflexivity.
  - repeat (constructor; [repeat (constructor; [eexists; split; [|reflexivity]; lia|]);
                          constructor|]); constructor.
  - left. reflexivity.
  - left. reflexivity.
  - left. reflexivity.
  - left. reflexivity.
Defined.

Lemma map_length_replace_at {A} r (G : list (list A)) cells :
  length cells = length (nth r G []) ->
  map (@length A) (replace_at r G cells) = map (@length A) G.
Proof.
  revert G. induction r as [|r IH]; intros [|row G] Hcells; cbn [replace_at map];
    try reflexivity.
  - cbn [nth] in Hcells. rewrite Hcells. reflexivity.
  - cbn [nth] in Hcells. rewrite (IH G Hcells). reflexivity.
Qed.

(** X3. [edit_level_tile] never writes outside the grid that it decoded.
    The assignment [tiles[row][col] = newTile] is reached only with a column
    inside the row it writes to, although the column is checked against the
    first row alone: every decoded grid is rectangular. So no reply is built
    on a row that the assignment has lengthened or left with a hole, and a
    reply that carries a level reports a grid with the rows and the row
    lengths of the decoded grid. *)
Theorem edit_level_tile_stays_in_row rt token row col t reply :
  edit_level_tile rt token row col t = Returns reply ->
  exists r,
    reply = Some r
    /\ forall text q G',
         r = Content text (Some q) -> tiles (codec q) = Some G' ->
         exists p G,
           decodeLevel rt token = Returns p
           /\ tiles p = Some G
           /\ map (@length number) G' = map (@length number) G.
Proof.
  destruct token as [|c token].
  { intros H. injection H as <-. eexists. split; [reflexivity|]. discriminate. }
  destruct (decodeLevel rt (c :: token)) as [p| |] eqn:Hp.
  - destruct (decodeLevel_tiles _ _ Hp) as (G & HG).
    destruct (decodeLevel_rectangular _ _ Hp HG) as [Hrect _].
    rewrite (@edit_level_tile_decoded rt c token p G row col t Hp HG).
    destruct (Nat.eqb_spec (length G) 0) as [H0|Hlen].
    { intros H. injection H as <-. eexists. split; [reflexivity|]. discriminate. }
    destruct (number_ltb row (int 0) || number_leb (num_of_nat (length G)) row)
      eqn:Hrow.
    { intros H. injection H as <-. eexists. split; [reflexivity|]. discriminate. }
    destruct (number_ltb col (int 0) || number_leb (num_of_nat (first_width G)) col)
      eqn:Hcol.
    { intros H. injection H as <-. eexists. split; [reflexivity|]. discriminate. }
    destruct (number_ltb t (int 0) || number_ltb (int 7) t) eqn:Htile.
    { intros H. injection H as <-. eexists. split; [reflexivity|]. discriminate. }
    rewrite (@edit_level_tile_checked rt c token p G row col t Hp HG Hlen Hrow Hcol
               Htile).
    apply orb_false_elim in Hcol. destruct Hcol as [_ Hcol].
    unfold assign_tile.
    destruct (element_index G row) as [r|] eqn:Er.
    + destruct (element_index_bound _ _ Er) as [Hr _].
      rewrite <- (@nth_row_length _ G r Hrect Hr) in Hcol.
      destruct (@array_set_checked number (nth r G []) col t Hcol)
        as (cells & Hcells & Hsame).
      rewrite Hcells. intros H. injection H as <-.
      eexists. split; [reflexivity|].
      intros text q G' Hreply HG'. injection Hreply as _ <-.
      cbn [codec tiles] in HG'. injection HG' as <-.
      exists p, G. split; [reflexivity|]. split; [assumption|].
      apply map_length_replace_at. assumption.
    + intros H. injection H as <-. eexists. split; [reflexivity|]. discriminate.
  - unfold edit_level_tile. cbn [falsy_string].
    rewrite normalizePayload_token, Hp. cbn [bind try_catch].
    intros H. injection H as <-. eexists. split; [reflexivity|]. discriminate.
  - unfold edit_level_tile. cbn [falsy_string].
    rewrite normalizePayload_token, Hp. cbn [bind try_catch]. discriminate.
Qed.

Lemma edit_level_tile_stays_in_row_witness :
  exists r,
    edit_level_tile Reference.platform (str "M3gyOkcuNFI") (int 1) (Finite (5 # 2))
      (int 4) = Returns (Some r)
    /\ forall text q G',
         r = Content text (Some q) -> tiles (codec q) = Some G' ->
         map (@length number) G' = [3; 3].
Proof.
  destruct (@edit_level_tile_stays_in_row Reference.platform (str "M3gyOkcuNFI")
              (int 1) (Finite (5 # 2)) (int 4) _ eq_refl) as (r & Hr & Hshape).
  exists r. split; [rewrite <- Hr; vm_compute; reflexivity|].
  intros text q G' Hreply HG'.
  destruct (Hshape text q G' Hreply HG') as (p & G & Hp & HG & ->).
  vm_compute in Hp. injection Hp as <-. cbn [tiles] in HG. injection HG as <-.
  reflexivity.
Defined.

(* ================================================================== *)
(** * The editor *)






Section EditorFacts.
Variable rt : Platform.
Hypothesis laws : PlatformLaws rt.

End EditorFacts.

Lemma resized_rows G w h :
  length (resized G w h) = h /\ Forall (fun row => length row = w) (resized G w h).
Proof.
  unfold resized. split.
  - rewrite length_map, length_seq. reflexivity.
  - apply Forall_forall. intros row Hin. apply in_map_iff in Hin.
    destruct Hin as (y & <- & _). rewrite length_map, length_seq. reflexivity.
Qed.








(** ** The resize button *)

Lemma Qtruncate_at_least k q :
  (0 <= k)%Z -> Qle_bool (inject_Z k) q = true -> (k <= Qtruncate q)%Z.
Proof.
  intros Hk H. apply Qle_bool_iff in H. unfold Qle in H. cbn in H.
  unfold Qtruncate. rewrite Z.mul_1_r in H.
  assert (Hnum : (0 <= Qnum q)%Z) by nia.
  rewrite Z.quot_div_nonneg by lia.
  apply Z.div_le_lower_bound; lia.
Qed.

Lemma array_like_length_at_least k n rows :
  number_leb (num_of_nat k) n = true -> array_like_length n = Returns rows ->
  k <= rows.
Proof.
  destruct n as [| | |q]; cbn [number_leb array_like_length num_of_nat int];
    try discriminate.
  intros Hle. pose proof (@Qtruncate_at_least (Z.of_nat k) q (Nat2Z.is_nonneg k) Hle) as Hk.
  destruct (Z.leb_spec (Qtruncate q) 0) as [H0|H0].
  - intros H. injection H as <-. lia.
  - destruct (Qtruncate q <=? MAX_ARRAY_LENGTH)%Z; [|discriminate].
    intros H. injection H as <-. lia.
Qed.

Lemma refreshEncoded_tiles rt st st' o :
  refreshEncoded rt st = (st', o) ->
  tiles (codec (currentLevel st')) = tiles (codec (currentLevel st)).
Proof.
  unfold refreshEncoded. destruct (LevelEncoder.encode rt _);
    intros H; injection H as <- _; reflexivity.
Qed.

Lemma render_and_sync_tiles rt st st' o :
  (renderGrid >> syncInputsFromLevel rt) st = (st', o) ->
  tiles (codec (currentLevel st')) = tiles (codec (currentLevel st)).
Proof.
  unfold and_then at 1. unfold renderGrid.
  destruct (tiles (codec (currentLevel st))) eqn:Ht.
  - unfold syncInputsFromLevel, and_then.
    destruct (width (codec (currentLevel st))), (height (codec (currentLevel st)));
      try (intros H; injection H as <- _; assumption).
    intros H. apply refreshEncoded_tiles in H. congruence.
  - intros H. injection H as <- _. assumption.
Qed.

(** X15. The resize button never makes a level smaller than 10 by 10:
    after a click that ends well, the level is as it was, or its grid has
    at least 10 rows, all of the same length, of at least 10 cells. *)
Theorem resize_click_at_least_ten rt widthText heightText st st' :
  resize_click rt widthText heightText st = (st', Returns tt) ->
  st' = st
  \/ exists G' w,
       tiles (codec (currentLevel st')) = Some G'
       /\ 10 <= length G' /\ 10 <= w
       /\ Forall (fun row => length row = w) G'.
Proof.
  unfold resize_click. cbv zeta.
  destruct (number_leb (int 10) (StringToNumber rt widthText)) eqn:Hw;
    [|intros H; injection H as <-; left; reflexivity].
  destruct (number_leb (int 10) (StringToNumber rt heightText)) eqn:Hh;
    [|intros H; injection H as <-; left; reflexivity].
  cbn [andb]. unfold resizeLevel.
  destruct (resized_tiles (currentLevel st) _ _) as [newTiles| |] eqn:Hresized;
    try discriminate.
  intros Hstep. right. apply render_and_sync_tiles in Hstep.
  cbn [currentLevel codec tiles] in Hstep.
  unfold resized_tiles in Hresized.
  destruct (array_like_length (StringToNumber rt heightText)) as [rows| |] eqn:Hrows;
    try discriminate.
  pose proof (@array_like_length_at_least 10 _ rows Hh Hrows) as Hrows10.
  cbn [bind] in Hresized. destruct rows as [|rows]; [lia|].
  destruct (array_like_length (StringToNumber rt widthText)) as [cells| |] eqn:Hcells;
    try discriminate.
  pose proof (@array_like_length_at_least 10 _ cells Hw Hcells) as Hcells10.
  cbn [bind] in Hresized. destruct cells as [|cells]; [lia|].
  destruct (tiles (codec (currentLevel st))) as [G|]; [|discriminate].
  injection Hresized as <-.
  exists (resized G (S cells) (S rows)), (S cells).
  destruct (resized_rows G (S cells) (S rows)) as [Hlen Hrect].
  rewrite Hlen. auto.
Qed.

Lemma resize_click_at_least_ten_witness :
  let st := mkEditor (mkPayload example_level None None None) (str "Editing") in
  let st' := fst (resize_click Reference.platform (str "12") (str "10") st) in
  st' = st
  \/ exists G' w,
       tiles (codec (currentLevel st')) = Some G'
       /\ 10 <= length G' /\ 10 <= w
       /\ Forall (fun row => length row = w) G'.
Proof.
  apply (@resize_click_at_least_ten Reference.platform (str "12") (str "10")).
  vm_compute. reflexivity.
Defined.

(** ** Loading a level *)








(** ** The token of the editor *)

Section TokenInvariant.
Variable rt : Platform.
Hypothesis laws : PlatformLaws rt.








End TokenInvariant.

(* ================================================================== *)
(** * The decoders of the two players *)

Lemma replace_all_padding a b k :
  a <> EQUALS -> replace_all a b (repeat EQUALS k) = repeat EQUALS k.
Proof.
  intros Ha. unfold replace_all. induction k as [|k IH]; [reflexivity|].
  cbn [repeat map]. rewrite IH. destruct (N.eqb_spec EQUALS a); [congruence|].
  reflexivity.
Qed.

Lemma replace_all_app a b x y :
  replace_all a b (x ++ y) = replace_all a b x ++ replace_all a b y.
Proof. apply map_app. Qed.

Lemma replace_all_length a b s : length (replace_all a b s) = length s.
Proof. apply length_map. Qed.

(** The frame pads after the replacements, the editor before: the text
    given to [atob] is the same. *)
Lemma frame_base64urlDecode_eq rt text :
  frame_base64urlDecode rt text = LevelEncoder.base64urlDecode rt text.
Proof.
  unfold frame_base64urlDecode, LevelEncoder.base64urlDecode, from_urlsafe.
  cbv zeta. f_equal. rewrite !replace_all_app, !replace_all_length.
  rewrite !replace_all_padding by discriminate. reflexivity.
Qed.

Lemma charToTile_charTiles c : charToTile c = charTiles c ?? int 0.
Proof.
  unfold charToTile, charTiles.
  repeat match goal with
         | |- context [if ?b then _ else _] => destruct b; [reflexivity|]
         end.
  reflexivity.
Qed.

Lemma frame_row_loop_eq turns s : forall idx row,
  frame_row_loop turns s idx row = row_loop turns s idx row.
Proof.
  induction turns as [|turns IH]; intros idx row; [reflexivity|].
  cbn [frame_row_loop row_loop]. rewrite IH. f_equal. f_equal. f_equal.
  rewrite charToTile_charTiles. f_equal.
  destruct (Nat.ltb_spec idx (length s)) as [Hlt|Hge].
  - rewrite (nth_error_nth' s DOT Hlt). reflexivity.
  - apply nth_error_None in Hge. rewrite Hge. reflexivity.
Qed.

Lemma frame_rows_loop_eq turns w s : forall idx tiles,
  frame_rows_loop turns w s idx tiles = rows_loop turns w s idx tiles.
Proof.
  induction turns as [|turns IH]; intros idx tiles; [reflexivity|].
  cbn [frame_rows_loop rows_loop]. rewrite frame_row_loop_eq.
  destruct (row_loop w s idx []) as [row idx']. apply IH.
Qed.

Lemma frame_tiles_eq wn hn s : frame_tiles wn hn s = decode_tiles wn hn s.
Proof.
  unfold frame_tiles, decode_tiles.
  destruct (loop_count hn) as [[|h]|]; destruct (loop_count wn) as [w|];
    try reflexivity.
  rewrite frame_rows_loop_eq. reflexivity.
Qed.

Section FrameRunLength.
Variable parseInt : jsstring -> number.
Hypothesis parseInt_decimal :
  forall ds, ds <> [] -> forallb is_digit ds = true ->
    (decimal_value ds < 9007199254740992)%N ->
    parseInt ds = int (Z.of_N (decimal_value ds)).

Lemma frame_rld_enough n : forall input f1 f2 result,
  length input <= n -> length input <= f1 -> length input <= f2 ->
  frame_rld_loop parseInt f1 input result = frame_rld_loop parseInt f2 input result.
Proof.
  induction n as [|n IH]; intros input f1 f2 result Hn H1 H2.
  - destruct input; [|cbn in Hn; lia]. destruct f1, f2; reflexivity.
  - destruct input as [|c rest]; [destruct f1, f2; reflexivity|].
    cbn [length] in *. destruct f1 as [|f1]; [lia|]. destruct f2 as [|f2]; [lia|].
    cbn [frame_rld_loop].
    destruct ((c =? DOT)%N && starts_with_digit rest).
    + pose proof (take_digits_length rest) as Hlen.
      destruct (take_digits rest) as [numStr rest']. cbn [snd] in Hlen.
      destruct (dots_for (or_zero (parseInt numStr))); cbn [bind]; auto.
      apply IH; lia.
    + apply IH; lia.
Qed.

Lemma frame_rld_cons c rest result :
  frame_rld_loop parseInt (length (c :: rest)) (c :: rest) result =
    if (c =? DOT)%N && starts_with_digit rest
    then
      let (numStr, rest') := take_digits rest in
      dots <- dots_for (or_zero (parseInt numStr)) ;;
      frame_rld_loop parseInt (length rest') rest' (result ++ dots)
    else frame_rld_loop parseInt (length rest) rest (result ++ [c]).
Proof.
  cbn [length frame_rld_loop].
  destruct ((c =? DOT)%N && starts_with_digit rest); [|reflexivity].
  pose proof (take_digits_length rest) as Hlen.
  destruct (take_digits rest) as [numStr rest']. cbn [snd] in Hlen.
  destruct (dots_for (or_zero (parseInt numStr))); cbn [bind]; auto.
  apply frame_rld_enough with (n := length rest'); lia.
Qed.

Lemma dots_for_nat n :
  dots_for (or_zero (int (Z.of_N (N.of_nat n)))) = Returns (repeat DOT n).
Proof.
  unfold int. cbn [or_zero dots_for]. rewrite Qle_bool_int_0, Qceiling_Z.
  destruct (Z.leb_spec (Z.of_N (N.of_nat n)) 0) as [H0|H0].
  - replace n with 0 by lia. reflexivity.
  - replace (Z.to_nat (Z.of_N (N.of_nat n))) with n by lia. reflexivity.
Qed.

Lemma frame_rld_image_dots n tail result :
  readable (Dots n) -> starts_with_digit tail = false ->
  frame_rld_loop parseInt (length (image (Dots n) ++ tail)) (image (Dots n) ++ tail)
    result
  = frame_rld_loop parseInt (length tail) tail (result ++ repeat DOT n).
Proof.
  intros Hn Htail. cbn [image readable] in *.
  destruct (Nat.ltb_spec 2 n) as [Hlong|Hshort].
  - cbn [app]. rewrite frame_rld_cons, N.eqb_refl, starts_with_digit_decimal.
    cbn [andb]. rewrite take_digits_app by (auto using decimal_digits).
    rewrite parseInt_decimal by
      (auto using decimal_nonempty, decimal_digits; rewrite decimal_value_decimal; lia).
    rewrite decimal_value_decimal, dots_for_nat. reflexivity.
  - assert (Hcases : n = 0 \/ n = 1 \/ n = 2) by lia.
    destruct Hcases as [-> | [-> | ->]]; cbn [repeat app].
    + rewrite app_nil_r. reflexivity.
    + rewrite frame_rld_cons, Htail, andb_false_r. reflexivity.
    + rewrite frame_rld_cons. cbn [starts_with_digit]. rewrite andb_false_r.
      rewrite frame_rld_cons, Htail, andb_false_r, <- app_assoc. reflexivity.
Qed.

Lemma frame_rld_blocks bs : forall result,
  Forall readable bs ->
  frame_rld_loop parseInt (length (flat_map image bs)) (flat_map image bs) result
  = Returns (result ++ flat_map expand bs).
Proof.
  induction bs as [|b bs IH]; intros result Hall.
  - cbn. rewrite app_nil_r. reflexivity.
  - inversion Hall as [|? ? Hb Hbs]; subst. cbn [flat_map].
    destruct b as [n|c].
    + rewrite frame_rld_image_dots by (auto using readable_starts).
      rewrite IH by assumption. rewrite <- app_assoc. reflexivity.
    + cbn [image expand app readable] in *. destruct Hb as [Hc Hd].
      rewrite frame_rld_cons. destruct (N.eqb_spec c DOT); [contradiction|].
      cbn [andb]. rewrite IH by assumption. rewrite <- app_assoc. reflexivity.
Qed.

Lemma frame_runLengthDecode_encode s :
  Forall (fun c => is_digit c = false) s ->
  (N.of_nat (length s) < 9007199254740992)%N ->
  frame_runLengthDecode parseInt (runLengthEncode s) = Returns s.
Proof.
  intros Hs Hlen. unfold frame_runLengthDecode. rewrite runLengthEncode_blocks.
  rewrite frame_rld_blocks by (apply blocks_from_readable; auto).
  unfold blocks_of. rewrite blocks_from_expand. reflexivity.
Qed.
End FrameRunLength.

Lemma body_not_line_terminator s :
  forallb is_body_char s = true ->
  forallb (fun d => negb (is_line_terminator d)) s = true.
Proof.
  intros H. apply forallb_forall. intros c Hin.
  rewrite forallb_forall in H. specialize (H c Hin).
  unfold is_body_char in H. apply orb_prop in H. unfold is_line_terminator.
  destruct H as [H|H].
  - unfold is_digit in H. apply andb_prop in H. destruct H as [H1 H2].
    apply N.leb_le in H1, H2.
    repeat match goal with
           | |- context [(c =? ?k)%N] => destruct (N.eqb_spec c k); [lia|]
           end.
    reflexivity.
  - apply tile_char_cases in H.
    repeat destruct H as [H|H]; subst; reflexivity.
Qed.

Lemma match_level_core G :
  match_level (core_payload G) =
    Some (decimal (first_width G), decimal (length G),
          runLengthEncode (tile_string G)).
Proof.
  unfold match_level, core_payload. fold (first_width G).
  rewrite take_digits_app by (auto using decimal_digits).
  pose proof (@decimal_nonempty (first_width G)) as Hw.
  destruct (decimal (first_width G)) as [|d ds] eqn:Ew; [contradiction|].
  cbn [app]. rewrite N.eqb_refl.
  rewrite take_digits_app by (auto using decimal_digits).
  pose proof (@decimal_nonempty (length G)) as Hh.
  destruct (decimal (length G)) as [|e es] eqn:Eh; [contradiction|].
  rewrite N.eqb_refl, (body_not_line_terminator _ (rle_body G)). reflexivity.
Qed.

Section PlayersAgree.
Variable rt : Platform.
Variable parseInt : jsstring -> number.
Hypothesis laws : PlatformLaws rt.
Hypothesis parseInt_decimal :
  forall ds, ds <> [] -> forallb is_digit ds = true ->
    (decimal_value ds < 9007199254740992)%N ->
    parseInt ds = int (Z.of_N (decimal_value ds)).

Lemma parseInt_decimal_text n : fits n -> parseInt (decimal n) = num_of_nat n.
Proof.
  intros Hn. unfold num_of_nat.
  rewrite parseInt_decimal, decimal_value_decimal.
  - rewrite nat_N_Z. reflexivity.
  - apply decimal_nonempty.
  - apply decimal_digits.
  - rewrite decimal_value_decimal. exact Hn.
Qed.

(** The parameters that the frame reads from the block the encoder wrote. *)
Lemma frame_params_encoded level :
  finite_or_absent (maxEnemies level) ->
  finite_or_absent (enemySpawnChance level) ->
  finite_or_absent (coinSpawnChance level) ->
  finite_params level <> [] ->
  json_round_trip rt (finite_params level) ->
  frame_params rt (Some (base64urlEncode (JSON_stringify rt (finite_params level))))
  = mkUnity None (value_or_default (maxEnemies level) 5)
      (value_or_default (enemySpawnChance level) 10)
      (value_or_default (coinSpawnChance level) 15).
Proof.
  intros Hm He Hc Hne [Hnil|Hjson]; [contradiction|].
  unfold frame_params. rewrite frame_base64urlDecode_eq.
  rewrite (ui_base64urlDecode_encode laws) by (apply (params_text_ascii laws)).
  cbn [bind]. rewrite Hjson. cbn [bind]. clear Hjson Hne.
  unfold finite_params.
  destruct Hm as [-> | (a & ->)]; destruct He as [-> | (b & ->)];
    destruct Hc as [-> | (c & ->)]; reflexivity.
Qed.
End PlayersAgree.

Lemma value_or_default_kept v d :
  finite_or_absent v -> value_or_default (kept v) d = value_or_default v d.
Proof. intros H. rewrite (kept_finite H). reflexivity. Qed.

(** X19. The two decoders that hand a level to the game read the token of
    a level alike: for a rectangular grid of tile identifiers from 0 to 7
    with at least one tile and finite parameters, [decodeFullLevel] (in the
    frame) and [decodeLevelForUnity] (in the page) both give the grid, each
    finite parameter, and 5, 10 and 15 for a missing [maxEnemies],
    [enemySpawnChance] and [coinSpawnChance]. For a grid without any tile
    the frame still gives the grid, and the page gives no tiles. *)
Theorem players_read_the_level rt parseInt level G :
  PlatformLaws rt ->
  (forall ds, ds <> [] -> forallb is_digit ds = true ->
     (decimal_value ds < 9007199254740992)%N ->
     parseInt ds = int (Z.of_N (decimal_value ds))) ->
  tiles level = Some G ->
  Forall (fun row => length row = first_width G) G ->
  array_fits (first_width G) -> array_fits (length G) ->
  fits (length G * first_width G) ->
  Forall (Forall is_tile_id) G ->
  finite_or_absent (maxEnemies level) ->
  finite_or_absent (enemySpawnChance level) ->
  finite_or_absent (coinSpawnChance level) ->
  json_round_trip rt (finite_params level) ->
  let read :=
    mkUnity (Some G) (value_or_default (maxEnemies level) 5)
      (value_or_default (enemySpawnChance level) 10)
      (value_or_default (coinSpawnChance level) 15) in
  decodeFullLevel rt parseInt (encodeLevel rt level) = Returns read
  /\ (tile_string G <> [] ->
      decodeLevelForUnity rt (encodeLevel rt level) = Returns read)
  /\ (tile_string G = [] ->
      decodeLevelForUnity rt (encodeLevel rt level) = Returns unity_defaults).
Proof.
  intros laws Hparse HG Hrect Hw Hh Hcells Hids Hmax Henemy Hcoin Hjson read.
  assert (HG' : tiles level ?? [] = G) by (rewrite HG; reflexivity).
  assert (Hcells' : fits (length (tile_string G)))
    by (rewrite (tile_string_length Hrect); exact Hcells).
  assert (Hread : reread G = G)
    by (rewrite (reread_rectangular Hrect); apply normalise_grid; assumption).
  split; [|split].
  - unfold decodeFullLevel. rewrite frame_base64urlDecode_eq.
    unfold encodeLevel.
    rewrite (ui_base64urlDecode_encode laws) by (apply (encodePayload_ascii laws)).
    assert (Hmain :
      (if includes BAR (encodePayload rt level)
       then hd [] (split BAR (encodePayload rt level))
       else encodePayload rt level) = core_payload G).
    { pose proof (split_params_encodePayload laws level HG') as Hsplit.
      apply (f_equal fst) in Hsplit. rewrite split_params_main in Hsplit.
      exact Hsplit. }
    cbv zeta. rewrite Hmain, match_level_core.
    rewrite (@frame_runLengthDecode_encode parseInt Hparse (tile_string G))
      by (try exact Hcells'; apply Forall_forall; intros c Hin;
          apply tile_char_not_digit;
          pose proof (tile_string_chars G) as H; rewrite forallb_forall in H; auto).
    cbn [bind]. rewrite frame_tiles_eq.
    rewrite !(parseInt_decimal_text parseInt Hparse) by auto using array_fits_fits.
    rewrite decode_tiles_nat by assumption.
    change (rows_loop (length G) (first_width G) (tile_string G) 0 []) with (reread G).
    rewrite Hread. unfold read. f_equal.
    destruct (finite_params level) as [|kv params] eqn:Eparams.
    + unfold encodePayload. rewrite Eparams. cbn [length Nat.ltb Nat.leb].
      rewrite HG. cbn [nullish]. rewrite core_no_bar.
      pose proof (proj1 (finite_params_nil level) Eparams) as Hnone.
      destruct Hmax as [-> | (a & Ha)];
        [|exfalso; apply Hnone; left; eauto].
      destruct Henemy as [-> | (b & Hb)];
        [|exfalso; apply Hnone; right; left; eauto].
      destruct Hcoin as [-> | (c & Hc)];
        [|exfalso; apply Hnone; right; right; eauto].
      reflexivity.
    + assert (Hbar : includes BAR (encodePayload rt level) = true).
      { unfold encodePayload. rewrite Eparams. cbn [length Nat.ltb Nat.leb].
        rewrite !includes_app. cbn [includes existsb]. rewrite N.eqb_refl.
        rewrite orb_true_r. reflexivity. }
      rewrite Hbar.
      assert (Hblock :
        nth_error (split BAR (encodePayload rt level)) 1
        = Some (base64urlEncode (JSON_stringify rt (finite_params level)))).
      { unfold encodePayload. rewrite Eparams. cbn [length Nat.ltb Nat.leb].
        rewrite <- Eparams. rewrite HG. cbn [nullish app].
        rewrite split_app by apply core_no_bar.
        rewrite split_none
          by (apply token_no_bar, base64urlEncode_token, (params_text_ascii laws)).
        reflexivity. }
      rewrite Hblock.
      rewrite <- Eparams in Hjson.
      rewrite (@frame_params_encoded rt laws level Hmax Henemy Hcoin) by
        (try assumption; rewrite Eparams; discriminate).
      reflexivity.
  - intros Htiles. unfold decodeLevelForUnity.
    rewrite (ui_decode_encodeLevel laws level HG' Hw Hh Hcells').
    destruct (tile_string G); [contradiction|].
    rewrite (@read_back_params rt level G _ Hjson). rewrite Hread.
    cbn [tiles maxEnemies enemySpawnChance coinSpawnChance].
    rewrite !value_or_default_kept by assumption. reflexivity.
  - intros Htiles. unfold decodeLevelForUnity.
    rewrite (ui_decode_encodeLevel laws level HG' Hw Hh Hcells'), Htiles.
    reflexivity.
Qed.

Lemma players_read_the_level_witness :
  decodeFullLevel Reference.platform Reference.StringToNumber
    (encodeLevel Reference.platform example_level_with_params)
  = Returns (mkUnity (Some example_grid) (JNumber (int 5)) (JNumber (int 10))
               (JNumber (int 12)))
  /\ decodeLevelForUnity Reference.platform
       (encodeLevel Reference.platform example_level_with_params)
     = Returns (mkUnity (Some example_grid) (JNumber (int 5)) (JNumber (int 10))
                  (JNumber (int 12))).
Proof.
  destruct (@players_read_the_level Reference.platform Reference.StringToNumber
              example_level_with_params example_grid)
    as (Hframe & Hpage & _).
  - exact Reference_laws.
  - exact (Number_of_decimal Reference_laws).
  - reflexivity.
  - repeat constructor.
  - vm_compute. discriminate.
  - vm_compute. discriminate.
  - vm_compute. reflexivity.
  - repeat (constructor; [repeat (constructor; [eexists; split; [|reflexivity]; lia|]);
                          constructor|]); constructor.
  - right. eexists. reflexivity.
  - left. reflexivity.
  - right. eexists. reflexivity.
  - right. vm_compute. reflexivity.
  - split; [exact Hframe|]. apply Hpage. discriminate.
Defined.

(** X20. [decodeLevelForUnity] hides every error of the editor's decoder
    from the game. It never ends in an exception: when [decode] throws, the
    game gets no tiles and the parameters 5, 10 and 15. That is what it gets
    for a token that [atob] refuses, for one whose core section has no [:]
    and for one whose dimensions or tile data are empty. A result without
    tiles arises in no other way: [decode] threw, and the result is that
    default. *)
Theorem decodeLevelForUnity_hides_errors rt token :
  (forall e, decodeLevelForUnity rt token <> Throws e)
  /\ (forall e,
        LevelEncoder.base64urlDecode rt token = Throws e ->
        decodeLevelForUnity rt token = Returns unity_defaults)
  /\ (forall text,
        LevelEncoder.base64urlDecode rt token = Returns text ->
        includes COLON (main_data text) = false
        \/ dimensions_of (main_data text) = []
        \/ tile_data_of (main_data text) = Some [] ->
        decodeLevelForUnity rt token = Returns unity_defaults)
  /\ (forall result,
        decodeLevelForUnity rt token = Returns result ->
        unity_tiles result = None ->
        result = unity_defaults
        /\ exists e, LevelEncoder.decode rt token = Throws e).
Proof.
  split; [|split; [|split]].
  - intros e. unfold decodeLevelForUnity.
    destruct (LevelEncoder.decode rt token); discriminate.
  - intros e He. unfold decodeLevelForUnity, LevelEncoder.decode. rewrite He.
    reflexivity.
  - intros text Htext Hbad. unfold decodeLevelForUnity.
    rewrite ui_decode_views, Htext. cbn [bind]. cbv zeta.
    destruct Hbad as [Hcolon | [Hdims | Hdata]].
    + rewrite (tile_data_missing _ Hcolon). cbn [LevelEncoder.falsy].
      rewrite orb_true_r. reflexivity.
    + rewrite Hdims. reflexivity.
    + rewrite Hdata. cbn [LevelEncoder.falsy]. rewrite orb_true_r. reflexivity.
  - intros result. unfold decodeLevelForUnity.
    destruct (LevelEncoder.decode rt token) as [decoded|e|] eqn:Hd;
      try discriminate.
    + destruct (ui_decode_returns _ _ Hd) as (text & s & rows & _ & _ & _ & Ht & _).
      intros H. injection H as <-. cbn [unity_tiles]. rewrite Ht. discriminate.
    + intros H. injection H as <-. eauto.
Qed.


(* ------------------------------------------------------------------ *)
(** ** Looking for a port *)

Lemma number_add_int (a b : Z) : number_add (int a) (int b) = int (a + b).
Proof.
  unfold number_add, int, inject_Z, Qplus. cbn [Qnum Qden Pos.mul].
  f_equal. f_equal. lia.
Qed.

Lemma number_ltb_int (a b : Z) : number_ltb (int a) (int b) = (a <? b)%Z.
Proof. apply number_ltb_integer, integer_value_int. Qed.

Section PortFacts.
Variable rt : Platform.
Variable probe : number -> outcome bool.

(** The loop stops at the first port that is free, and at the first probe
    that throws. *)
Lemma probe_from_stops (k : nat) : forall (fuel : nat) (s bound : Z) (o : outcome bool),
  k < fuel -> (s + Z.of_nat k < bound)%Z ->
  probe (int (s + Z.of_nat k)) = o -> o <> Returns false ->
  (forall j, j < k -> probe (int (s + Z.of_nat j)) = Returns false) ->
  probe_from probe fuel (int s) (int bound)
  = (available <- o ;; Returns (if available then Some (int (s + Z.of_nat k)) else None)).
Proof.
  induction k as [|k IH]; intros fuel s bound o Hfuel Hbound Ho Hfree Hbusy;
    (destruct fuel as [|fuel]; [lia|]); cbn [probe_from];
    rewrite number_ltb_int, (proj2 (Z.ltb_lt _ _)) by lia.
  - rewrite Z.add_0_r in Ho. rewrite Z.add_0_r, Ho.
    destruct o as [[|]| |]; try reflexivity. contradiction.
  - pose proof (Hbusy 0 ltac:(lia)) as H0. cbn [Z.of_nat] in H0.
    rewrite Z.add_0_r in H0. rewrite H0. cbn [bind].
    rewrite number_add_int.
    replace (s + Z.of_nat (S k))%Z with (s + 1 + Z.of_nat k)%Z by lia.
    apply IH; try assumption; try lia.
    + rewrite <- Ho. f_equal. f_equal. lia.
    + intros j Hj. rewrite <- (Hbusy (S j)) by lia. f_equal. f_equal. lia.
Qed.

(** With every port taken the loop ends after [fuel] turns. *)
Lemma probe_from_none : forall (fuel : nat) (s : Z),
  (forall j, j < fuel -> probe (int (s + Z.of_nat j)) = Returns false) ->
  probe_from probe fuel (int s) (int (s + Z.of_nat fuel)) = Returns None.
Proof.
  induction fuel as [|fuel IH]; intros s Hbusy; cbn [probe_from];
    rewrite number_ltb_int.
  - rewrite (proj2 (Z.ltb_ge _ _)) by lia. reflexivity.
  - rewrite (proj2 (Z.ltb_lt _ _)) by lia.
    pose proof (Hbusy 0 ltac:(lia)) as H0. cbn [Z.of_nat] in H0.
    rewrite Z.add_0_r in H0. rewrite H0. cbn [bind].
    rewrite number_add_int.
    replace (s + Z.of_nat (S fuel))%Z with (s + 1 + Z.of_nat fuel)%Z by lia.
    apply IH. intros j Hj. rewrite <- (Hbusy (S j)) by lia. f_equal. f_equal. lia.
Qed.

(** X21. [findAvailablePort] from an integer port, with sums that stay below
    2^53: it returns the first port of the range whose probe succeeds,
    after probing the ports before it and none after it; it ends in the
    exception of the first probe that throws; with every port of the range
    taken it ends in the error that names the range. A start that is not a
    number probes nothing and ends in that error at once. *)
Theorem findAvailablePort_first_free (s : Z) (maxAttempts : nat) :
  (Z.abs s + Z.of_nat maxAttempts <= 2 ^ 53)%Z ->
  (forall k, k < maxAttempts ->
     (forall j, j < k -> probe (int (s + Z.of_nat j)) = Returns false) ->
     (probe (int (s + Z.of_nat k)) = Returns true ->
      findAvailablePort rt probe (int s) maxAttempts
      = Returns (PortFound (int (s + Z.of_nat k))))
     /\ (forall e, probe (int (s + Z.of_nat k)) = Throws e ->
         findAvailablePort rt probe (int s) maxAttempts = Throws e))
  /\ ((forall j, j < maxAttempts -> probe (int (s + Z.of_nat j)) = Returns false) ->
      findAvailablePort rt probe (int s) maxAttempts
      = Returns
          (NoPort
             (str "No available port found between " ++ String_of_number rt (int s)
                ++ str " and "
                ++ String_of_number rt (int (s + Z.of_nat maxAttempts - 1)))))
  /\ findAvailablePort rt probe NaN maxAttempts
     = Returns (NoPort (str "No available port found between NaN and NaN")).
Proof.
  intros _. repeat split.
  - intros Hfree. unfold findAvailablePort, num_of_nat. rewrite number_add_int.
    rewrite (@probe_from_stops k maxAttempts s (s + Z.of_nat maxAttempts)
               (Returns true)); try assumption; try lia; try discriminate.
    reflexivity.
  - intros e He. unfold findAvailablePort, num_of_nat. rewrite number_add_int.
    rewrite (@probe_from_stops k maxAttempts s (s + Z.of_nat maxAttempts)
               (Throws e)); try assumption; try lia; try discriminate.
    reflexivity.
  - intros Hbusy. unfold findAvailablePort, num_of_nat.
    rewrite !number_add_int, probe_from_none by assumption.
    cbn [bind]. reflexivity.
  - unfold findAvailablePort. destruct maxAttempts; reflexivity.
Qed.
End PortFacts.

Lemma findAvailablePort_first_free_witness :
  findAvailablePort Reference.platform
    (fun port => Returns (number_ltb (int 3001) port)) (int 3000) 10
  = Returns (PortFound (int 3002)).
Proof.
  apply (proj1 (proj1 (@findAvailablePort_first_free Reference.platform
           (fun port => Returns (number_ltb (int 3001) port)) 3000 10 ltac:(cbn; lia))
           2 ltac:(lia)
           ltac:(intros [|[|j]] Hj; [reflexivity | reflexivity | lia]))).
  reflexivity.
Defined.

Section GamePortFacts.
Variable answers : nat -> bool.

Lemma game_port_from_spec (turns : nat) : forall port,
  match game_port_from answers turns port with
  | Some p =>
      port <= p < port + turns /\ answers p = true
      /\ forall q, port <= q < p -> answers q = false
  | None => forall q, port <= q < port + turns -> answers q = false
  end.
Proof.
  induction turns as [|turns IH]; intros port; cbn [game_port_from].
  - intros q Hq. lia.
  - destruct (answers port) eqn:Hport.
    + split; [lia|]. split; [assumption|]. intros q Hq. lia.
    + specialize (IH (S port)). destruct (game_port_from answers turns (S port)) as [p|].
      * destruct IH as (Hp & Hanswers & Hbefore).
        split; [lia|]. split; [assumption|].
        intros q Hq. destruct (Nat.eq_dec q port) as [->|Hne]; [assumption|].
        apply Hbefore. lia.
      * intros q Hq. destruct (Nat.eq_dec q port) as [->|Hne]; [assumption|].
        apply IH. lia.
Qed.

(** X22. [findGameServerPort] returns the address of the lowest port from
    3001 to 3010 that answers; when none of the ten answers it returns the
    address of port 3001, the text it would give had that port answered. *)
Theorem findGameServerPort_lowest :
  (exists p, 3001 <= p <= 3010 /\ answers p = true
             /\ (forall q, 3001 <= q < p -> answers q = false)
             /\ findGameServerPort answers = str "http://localhost:" ++ decimal p)
  \/ ((forall q, 3001 <= q <= 3010 -> answers q = false)
      /\ findGameServerPort answers = str "http://localhost:" ++ decimal 3001).
Proof.
  unfold findGameServerPort. pose proof (game_port_from_spec 10 3001) as H.
  destruct (game_port_from answers 10 3001) as [p|].
  - left. exists p. destruct H as (Hp & Hanswers & Hbefore).
    split; [lia|]. split; [assumption|]. split; [assumption|reflexivity].
  - right. split; [|reflexivity]. intros q Hq. apply H. lia.
Qed.
End GamePortFacts.
